(** * yo-clip: tiling, batched embedding, nearest-prototype classification
      and grid reconstruction

    A shallow embedding of the pipeline of [yoclip/process.py] and the
    properties its specification states about it.

    Conventions of the embedding.
    - Python integers are [Z]; lengths and indices are [nat].
    - Floating point numbers are idealised: a float is a real number or one
      of the IEEE special values (type [fnum] below).  Rounding and signed
      zeros are not modelled; the special values are, because what a
      division by a zero norm produces is observable in the results.
    - The norm that the library takes of a row of features, of a
      prototype or of a tile embedding is a parameter of the embedder
      and of the classifier: in the range of its format a norm can be
      computed as zero for a vector that is not zero.
    - Python strings are [string] (a byte string; comparing UTF-8 bytes
      lexicographically is comparing code points, which is how Python
      orders [str]).
    - A function that can raise returns [result]. *)

From Stdlib Require Import Reals Lra Lia ZArith List String Ascii Bool.
From Stdlib Require Import Permutation Sorting.Sorted.
Import ListNotations.

Set Implicit Arguments.

(* ================================================================== *)
(** * Exceptions *)

Inductive exn : Type :=
| ValueError (msg : string)
| RuntimeError (msg : string)
| ZeroDivisionError
| IndexError
| KeyError (key : string).

Inductive result (A : Type) : Type :=
| Ok (a : A)
| Raise (e : exn).

Arguments Ok {A} a.
Arguments Raise {A} e.

Definition bind {A B : Type} (m : result A) (k : A -> result B) : result B :=
  match m with
  | Ok a => k a
  | Raise e => Raise e
  end.

Notation "x <- m ;; k" := (bind m (fun x => k))
  (at level 61, m at next level, right associativity).

(** [for x in xs: body], where the body can raise. *)
Fixpoint mapM {A B : Type} (f : A -> result B) (xs : list A) : result (list B) :=
  match xs with
  | [] => Ok []
  | x :: xs' => y <- f x ;; ys <- mapM f xs' ;; Ok (y :: ys)
  end.

(* ================================================================== *)
(** * Floating point values *)

Module Float.

Local Open Scope R_scope.

Inductive fnum : Type :=
| Fin (r : R)
| PInf
| NInf
| NaN.

Definition fadd (a b : fnum) : fnum :=
  match a, b with
  | NaN, _ | _, NaN => NaN
  | Fin x, Fin y => Fin (x + y)
  | PInf, NInf | NInf, PInf => NaN
  | PInf, _ | _, PInf => PInf
  | NInf, _ | _, NInf => NInf
  end.

(** An infinity scaled by the real [r]: [inf * 0] is not a number. *)
Definition scale_inf (positive : bool) (r : R) : fnum :=
  if Req_dec_T r 0 then NaN
  else if Rlt_dec 0 r then (if positive then PInf else NInf)
       else (if positive then NInf else PInf).

Definition fmul (a b : fnum) : fnum :=
  match a, b with
  | NaN, _ | _, NaN => NaN
  | Fin x, Fin y => Fin (x * y)
  | PInf, Fin r | Fin r, PInf => scale_inf true r
  | NInf, Fin r | Fin r, NInf => scale_inf false r
  | PInf, PInf | NInf, NInf => PInf
  | PInf, NInf | NInf, PInf => NInf
  end.

(** Division.  The only zero divisors of the program are norms, which are
    [+0]: a non-zero real over zero is the infinity of its sign, and
    [0 / 0] is not a number. *)
Definition fdiv (a b : fnum) : fnum :=
  match a, b with
  | NaN, _ | _, NaN => NaN
  | Fin x, Fin y =>
      if Req_dec_T y 0 then
        (if Req_dec_T x 0 then NaN
         else if Rlt_dec 0 x then PInf else NInf)
      else Fin (x / y)
  | Fin _, (PInf | NInf) => Fin 0
  | PInf, Fin y => if Rlt_dec y 0 then NInf else PInf
  | NInf, Fin y => if Rlt_dec y 0 then PInf else NInf
  | (PInf | NInf), (PInf | NInf) => NaN
  end.

Definition fsqrt (a : fnum) : fnum :=
  match a with
  | Fin x => if Rlt_dec x 0 then NaN else Fin (sqrt x)
  | PInf => PInf
  | NInf | NaN => NaN
  end.

(** [a < b] on values that are numbers; false as soon as one is [NaN]. *)
Definition flt (a b : fnum) : bool :=
  match a, b with
  | NaN, _ | _, NaN => false
  | Fin x, Fin y => if Rlt_dec x y then true else false
  | NInf, (Fin _ | PInf) => true
  | Fin _, PInf => true
  | _, _ => false
  end.


(** The total order in which [np.sort], [max] and [argmax] compare: a
    value that is not a number counts as the largest. *)
Definition tle (a b : fnum) : bool :=
  match a, b with
  | _, NaN => true
  | NaN, _ => false
  | _, _ => negb (flt b a)
  end.

Definition of_nat (n : nat) : fnum := Fin (INR n).

(** ** Vectors and matrices (arrays of one and two dimensions) *)

Definition vec := list fnum.
Definition matrix := list vec.

Definition fsum (v : vec) : fnum := fold_left fadd v (Fin 0).

Definition vadd (u v : vec) : vec := map (fun p => fadd (fst p) (snd p)) (combine u v).

Definition vscale_div (v : vec) (d : fnum) : vec := map (fun x => fdiv x d) v.

Definition dot (u v : vec) : fnum :=
  fsum (map (fun p => fmul (fst p) (snd p)) (combine u v)).

(** The Euclidean norm computed without error: what [v.norm()] and
    [np.linalg.norm(v)] return as long as no square leaves the range of
    the format of [v].  Only a vector of zeros has this norm zero.  The
    embedder, the classifier and the records of the crops do not use it:
    they take the norm that the library computes as a parameter. *)
Definition norm (v : vec) : fnum := fsqrt (fsum (map (fun x => fmul x x) v)).

(** [v / v.norm(dim=-1, keepdim=True)] on one row, with that norm. *)
Definition normalize_row (v : vec) : vec := vscale_div v (norm v).

(** [m / m.norm(dim=-1, keepdim=True)] on a matrix: row by row. *)
Definition normalize_rows (m : matrix) : matrix := map normalize_row m.

(** The same divisions with the norm as the library computes it on a
    row, [vnorm]: every component of the row is divided by the value
    that [vnorm] returns for the row, whatever that value is. *)
Definition normalize_by (vnorm : vec -> fnum) (v : vec) : vec :=
  vscale_div v (vnorm v).

Definition normalize_rows_by (vnorm : vec -> fnum) (m : matrix) : matrix :=
  map (normalize_by vnorm) m.

(** The norm as a format of limited range computes it: a square or a
    sum of squares of magnitude at most [tiny] becomes zero, one of
    magnitude [huge] or more becomes an infinity, and nothing else is
    lost. *)
Definition in_range (tiny huge : R) (a : fnum) : fnum :=
  match a with
  | Fin r =>
      if Rle_dec (Rabs r) tiny then Fin 0
      else if Rle_dec huge (Rabs r) then (if Rlt_dec 0 r then PInf else NInf)
      else Fin r
  | _ => a
  end.

Definition ranged_norm (tiny huge : R) (v : vec) : fnum :=
  fsqrt (fold_left
           (fun acc x => in_range tiny huge (fadd acc (in_range tiny huge (fmul x x))))
           v (Fin 0)).

Definition fin_vec (v : list R) : vec := map Fin v.

(** ** The same quantities on real numbers

    What the operations above compute on vectors of real numbers, for
    the statements about finite values. *)

Fixpoint Rsum (l : list R) : R :=
  match l with
  | [] => 0
  | x :: l' => x + Rsum l'
  end.

Definition Rdot (u v : list R) : R :=
  Rsum (map (fun p => fst p * snd p) (combine u v)).

Definition Rsumsq (v : list R) : R := Rsum (map (fun x => x * x) v).

Definition Rnorm (v : list R) : R := sqrt (Rsumsq v).

(** A vector divided by its norm. *)
Definition Rnormalize (v : list R) : list R := map (fun x => x / Rnorm v) v.

(** The cosine of the angle of two vectors. *)
Definition Rcosine (u v : list R) : R := Rdot u v / (Rnorm u * Rnorm v).


End Float.

(* ================================================================== *)
(** * The Python operations the program uses *)

Module Py.

Local Open Scope Z_scope.

(** [len(range(start, stop, step))] for a non-zero step. *)
Definition range_len (start stop step : Z) : Z :=
  if 0 <? step then Z.max 0 ((stop - start + step - 1) / step)
  else Z.max 0 ((start - stop - step - 1) / (- step)).

(** [range(start, stop, step)]; a zero step raises. *)
Definition range (start stop step : Z) : result (list Z) :=
  if step =? 0 then Raise (ValueError "range() arg 3 must not be zero")
  else Ok (map (fun k => start + Z.of_nat k * step)
               (seq 0 (Z.to_nat (range_len start stop step)))).

(** [a // b] *)
Definition floordiv (a b : Z) : result Z :=
  if b =? 0 then Raise ZeroDivisionError else Ok (a / b).

(** [l[i:j]] for [0 <= i]; the program slices at no negative index. *)
Definition slice {A : Type} (l : list A) (i j : Z) : list A :=
  firstn (Z.to_nat (j - i)) (skipn (Z.to_nat i) l).

Definition len {A : Type} (l : list A) : Z := Z.of_nat (List.length l).

Local Open Scope string_scope.

(** [s.replace(old, new)] for a non-empty [old]: the occurrences of [old]
    are found from the left and do not overlap.  [skip] counts the
    characters of an occurrence that are still to be dropped. *)
Fixpoint replace_from (old new s : string) (skip : nat) : string :=
  match s with
  | EmptyString => EmptyString
  | String c s' =>
      match skip with
      | S k => replace_from old new s' k
      | O =>
          if String.prefix old s
          then new ++ replace_from old new s' (String.length old - 1)
          else String c (replace_from old new s' 0)
      end
  end.

Definition replace (old new s : string) : string := replace_from old new s 0.

(** [old in s] *)
Fixpoint occurs (old s : string) : bool :=
  match s with
  | EmptyString => String.prefix old EmptyString
  | String _ s' => (String.prefix old s || occurs old s')%bool
  end.

(** [c in s] for one character. *)
Definition has_char (c : ascii) (s : string) : Prop :=
  In c (list_ascii_of_string s).

(** A name is free of the characters that a file name replaces:
    underscore, slash and space. *)
Definition plain (name : string) : Prop :=
  ~ has_char "_" name /\ ~ has_char "/" name /\ ~ has_char " " name.

(** The first occurrences of the elements of [l], in their order: the
    order of [Series.unique()].  It also stands for [set(l)], whose
    iteration order the program never relies on: every set is sorted
    before it is used. *)
Fixpoint unique_by {A : Type} (eqb : A -> A -> bool) (l : list A) : list A :=
  match l with
  | [] => []
  | x :: l' => x :: filter (fun y => negb (eqb x y)) (unique_by eqb l')
  end.

(** [sorted(l)]: a stable insertion sort. *)
Fixpoint insert_by {A : Type} (leb : A -> A -> bool) (x : A) (l : list A) : list A :=
  match l with
  | [] => [x]
  | y :: l' => if leb x y then x :: l else y :: insert_by leb x l'
  end.

Definition sorted_by {A : Type} (leb : A -> A -> bool) (l : list A) : list A :=
  fold_right (insert_by leb) [] l.

(** The order of a comparison function, as a relation. *)
Definition le_by {A : Type} (leb : A -> A -> bool) (a b : A) : Prop := leb a b = true.

Definition unique : list string -> list string := unique_by String.eqb.
Definition sorted : list string -> list string := sorted_by String.leb.

(** [min(l)] on integers; the empty sequence raises. *)
Definition min (l : list Z) : result Z :=
  match l with
  | [] => Raise (ValueError "min() arg is an empty sequence")
  | x :: l' => Ok (fold_left Z.min l' x)
  end.

(** [name.rfind('.')], counting from [i]. *)
Fixpoint rfind_dot (name : string) (i : nat) : option nat :=
  match name with
  | EmptyString => None
  | String c name' =>
      match rfind_dot name' (S i) with
      | Some j => Some j
      | None => if Ascii.eqb c "." then Some i else None
      end
  end.

(** [PurePath.stem]: the name without its last suffix. *)
Definition stem (name : string) : string :=
  match rfind_dot name 0 with
  | Some i =>
      if (Nat.ltb 0 i && Nat.ltb i (String.length name - 1))%bool
      then String.substring 0 i name
      else name
  | None => name
  end.

(** [s.split(sep)[0]] for a separator of one character. *)
Fixpoint split_first (sep : ascii) (s : string) : string :=
  match s with
  | EmptyString => EmptyString
  | String c s' => if Ascii.eqb c sep then EmptyString else String c (split_first sep s')
  end.

(** [s.lstrip(c)] for one character. *)
Fixpoint lstrip (c : ascii) (s : string) : string :=
  match s with
  | EmptyString => EmptyString
  | String c' s' => if Ascii.eqb c' c then lstrip c s' else s
  end.

(** Dictionaries, kept in insertion order.  [d[k] = v]: *)
Fixpoint dict_set_by {K V : Type} (eqb : K -> K -> bool) (d : list (K * V))
    (k : K) (v : V) : list (K * V) :=
  match d with
  | [] => [(k, v)]
  | (k', v') :: d' =>
      if eqb k' k then (k', v) :: d' else (k', v') :: dict_set_by eqb d' k v
  end.

(** [d.get(k)] *)
Fixpoint dict_get_by {K V : Type} (eqb : K -> K -> bool) (d : list (K * V))
    (k : K) : option V :=
  match d with
  | [] => None
  | (k', v') :: d' => if eqb k' k then Some v' else dict_get_by eqb d' k
  end.

Definition dict_set {V : Type} := @dict_set_by string V String.eqb.
Definition dict_get {V : Type} := @dict_get_by string V String.eqb.

(** [dict(zip(keys, values))] *)
Definition dict_zip {V : Type} (keys : list string) (values : list V)
    : list (string * V) :=
  fold_left (fun d kv => dict_set d (fst kv) (snd kv)) (combine keys values) [].

End Py.

(* ================================================================== *)
(** * Data model: windows, transforms, tile metadata *)

(** [rasterio.windows.Window(col_off, row_off, width, height)] *)
Record Window : Type := mkWindow {
  col_off : Z;
  row_off : Z;
  win_width : Z;
  win_height : Z
}.

(** [affine.Affine(a, b, c, d, e, f)]: a pixel [(x, y)] is sent to
    [(a*x + b*y + c, d*x + e*y + f)]. *)
Record Affine : Type := mkAffine {
  af_a : R; af_b : R; af_c : R;
  af_d : R; af_e : R; af_f : R
}.

Definition affine_apply (t : Affine) (x y : R) : R * R :=
  ((af_a t * x + af_b t * y + af_c t)%R, (af_d t * x + af_e t * y + af_f t)%R).

(** [src.window_transform(window)]: the transform of the raster followed
    by the translation to the window's origin. *)
Definition window_transform (t : Affine) (w : Window) : Affine :=
  let (c, f) := affine_apply t (IZR (col_off w)) (IZR (row_off w)) in
  mkAffine (af_a t) (af_b t) c (af_d t) (af_e t) f.

(** The metadata dictionary of a tile. *)
Record tile_meta : Type := mkMeta {
  tile_x : Z;
  tile_y : Z;
  tile_width : Z;
  tile_height : Z;
  row : Z;
  col : Z;
  window : Window;
  transform : Affine;
  crs : string;
  source_file : string
}.

(* ================================================================== *)
(** * Tile extractor: [extract_geotiff_tiles] *)

Module Extractor.

Local Open Scope Z_scope.

Section WithPixels.

(** The pixel data of a tile after the conversion to 8-bit RGB; the
    properties below do not look into it. *)
Variable pixels : Type.

(** What the program uses of an open raster ([rasterio.open]). *)
Record raster : Type := mkRaster {
  width : Z;
  height : Z;
  count : Z;                        (* number of bands *)
  src_transform : Affine;
  src_crs : string;
  (** [src.read_masks(1, window)] at one pixel: 0 is masked, 255 valid. *)
  mask_at : Z -> Z -> Z;
  (** [src.read(window)], its first three bands as an 8-bit image. *)
  read_rgb : Window -> pixels
}.

(** The pixels [(x, y)] of a window, row by row. *)
Definition window_pixels (w : Window) : list (Z * Z) :=
  flat_map (fun j => map (fun i => (col_off w + Z.of_nat i, row_off w + Z.of_nat j))
                         (seq 0 (Z.to_nat (win_width w))))
           (seq 0 (Z.to_nat (win_height w))).

(** [np.any(mask == 0)] *)
Definition any_masked (src : raster) (w : Window) : bool :=
  existsb (fun p => mask_at src (fst p) (snd p) =? 0) (window_pixels w).

(** The shape of [tile_data[:3].transpose(1, 2, 0)]; no dimension of an
    array is negative. *)
Definition rgb_shape (src : raster) (w : Window) : Z * Z * Z :=
  (Z.max 0 (win_height w), Z.max 0 (win_width w), Z.max 0 (Z.min (count src) 3)).

(** The tests that the candidate window at [(x, y)] has to pass: the full
    width, the full height, no masked pixel. *)
Definition kept (src : raster) (tile_size x y : Z) : Prop :=
  Z.min tile_size (width src - x) = tile_size
  /\ Z.min tile_size (height src - y) = tile_size
  /\ any_masked src (mkWindow x y tile_size tile_size) = false.

(** The inner loop, [for x in range(0, width, tile_size - overlap)], with
    its column counter. *)
Fixpoint scan_row (src : raster) (geotiff_path : string) (tile_size : Z)
    (y row : Z) (xs : list Z) (col : Z) : list (pixels * tile_meta) :=
  match xs with
  | [] => []
  | x :: xs' =>
      let tile_width := Z.min tile_size (width src - x) in
      let tile_height := Z.min tile_size (height src - y) in
      if (tile_width <? tile_size) || (tile_height <? tile_size) then
        scan_row src geotiff_path tile_size y row xs' (col + 1)
      else
        let window := mkWindow x y tile_width tile_height in
        if any_masked src window then
          scan_row src geotiff_path tile_size y row xs' (col + 1)
        else
          let '(h, w, c) := rgb_shape src window in
          if negb (c =? 3) || negb (h =? tile_size) || negb (w =? tile_size) then
            scan_row src geotiff_path tile_size y row xs' (col + 1)
          else
            let metadata :=
              mkMeta x y tile_width tile_height row col window
                     (window_transform (src_transform src) window)
                     (src_crs src) geotiff_path in
            (read_rgb src window, metadata)
              :: scan_row src geotiff_path tile_size y row xs' (col + 1)
  end.

(** The outer loop, [for y in range(0, height, tile_size - overlap)], with
    its row counter. *)
Fixpoint scan_rows (src : raster) (geotiff_path : string) (tile_size : Z)
    (ys : list Z) (row : Z) (xs : list Z) : list (pixels * tile_meta) :=
  match ys with
  | [] => []
  | y :: ys' =>
      scan_row src geotiff_path tile_size y row xs 0
        ++ scan_rows src geotiff_path tile_size ys' (row + 1) xs
  end.

Definition extract_geotiff_tiles (src : raster) (geotiff_path : string)
    (tile_size overlap : Z) : result (list (pixels * tile_meta)) :=
  tiles_x <- Py.floordiv (width src + tile_size - 1) tile_size ;;
  tiles_y <- Py.floordiv (height src + tile_size - 1) tile_size ;;
  ys <- Py.range 0 (height src) (tile_size - overlap) ;;
  xs <- Py.range 0 (width src) (tile_size - overlap) ;;
  Ok (scan_rows src geotiff_path tile_size ys 0 xs).

End WithPixels.

End Extractor.

(* ================================================================== *)
(** * Batched embedder: [process_tiles_in_batches] *)

Module Embedder.

Import Float.

Section WithModel.

Variables pixels tensor : Type.

(** The CLIP model, its preprocessing and the norm of its features, as
    the program uses them.  [preprocess] stands for
    [preprocess(Image.fromarray(tile_data))] and is [None] when that
    raises.  [encode_image] is given for one row of the batch: the model
    embeds every row of a batch on its own.  [features_norm] is what
    [batch_features.norm(dim=-1, keepdim=True)] returns for one row, in
    the format of the features. *)
Record clip : Type := mkClip {
  preprocess : pixels -> option tensor;
  zeros : tensor;                       (* [torch.zeros(3, 224, 224)] *)
  encode_image : tensor -> vec;
  features_norm : vec -> fnum
}.

(** The [try]/[except] around the conversion of one tile. *)
Definition preprocess_tile (m : clip) (tile_data : pixels) : tensor :=
  match preprocess m tile_data with
  | Some t => t
  | None => zeros m
  end.

(** [model.encode_image(torch.stack(batch_tensors))] *)
Definition encode_batch (m : clip) (batch_tensors : list tensor) : matrix :=
  map (encode_image m) batch_tensors.

(** The body of the loop over batches; the state is the list of the
    arrays of features appended so far and the metadata appended so far. *)
Definition process_batch (m : clip) (tiles : list (pixels * tile_meta))
    (batch_size : Z) (st : list matrix * list tile_meta) (i : Z)
    : list matrix * list tile_meta :=
  let (tile_embeddings, tile_metadata) := st in
  let batch_tiles := Py.slice tiles i (i + batch_size) in
  let batch_tensors := map (fun t => preprocess_tile m (fst t)) batch_tiles in
  let tile_metadata := tile_metadata ++ map snd batch_tiles in
  match batch_tensors with
  | [] => (tile_embeddings, tile_metadata)
  | _ :: _ =>
      let batch_features := encode_batch m batch_tensors in
      let batch_features := normalize_rows_by (features_norm m) batch_features in
      (tile_embeddings ++ [batch_features], tile_metadata)
  end.

(** What the embedder computes for one tile, wherever the tile lands in
    a batch: the conversion, the model, the division by the norm. *)
Definition embed_one (m : clip) (t : pixels * tile_meta) : vec :=
  normalize_by (features_norm m) (encode_image m (preprocess_tile m (fst t))).

(** [np.vstack(tile_embeddings) if tile_embeddings else np.array([])] *)
Definition vstack (arrays : list matrix) : matrix := List.concat arrays.

Definition process_tiles_in_batches (tiles : list (pixels * tile_meta))
    (m : clip) (batch_size : Z) : result (matrix * list tile_meta) :=
  total_batches <- Py.floordiv (Py.len tiles + batch_size - 1) batch_size ;;
  starts <- Py.range 0 (Py.len tiles) batch_size ;;
  let (tile_embeddings, tile_metadata) :=
    fold_left (process_batch m tiles batch_size) starts ([], []) in
  Ok (vstack tile_embeddings, tile_metadata).

End WithModel.

End Embedder.

(* ================================================================== *)
(** * Prototype builder: [create_query_vector], [create_query_vectors_auto] *)

Module Prototype.

Import Float.

Local Open Scope string_scope.

(** A row of the embeddings table: [class_name] and [image_embedding]. *)
Definition row : Type := string * vec.

(** [df[df['class_name'] == class_name]['image_embedding']] *)
Definition class_rows (df : list row) (class_name : string) : list vec :=
  map snd (filter (fun r => String.eqb (fst r) class_name) df).

(** [np.stack(arrays)]: the arrays must have one shape, and there must be
    at least one. *)
Definition np_stack (arrays : list vec) : result matrix :=
  match arrays with
  | [] => Raise (ValueError "need at least one array to stack")
  | a :: rest =>
      if forallb (fun b => Nat.eqb (List.length b) (List.length a)) rest
      then Ok arrays
      else Raise (ValueError "all input arrays must have the same shape")
  end.

(** [np.mean(m, axis=0)] for a matrix with at least one row: the rows are
    added up and the sum is divided by their number. *)
Definition np_mean_axis0 (m : matrix) : vec :=
  match m with
  | [] => []
  | r :: rest => vscale_div (fold_left vadd rest r) (of_nat (List.length m))
  end.

(** [np.sort] of one column: ascending, the values that are not numbers
    last. *)
Definition sort (l : list fnum) : list fnum := Py.sorted_by tle l.

(** [np.median] of one column: not a number as soon as one entry is not;
    otherwise the middle of the sorted column, or the mean of its two
    middle entries. *)
Definition np_median (column : list fnum) : fnum :=
  if existsb (fun x => match x with NaN => true | _ => false end) column then NaN
  else
    let s := sort column in
    let n := List.length s in
    if Nat.even n
    then fdiv (fadd (nth (n / 2 - 1) s NaN) (nth (n / 2) s NaN)) (Fin 2)
    else nth (n / 2) s NaN.


(** Column [j] of a matrix. *)
Definition column (m : matrix) (j : nat) : list fnum := map (fun r => nth j r NaN) m.

(** [np.median(m, axis=0)] for a matrix with at least one row. *)
Definition np_median_axis0 (m : matrix) : vec :=
  match m with
  | [] => []
  | r :: _ => map (fun j => np_median (column m j)) (seq 0 (List.length r))
  end.

(** The aggregation of the embeddings of one class. *)
Definition aggregate (method : string) (embeddings : matrix) : result vec :=
  if String.eqb method "mean" then Ok (np_mean_axis0 embeddings)
  else if String.eqb method "median" then Ok (np_median_axis0 embeddings)
  else if String.eqb method "centroid" then
    let normalized_embeddings := normalize_rows embeddings in
    let query_vector := np_mean_axis0 normalized_embeddings in
    Ok (normalize_row query_vector)
  else Raise (ValueError "Unknown method").

Definition create_query_vector (df : list row) (class_name method : string)
    : result vec :=
  let class_embeddings := class_rows df class_name in
  match class_embeddings with
  | [] => Raise (ValueError "No embeddings found for class")
  | _ :: _ =>
      embeddings <- np_stack class_embeddings ;;
      aggregate method embeddings
  end.

(** [class_name.replace(';', '_').replace('/', '_').replace(' ', '_')] *)
Definition safe_class_name (class_name : string) : string :=
  Py.replace " " "_" (Py.replace "/" "_" (Py.replace ";" "_" class_name)).

(** The name of the file of a prototype inside the output directory. *)
Definition output_file (class_name : string) : string :=
  "query_" ++ safe_class_name class_name ++ ".npy".

(** An entry of [query_vectors_summary.csv]. *)
Record info : Type := mkInfo {
  info_class_name : string;
  info_file_path : string;
  info_num_embeddings : nat;
  info_method : string
}.

(** The files written to the output directory, with their content, and
    the rows of the summary. *)
Definition create_query_vectors_auto (df : list row) (method : string)
    : result (list (string * vec) * list info) :=
  let available_classes := Py.unique (map fst df) in
  written <-
    mapM (fun class_name =>
            let class_embeddings := class_rows df class_name in
            embeddings <- np_stack class_embeddings ;;
            query_vector <- aggregate method embeddings ;;
            Ok ((output_file class_name, query_vector),
                mkInfo class_name (output_file class_name)
                       (List.length class_embeddings) method))
         (Py.sorted available_classes) ;;
  Ok (fold_left (fun d f => Py.dict_set d (fst f) (snd f)) (map fst written) [],
      map snd written).

End Prototype.

(* ================================================================== *)
(** * Nearest-prototype classifier: the classification of [run_process] *)

Module Classifier.

Import Float.

Local Open Scope string_scope.

(** ** Loading the prototypes *)

(** The class name of a prototype file:
    [stem.replace('query_', '').replace('_', ';')]. *)
Definition class_name_of_file (file_name : string) : string :=
  Py.replace "_" ";" (Py.replace "query_" "" (Py.stem file_name)).

Definition ends_with (suffix s : string) : bool :=
  (Nat.leb (String.length suffix) (String.length s)
   && String.eqb (String.substring (String.length s - String.length suffix)
                                   (String.length suffix) s) suffix)%bool.

(** The names that [glob("query_*.npy")] matches. *)
Definition is_query_file (file_name : string) : bool :=
  (String.prefix "query_" file_name && ends_with ".npy" file_name
   && Nat.leb 10 (String.length file_name))%bool.

(** What [query_vector_path] is: a file, with the array [np.load] reads
    from it ([None] when loading raises), a directory of such files, or
    neither. *)
Inductive query_path : Type :=
| QFile (file_name : string) (content : option vec)
| QDir (entries : list (string * option vec))
| QOther.

(** The loop over the sorted files of a directory: a file that does not
    load is reported and skipped. *)
Fixpoint load_files (entries : list (string * option vec))
    (npy_files : list string) (query_vectors : list (string * vec))
    : list (string * vec) :=
  match npy_files with
  | [] => query_vectors
  | f :: rest =>
      match Py.dict_get entries f with
      | Some (Some query_vector) =>
          load_files entries rest
            (Py.dict_set query_vectors (class_name_of_file f) query_vector)
      | _ => load_files entries rest query_vectors
      end
  end.

Definition load_query_vectors (p : query_path) : result (list (string * vec)) :=
  match p with
  | QFile file_name content =>
      match content with
      | Some query_vector => Ok [(class_name_of_file file_name, query_vector)]
      | None => Raise (ValueError "Error loading query vector")
      end
  | QDir entries =>
      let npy_files := filter is_query_file (map fst entries) in
      match npy_files with
      | [] => Raise (ValueError "No query vector files found")
      | _ :: _ =>
          match load_files entries (Py.sorted npy_files) [] with
          | [] => Raise (ValueError "No valid query vectors loaded")
          | qv => Ok qv
          end
      end
  | QOther => Raise (ValueError "Query vector path must be a file or directory")
  end.

(** ** Similarities and the best class *)

(** [torch.stack(tensors)]: at least one tensor, all of one shape. *)
Definition torch_stack (tensors : list vec) : result matrix :=
  match tensors with
  | [] => Raise (RuntimeError "stack expects a non-empty TensorList")
  | a :: rest =>
      if forallb (fun b => Nat.eqb (List.length b) (List.length a)) rest
      then Ok tensors
      else Raise (RuntimeError "stack expects each tensor to be equal size")
  end.

(** [tile_feats @ proto_matrix.T] for a matrix of tiles with at least one
    row: the inner dimensions must agree. *)
Definition matmul_T (tile_feats proto_matrix : matrix) : result matrix :=
  match tile_feats, proto_matrix with
  | [], _ | _, [] => Raise (RuntimeError "size mismatch")
  | _ :: _, p :: _ =>
      if forallb (fun t => Nat.eqb (List.length t) (List.length p)) tile_feats
      then Ok (map (fun t => map (fun q => dot t q) proto_matrix) tile_feats)
      else Raise (RuntimeError "size mismatch")
  end.

(** One scan for the first largest entry: the index and the value of the
    best entry so far, and the index of the next entry. *)
Fixpoint scan_max (best_i : nat) (best : fnum) (i : nat) (l : list fnum)
    : nat * fnum :=
  match l with
  | [] => (best_i, best)
  | x :: l' =>
      if tle x best then scan_max best_i best (S i) l'
      else scan_max i x (S i) l'
  end.

(** [row.argmax()] and [row.max()] of a row with at least one entry. *)
Definition argmax (l : list fnum) : nat :=
  match l with
  | [] => 0
  | x :: l' => fst (scan_max 0 x 1 l')
  end.

Definition vmax (l : list fnum) : fnum :=
  match l with
  | [] => NaN
  | x :: l' => snd (scan_max 0 x 1 l')
  end.

(** An entry of the results. *)
Record result_entry : Type := mkResult {
  tile_id : nat;
  r_source_file : string;
  r_tile_x : Z;
  r_tile_y : Z;
  r_tile_width : Z;
  r_tile_height : Z;
  r_row : Z;
  r_col : Z;
  best_class : string;
  query_similarity : fnum
}.

Definition getitem {A : Type} (l : list A) (i : nat) : result A :=
  match nth_error l i with
  | Some a => Ok a
  | None => Raise IndexError
  end.

Section WithTorch.

(** What [proto_matrix.norm(dim=-1, keepdim=True)] and
    [tile_feats.norm(dim=-1, keepdim=True)] return for one row, each in
    the format of its tensor. *)
Variables proto_norm tile_norm : vec -> fnum.

(** The similarity of a tile embedding and a prototype as it is
    computed: the dot product of the two vectors, each divided by its
    norm. *)
Definition cosine (t p : vec) : fnum :=
  dot (normalize_by tile_norm t) (normalize_by proto_norm p).

(** The row of the similarity matrix of the tile embedding [t]: its
    cosine with every prototype, in the order of the prototypes. *)
Definition sim_row (query_vectors : list (string * vec)) (t : vec) : list fnum :=
  map (fun p => cosine t (snd p)) query_vectors.

(** The similarity matrix [sims]. *)
Definition similarities (query_vectors : list (string * vec))
    (tile_embeddings : matrix) : result matrix :=
  proto_matrix <- torch_stack (map snd query_vectors) ;;
  let proto_matrix := normalize_rows_by proto_norm proto_matrix in
  let tile_feats := normalize_rows_by tile_norm tile_embeddings in
  matmul_T tile_feats proto_matrix.

(** The classification of every tile: from the stacking of the
    prototypes to the list [results]. *)
Definition classify (query_vectors : list (string * vec))
    (tile_embeddings : matrix) (tile_metadata : list tile_meta)
    : result (list result_entry) :=
  let query_class_names := map fst query_vectors in
  sims <- similarities query_vectors tile_embeddings ;;
  let best_indices := map argmax sims in
  let best_similarities := map vmax sims in
  mapM (fun tile_idx =>
          best_query_idx <- getitem best_indices tile_idx ;;
          best_class_name <- getitem query_class_names best_query_idx ;;
          tile_similarity <- getitem best_similarities tile_idx ;;
          tile_meta <- getitem tile_metadata tile_idx ;;
          Ok (mkResult tile_idx (source_file tile_meta)
                       (tile_x tile_meta) (tile_y tile_meta)
                       (tile_width tile_meta) (tile_height tile_meta)
                       (row tile_meta) (col tile_meta)
                       best_class_name tile_similarity))
       (seq 0 (List.length tile_embeddings)).

End WithTorch.

End Classifier.

(* ================================================================== *)
(** * Grid reconstructor: [_create_grid_shapefile] *)

Module Grid.

Import Float Classifier.

Local Open Scope string_scope.

Definition rgb : Type := (Z * Z * Z)%type.

(** What the colouring takes from outside the program: [colorsys]
    ([None] when its import fails), [int(s, 16)], [str.lower] and
    [round(x, 4)]. *)
Record externals : Type := mkExternals {
  hsv_to_rgb : option (R -> R -> R -> R * R * R);
  int16 : string -> result Z;
  lower : string -> string;
  round4 : fnum -> fnum
}.

(** [int(c)] on a real: towards zero. *)
Definition py_int (c : R) : Z :=
  if Rle_dec 0 c then Int_part c else (- Int_part (- c))%Z.

(** The colour of a hue: [hsv_to_rgb(hue, 0.8, 0.9)] with its components
    brought to the range of a byte. *)
Definition hue_color (hsv : R -> R -> R -> R * R * R) (hue : R) : rgb :=
  let '(r, g, b) := hsv hue 0.8%R 0.9%R in
  (py_int (r * 255), py_int (g * 255), py_int (b * 255)).

(** [generate_color_palette]: the hue of colour [i] is [i / n_colors]. *)
Definition generate_color_palette (hsv : R -> R -> R -> R * R * R)
    (n_colors : nat) : list rgb :=
  map (fun i => hue_color hsv (INR i / INR n_colors)%R) (seq 0 n_colors).

Definition predefined_colors : list rgb :=
  [ (255, 0, 0); (0, 255, 0); (0, 0, 255); (255, 255, 0); (255, 0, 255);
    (0, 255, 255); (255, 165, 0); (128, 0, 128); (255, 192, 203);
    (165, 42, 42) ]%Z.

(** [_generate_class_colors] *)
Definition _generate_class_colors (ext : externals) (unique_classes : list string)
    : list (string * rgb) :=
  let n := List.length unique_classes in
  let class_colors :=
    match hsv_to_rgb ext with
    | Some hsv => generate_color_palette hsv n
    | None =>
        firstn n (List.concat (repeat predefined_colors
                                 (n / List.length predefined_colors + 1)))
    end in
  Py.dict_zip unique_classes class_colors.

(** [hex_to_rgb]: the three pairs of digits after the leading ['#']. *)
Definition hex_to_rgb (ext : externals) (hexstr : string) : result rgb :=
  let hexstr := Py.lstrip "#" hexstr in
  r <- int16 ext (String.substring 0 2 hexstr) ;;
  g <- int16 ext (String.substring 2 2 hexstr) ;;
  b <- int16 ext (String.substring 4 2 hexstr) ;;
  Ok (r, g, b).

Definition grey : rgb := (128, 128, 128)%Z.

(** The key under which a class is looked up in the colour table. *)
Definition color_key (ext : externals) (c : string) : string :=
  Py.split_first ";" (Py.replace " " "-" (Py.replace ";;" ";" (lower ext c))).

(** The colours of the classes.  An absent or empty [color_map] selects
    the generated colours. *)
Definition class_colors (ext : externals) (color_map : option (list (string * string)))
    (unique_classes : list string) : result (list (string * rgb)) :=
  match color_map with
  | Some ((_ :: _) as cm) =>
      fold_left
        (fun acc c =>
           class_to_color <- acc ;;
           match Py.dict_get cm (color_key ext c) with
           | Some (String _ _ as hexval) =>
               v <- hex_to_rgb ext hexval ;;
               Ok (Py.dict_set class_to_color c v)
           | _ => Ok (Py.dict_set class_to_color c grey)
           end)
        unique_classes (Ok [])
  | _ => Ok (_generate_class_colors ext unique_classes)
  end.

(** [sorted(list(set(result['best_class'] for result in results)))] *)
Definition unique_classes_of (results : list result_entry) : list string :=
  Py.sorted (Py.unique (map best_class results)).

Definition pos_eqb (p q : Z * Z) : bool :=
  (Z.eqb (fst p) (fst q) && Z.eqb (snd p) (snd q))%bool.

(** [sorted(set(xs))] on integers. *)
Definition sorted_positions (xs : list Z) : list Z :=
  Py.sorted_by Z.leb (Py.unique_by Z.eqb xs).

(** The dictionary from the position of a tile to its result. *)
Definition build_lookup (results : list result_entry) (tile_metadata : list tile_meta)
    : list (Z * Z * result_entry) :=
  fold_left
    (fun result_lookup result =>
       match nth_error tile_metadata (tile_id result) with
       | Some meta =>
           Py.dict_set_by pos_eqb result_lookup (tile_x meta, tile_y meta) result
       | None => result_lookup
       end)
    results [].

(** The attributes of a cell. *)
Record attributes : Type := mkAttributes {
  a_tile_id : nat;
  a_best_class : string;
  a_similarity : fnum;
  a_tile_x : Z;
  a_tile_y : Z;
  a_tile_width : Z;
  a_tile_height : Z;
  a_source_file : string;
  a_red : Z;
  a_green : Z;
  a_blue : Z
}.

Record cell : Type := mkCell {
  polygon : list (R * R);
  attrs : attributes
}.

(** The cell of one position of the grid, for the result [res] found there. *)
Definition make_cell (ext : externals) (tile_metadata : list tile_meta)
    (class_to_color : list (string * rgb))
    (grid_cell_width grid_cell_height : Z) (x_pos y_pos : Z)
    (res : result_entry) : result cell :=
  tile_meta <- getitem tile_metadata (tile_id res) ;;
  let tile_transform := transform tile_meta in
  let window := window tile_meta in
  let local_x := (x_pos - col_off window)%Z in
  let local_y := (y_pos - row_off window)%Z in
  let p1 := affine_apply tile_transform (IZR local_x) (IZR local_y) in
  let p2 := affine_apply tile_transform (IZR (local_x + grid_cell_width)) (IZR local_y) in
  let p3 := affine_apply tile_transform (IZR (local_x + grid_cell_width))
                         (IZR (local_y + grid_cell_height)) in
  let p4 := affine_apply tile_transform (IZR local_x) (IZR (local_y + grid_cell_height)) in
  let class_name := best_class res in
  let rgb_color :=
    match Py.dict_get class_to_color
            (Py.split_first ";" (Py.replace ";;" ";" class_name)) with
    | Some c => c
    | None => grey
    end in
  let '(red, green, blue) := rgb_color in
  Ok (mkCell [p1; p2; p3; p4]
        (mkAttributes (tile_id res) (best_class res)
           (round4 ext (query_similarity res))
           x_pos y_pos grid_cell_width grid_cell_height
           (source_file tile_meta) red green blue)).

(** The size of a grid cell, in pixels:
    [min(meta['tile_width'] for meta in tile_metadata)] and the same for
    the height. *)
Definition grid_cell_size (tile_metadata : list tile_meta) : result (Z * Z) :=
  grid_cell_width <- Py.min (map tile_width tile_metadata) ;;
  grid_cell_height <- Py.min (map tile_height tile_metadata) ;;
  Ok (grid_cell_width, grid_cell_height).

(** What the function writes: the classes, their colours and the cells. *)
Record shapefile : Type := mkShapefile {
  sf_unique_classes : list string;
  sf_class_to_color : list (string * rgb);
  sf_cell_width : Z;
  sf_cell_height : Z;
  sf_cells : list cell
}.

(** [_create_grid_shapefile]; [None] is the return without output when
    there is no tile metadata. *)
Definition _create_grid_shapefile (ext : externals)
    (results : list result_entry) (tile_metadata : list tile_meta)
    (color_map : option (list (string * string))) : result (option shapefile) :=
  let unique_classes := unique_classes_of results in
  class_to_color <- class_colors ext color_map unique_classes ;;
  match tile_metadata with
  | [] => Ok None
  | _ :: _ =>
      size <- grid_cell_size tile_metadata ;;
      let (grid_cell_width, grid_cell_height) := size in
      let result_lookup := build_lookup results tile_metadata in
      let sorted_x_positions := sorted_positions (map tile_x tile_metadata) in
      let sorted_y_positions := sorted_positions (map tile_y tile_metadata) in
      cells <-
        mapM (fun cell_key => 
                match Py.dict_get_by pos_eqb result_lookup cell_key with
                | Some res =>
                    c <- make_cell ext tile_metadata class_to_color
                           grid_cell_width grid_cell_height
                           (fst cell_key) (snd cell_key) res ;;
                    Ok [c]
                | None => Ok []
                end)
             (flat_map (fun y_pos => map (fun x_pos => (x_pos, y_pos)) sorted_x_positions)
                       sorted_y_positions) ;;
      Ok (Some (mkShapefile unique_classes class_to_color
                  grid_cell_width grid_cell_height (List.concat cells)))
  end.

(** The spacing of the grid as the specification describes it: the
    smallest positive difference between consecutive sorted distinct
    positions, and the pixel dimension of the tile when there are fewer
    than two positions. *)
Fixpoint consecutive_diffs (l : list Z) : list Z :=
  match l with
  | a :: ((b :: _) as l') => (b - a)%Z :: consecutive_diffs l'
  | _ => []
  end.

Definition spacing_spec (positions : list Z) (own_dimension : Z) : Z :=
  match consecutive_diffs (sorted_positions positions) with
  | [] => own_dimension
  | d :: ds => fold_left Z.min ds d
  end.

End Grid.

(* ================================================================== *)
(** * Sample inputs *)

Module Samples.

Import Float.

Local Open Scope string_scope.
Local Open Scope Z_scope.

(** A north-up transform with pixels of half a metre. *)
Definition utm : Affine := mkAffine 0.5 0 300000 0 (-0.5) 8500000.

(** The metadata of the tile of size [s] at [(x, y)], as the extractor
    writes it for a raster with the transform [utm]. *)
Definition meta_at (x y s r c : Z) : tile_meta :=
  mkMeta x y s s r c (mkWindow x y s s)
         (window_transform utm (mkWindow x y s s)) "EPSG:32750" "reef.tif".

(** A model on tiles that are numbers: the tile [0] does not convert; the
    embedding of the tensor [t] is [(t, 1)], so that the placeholder
    [zeros = 0] is embedded to [(0, 1)].  The norm of these features is
    computed without error. *)
Definition toy_clip : Embedder.clip Z Z :=
  Embedder.mkClip (fun p => if p =? 0 then None else Some p) 0
                  (fun t => [Fin (IZR t); Fin 1%R]) norm.

(** A model whose output for the tensor [0] is the zero vector. *)
Definition flat_clip : Embedder.clip Z Z :=
  Embedder.mkClip (fun p => Some p) 0 (fun t => [Fin (IZR t); Fin (IZR t)]) norm.

Definition five_tiles : list (Z * tile_meta) :=
  [ (3, meta_at 0 0 2 0 0); (0, meta_at 2 0 2 0 1); (4, meta_at 4 0 2 0 2);
    (1, meta_at 0 2 2 1 0); (7, meta_at 2 2 2 1 1) ].

(** A raster of 5 by 4 pixels and three bands in which the pixel (2, 1)
    is masked; the data of a window is a number made from its origin. *)
Definition reef : Extractor.raster Z :=
  Extractor.mkRaster 5 4 3 utm "EPSG:32750"
    (fun i j => if (i =? 2) && (j =? 1) then 0 else 255)
    (fun w => col_off w + 10 * row_off w + 1).


Definition three_embeddings : list (list R) :=
  [ [3; 1]%R; [0; 5]%R; [1; 1]%R ].


Definition norm32 : vec -> fnum := ranged_norm (/ IZR (2 ^ 150))%R (IZR (2 ^ 128)).



(** A model in single precision whose output for the tensor [1] is
    [(1e-30, 0)]: the norm of that output is not zero, and its square is
    below the range. *)
Definition dim : R := (/ IZR (10 ^ 30))%R.

Definition dim_clip : Embedder.clip Z Z :=
  Embedder.mkClip (fun p => Some p) 0 (fun t => [Fin (IZR t * dim)%R; Fin 0%R]) norm32.

(** A raster of 8 by 4 pixels and three bands without masked pixels. *)
Definition strip : Extractor.raster Z :=
  Extractor.mkRaster 8 4 3 utm "EPSG:32750" (fun _ _ => 255)
    (fun w => col_off w + 10 * row_off w + 1).

(** The metadata of its tiles of size 4 taken with an overlap of 2. *)
Definition strip_metas : list tile_meta :=
  [ meta_at 0 0 4 0 0; meta_at 2 0 4 0 1; meta_at 4 0 4 0 2 ].

Definition strip_results : list Classifier.result_entry :=
  [ Classifier.mkResult 0 "reef.tif" 0 0 4 4 0 0 "sand" (Fin 0.5%R);
    Classifier.mkResult 1 "reef.tif" 2 0 4 4 0 1 "sand" (Fin 0.5%R);
    Classifier.mkResult 2 "reef.tif" 4 0 4 4 0 2 "rock" (Fin 0.5%R) ].

(** The three embeddings of the toy case, in two dimensions. *)
Definition toy : list (list R) := [ [1; 0]%R; [0; 1]%R; [1; 1]%R ].

Definition toy_table : list Prototype.row :=
  map (fun e => ("seagrass", fin_vec e)) toy.

(** A table of embeddings with one class, whose name starts with
    ["query;"], and a unit vector as its only embedding. *)
Definition query_table : list Prototype.row :=
  [ ("query;x", [Fin 1%R; Fin 0%R]) ].

(** The externals of the colouring, with a stand-in for [colorsys]. *)
Definition ext : Grid.externals :=
  Grid.mkExternals (Some (fun h s v => (h, s, v))) (fun _ => Ok 0) (fun s => s)
                   (fun x => x).

(** Two runs that discover the same two classes in different orders. *)
Definition result_of (i : nat) (c : string) : Classifier.result_entry :=
  Classifier.mkResult i "reef.tif" 0 0 2 2 0 0 c (Fin 0.5%R).

Definition run_a : list Classifier.result_entry :=
  [ result_of 0 "vegetation;seagrass;dense"; result_of 1 "substrate;sand;fine";
    result_of 2 "vegetation;seagrass;dense" ].

Definition run_b : list Classifier.result_entry :=
  [ result_of 0 "substrate;sand;fine"; result_of 1 "vegetation;seagrass;dense" ].

Definition three_metas : list tile_meta :=
  [ meta_at 0 0 2 0 0; meta_at 0 2 2 1 0; meta_at 2 2 2 1 1 ].

End Samples.

(* ================================================================== *)
(** * The candidates of the scan *)

Module Candidates.

Import Extractor.

Local Open Scope Z_scope.

Section WithPixels.

Variable pixels : Type.

(** The three tests of the inner loop on the candidate window at
    [(x, y)], in their order: the window has the full size, no pixel of
    it is masked, the image read from it has three bands and the size of
    a tile. *)
Definition passes (src : raster pixels) (tile_size x y : Z) : bool :=
  let tile_width := Z.min tile_size (width src - x) in
  let tile_height := Z.min tile_size (height src - y) in
  let window := mkWindow x y tile_width tile_height in
  let '(h, w, c) := rgb_shape src window in
  negb ((tile_width <? tile_size) || (tile_height <? tile_size))
  && negb (any_masked src window)
  && negb (negb (c =? 3) || negb (h =? tile_size) || negb (w =? tile_size)).

(** The tile that the loop appends for the candidate at [(x, y)], the
    counters being [row] and [col]. *)
Definition tile_at (src : raster pixels) (geotiff_path : string) (tile_size x y row col : Z)
    : pixels * tile_meta :=
  let tile_width := Z.min tile_size (width src - x) in
  let tile_height := Z.min tile_size (height src - y) in
  let window := mkWindow x y tile_width tile_height in
  (read_rgb src window,
   mkMeta x y tile_width tile_height row col window
          (window_transform (src_transform src) window)
          (src_crs src) geotiff_path).

(** The pixel position of a tile. *)
Definition position (m : tile_meta) : Z * Z := (tile_x m, tile_y m).

(** The order of the scan on the counters: row by row, and inside a row
    column by column. *)
Definition scan_lt (a b : tile_meta) : Prop :=
  row a < row b \/ (row a = row b /\ col a < col b).

End WithPixels.

End Candidates.

(* ================================================================== *)
(** * Prototypes stored at a scale *)

Module Scaled.

Import Float.

(** A prototype of real numbers kept with a factor: the class, the
    vector and the factor. *)
Definition scaled_prototype : Type := (string * list R * R)%type.

(** The prototype as it is without the factor, and as it is stored when
    every component is multiplied by the factor. *)
Definition plain_vector (q : scaled_prototype) : string * vec :=
  (fst (fst q), fin_vec (snd (fst q))).

Definition stored_vector (q : scaled_prototype) : string * vec :=
  (fst (fst q), fin_vec (map (Rmult (snd q)) (snd (fst q)))).

End Scaled.

(* ================================================================== *)
(** * The files of a directory of prototypes *)

Module Directory.

Import Float.

(** The file [f] of the directory is read as the array [v]. *)
Definition loads (entries : list (string * option vec)) (f : string) (v : vec) : Prop :=
  Py.dict_get entries f = Some (Some v).

(** The file [f] is one of the query files of the directory. *)
Definition query_file (entries : list (string * option vec)) (f : string) : Prop :=
  In f (map fst entries) /\ Classifier.is_query_file f = true.

End Directory.
(* ================================================================== *)
(** * The cells of a shapefile *)

Module Cells.

Import Grid.

(** The position and the colour that a cell records. *)
Definition cell_position (c : cell) : Z * Z :=
  (a_tile_x (attrs c), a_tile_y (attrs c)).

Definition cell_color (c : cell) : rgb :=
  (a_red (attrs c), a_green (attrs c), a_blue (attrs c)).

Definition cell_tile_id (c : cell) : nat := a_tile_id (attrs c).

(** The corners of the rectangle of [w] by [h] pixels at the pixel
    [(x, y)] of a raster with the transform [t], in the order of the
    polygons of the program: top left, top right, bottom right, bottom
    left. *)
Definition footprint (t : Affine) (x y w h : Z) : list (R * R) :=
  [ affine_apply t (IZR x) (IZR y);
    affine_apply t (IZR (x + w)) (IZR y);
    affine_apply t (IZR (x + w)) (IZR (y + h));
    affine_apply t (IZR x) (IZR (y + h)) ].

(** The metadata [m] carries the transform of its own window in a raster
    with the transform [t], as the extractor writes it. *)
Definition written_for (t : Affine) (m : tile_meta) : Prop :=
  transform m = window_transform t (window m).

(** The window of [m] starts at the position of the tile, as the
    extractor writes it. *)
Definition window_at_tile (m : tile_meta) : Prop :=
  col_off (window m) = tile_x m /\ row_off (window m) = tile_y m.

(** The text of a class before its first [';']. *)
Definition first_segment (class_name : string) : string :=
  Py.split_first ";" class_name.

(** One step of the loop that fills the table of colours from a colour
    map: the class [c] gets the colour that the map has under [key c],
    and grey when the map has nothing or an empty text there. *)
Definition table_step (ext : externals) (cm : list (string * string))
    (key : string -> string) (acc : result (list (string * rgb))) (c : string)
    : result (list (string * rgb)) :=
  class_to_color <- acc ;;
  match Py.dict_get cm (key c) with
  | Some (String _ _ as hexval) =>
      v <- hex_to_rgb ext hexval ;;
      Ok (Py.dict_set class_to_color c v)
  | _ => Ok (Py.dict_set class_to_color c grey)
  end.

End Cells.

(* ================================================================== *)
(** * The shapefile of single tiles: [_create_detailed_shapefile] *)

Module Detailed.

Import Float Classifier Grid.

Local Open Scope string_scope.

(** The colours of the classes.  [strip] stands for [str.strip]; an
    absent or empty [color_map] selects the generated colours. *)
Definition detailed_colors (strip : string -> string) (ext : externals)
    (color_map : option (list (string * string)))
    (unique_classes : list string) : result (list (string * rgb)) :=
  match color_map with
  | Some ((_ :: _) as cm) =>
      fold_left
        (fun acc c =>
           class_to_color <- acc ;;
           match Py.dict_get cm (strip c) with
           | Some (String _ _ as hexval) =>
               v <- hex_to_rgb ext hexval ;;
               Ok (Py.dict_set class_to_color c v)
           | _ => Ok (Py.dict_set class_to_color c grey)
           end)
        unique_classes (Ok [])
  | _ => Ok (_generate_class_colors ext unique_classes)
  end.

(** The polygon and the attributes of the tile of one result. *)
Definition make_polygon (ext : externals) (class_to_color : list (string * rgb))
    (res : result_entry) (metadata : tile_meta) : cell :=
  let x_min := tile_x metadata in
  let y_min := tile_y metadata in
  let x_max := (x_min + tile_width metadata)%Z in
  let y_max := (y_min + tile_height metadata)%Z in
  let transform := transform metadata in
  let p1 := affine_apply transform (IZR x_min) (IZR y_min) in
  let p2 := affine_apply transform (IZR x_max) (IZR y_min) in
  let p3 := affine_apply transform (IZR x_max) (IZR y_max) in
  let p4 := affine_apply transform (IZR x_min) (IZR y_max) in
  let class_name := best_class res in
  let rgb_color :=
    match Py.dict_get class_to_color class_name with
    | Some c => c
    | None => grey
    end in
  let '(red, green, blue) := rgb_color in
  mkCell [p1; p2; p3; p4]
    (mkAttributes (tile_id res) (best_class res)
       (round4 ext (query_similarity res))
       x_min y_min (tile_width metadata) (tile_height metadata)
       (source_file metadata) red green blue).

(** What the function writes: the classes, their colours and the
    polygons. *)
Record detailed_shapefile : Type := mkDetailed {
  d_unique_classes : list string;
  d_class_to_color : list (string * rgb);
  d_cells : list cell
}.

(** [_create_detailed_shapefile]: a polygon for every result whose
    [tile_id] is below the number of tiles, in the order of the
    results. *)
Definition _create_detailed_shapefile (strip : string -> string) (ext : externals)
    (results : list result_entry) (tile_metadata : list tile_meta)
    (color_map : option (list (string * string))) : result detailed_shapefile :=
  let unique_classes := unique_classes_of results in
  class_to_color <- detailed_colors strip ext color_map unique_classes ;;
  let cells :=
    flat_map (fun res =>
                match nth_error tile_metadata (tile_id res) with
                | Some metadata => [make_polygon ext class_to_color res metadata]
                | None => []
                end)
             results in
  Ok (mkDetailed unique_classes class_to_color cells).

End Detailed.

(* ================================================================== *)
(** * The GeoJSON of single tiles: [create_geojson_from_results] *)

Module Geojson.

Import Float Classifier Grid.

(** How a call ends: the features before their reprojection, the return
    without output when an import fails, or the [KeyError] of a class
    without a colour. *)
Inductive outcome : Type :=
| Features (cells : list cell)
| NoOutput
| KeyError (class_name : string).

(** The feature of one result: the colour is [class_to_color[class_name]]. *)
Definition make_feature (ext : externals) (class_to_color : list (string * rgb))
    (res : result_entry) (metadata : tile_meta) : option cell :=
  let x_min := tile_x metadata in
  let y_min := tile_y metadata in
  let x_max := (x_min + tile_width metadata)%Z in
  let y_max := (y_min + tile_height metadata)%Z in
  let transform := transform metadata in
  let p1 := affine_apply transform (IZR x_min) (IZR y_min) in
  let p2 := affine_apply transform (IZR x_max) (IZR y_min) in
  let p3 := affine_apply transform (IZR x_max) (IZR y_max) in
  let p4 := affine_apply transform (IZR x_min) (IZR y_max) in
  let class_name := best_class res in
  match Py.dict_get class_to_color class_name with
  | None => None
  | Some (red, green, blue) =>
      Some (mkCell [p1; p2; p3; p4]
              (mkAttributes (tile_id res) (best_class res)
                 (round4 ext (query_similarity res))
                 x_min y_min (tile_width metadata) (tile_height metadata)
                 (source_file metadata) red green blue))
  end.

(** The loop over the results. *)
Fixpoint features (ext : externals) (class_to_color : list (string * rgb))
    (tile_metadata : list tile_meta) (results : list result_entry) : outcome :=
  match results with
  | [] => Features []
  | res :: results' =>
      match nth_error tile_metadata (tile_id res) with
      | Some metadata =>
          match make_feature ext class_to_color res metadata with
          | Some c =>
              match features ext class_to_color tile_metadata results' with
              | Features cells => Features (c :: cells)
              | other => other
              end
          | None => KeyError (best_class res)
          end
      | None => features ext class_to_color tile_metadata results'
      end
  end.

(** [create_geojson_from_results]: [colorsys] is imported with the other
    modules, and the function returns when the import fails. *)
Definition create_geojson_from_results (ext : externals)
    (results : list result_entry) (tile_metadata : list tile_meta) : outcome :=
  match hsv_to_rgb ext with
  | None => NoOutput
  | Some hsv =>
      let unique_classes := unique_classes_of results in
      let class_colors := generate_color_palette hsv (List.length unique_classes) in
      let class_to_color := Py.dict_zip unique_classes class_colors in
      features ext class_to_color tile_metadata results
  end.

End Geojson.

(* ================================================================== *)
(** * The colour map: [load_color_map] *)

Module ColorMap.

Import Grid.

(** [load_color_map].  [rows] holds the columns [habitat_name] and
    [cat_color] of the rows of the file, and is [None] when no file is
    given or the file does not exist; the function then returns
    [None]. *)
Definition load_color_map (strip : string -> string) (ext : externals)
    (rows : option (list (string * string))) : option (list (string * string)) :=
  match rows with
  | Some rows =>
      Some (fold_left
              (fun color_map row =>
                 Py.dict_set color_map (lower ext (strip (fst row))) (strip (snd row)))
              rows [])
  | None => None
  end.

End ColorMap.

(* ================================================================== *)
(** * The run: [run_process] *)

Module Pipeline.

Import Float.

Local Open Scope string_scope.

(** The loading of the reference embeddings.  [content] is the table
    that [pd.read_pickle] reads, with its columns [class_name] and
    [image_embedding], and is [None] when the file cannot be read as
    such a table; whatever is raised becomes a [ValueError]. *)
Definition load_embeddings (content : option (list Prototype.row))
    : result (matrix * list string) :=
  match content with
  | None => Raise (ValueError "Error loading embeddings")
  | Some df_embeddings =>
      match Prototype.np_stack (map snd df_embeddings) with
      | Ok reference_embeddings => Ok (reference_embeddings, map fst df_embeddings)
      | Raise _ => Raise (ValueError "Error loading embeddings")
      end
  end.

(** What [create_shapefile_from_results] writes: nothing when
    [geopandas] or [shapely] cannot be imported, the grid, or the
    polygons of the single tiles. *)
Inductive written_shapefile : Type :=
| NotWritten
| WrittenGrid (grid : option Grid.shapefile)
| WrittenDetailed (polygons : Detailed.detailed_shapefile).

(** [create_shapefile_from_results] *)
Definition create_shapefile_from_results (geopandas : bool)
    (strip : string -> string) (ext : Grid.externals)
    (results : list Classifier.result_entry) (tile_metadata : list tile_meta)
    (use_grid : bool) (color_map : option (list (string * string)))
    : result written_shapefile :=
  if negb geopandas then Ok NotWritten
  else if use_grid then
    grid <- Grid._create_grid_shapefile ext results tile_metadata color_map ;;
    Ok (WrittenGrid grid)
  else
    polygons <- Detailed._create_detailed_shapefile strip ext results tile_metadata
                  color_map ;;
    Ok (WrittenDetailed polygons).

(** What a run leaves: the results written to the CSV file, the
    shapefile and the features of the GeoJSON file, each of the two when
    it is asked for and written. *)
Record run_output : Type := mkRun {
  run_results : list Classifier.result_entry;
  run_shapefile : written_shapefile;
  run_geojson : option (list Grid.cell)
}.

Section WithModel.

Variables pixels tensor : Type.

(** [run_process].  A path that does not exist is [None]: the raster
    behind [geotiff_path], what [query_vector_path] is, the content of
    [embeddings_file], and the rows of [color_csv] (also [None] when no
    colour file is given).  [model] is what [clip.load] returns;
    [proto_norm] and [tile_norm] are the norms that the classification
    takes of a prototype and of a tile embedding. *)
Definition run_process (geotiff : option (Extractor.raster pixels))
    (geotiff_path : string)
    (query_vector_path : option Classifier.query_path)
    (embeddings_file : option (option (list Prototype.row)))
    (model : Embedder.clip pixels tensor)
    (proto_norm tile_norm : vec -> fnum)
    (tile_size overlap batch_size : Z)
    (create_shapefile create_geojson use_grid : bool)
    (geopandas : bool) (strip : string -> string) (ext : Grid.externals)
    (color_csv : option (list (string * string)))
    : result run_output :=
  let color_map := ColorMap.load_color_map strip ext color_csv in
  match geotiff with
  | None => Raise (ValueError "GeoTIFF file not found")
  | Some src =>
  match query_vector_path with
  | None => Raise (ValueError "Query vector file not found")
  | Some query_vector_path =>
  match embeddings_file with
  | None => Raise (ValueError "Embeddings file not found")
  | Some content =>
      query_vectors <- Classifier.load_query_vectors query_vector_path ;;
      reference <- load_embeddings content ;;
      tiles <- Extractor.extract_geotiff_tiles src geotiff_path tile_size overlap ;;
      match tiles with
      | [] => Raise (ValueError "No tiles extracted!")
      | _ :: _ =>
          embedded <- Embedder.process_tiles_in_batches tiles model batch_size ;;
          let (tile_embeddings, tile_metadata) := embedded in
          results <- Classifier.classify proto_norm tile_norm query_vectors
                       tile_embeddings tile_metadata ;;
          shapefile <-
            (if create_shapefile then
               create_shapefile_from_results geopandas strip ext results
                 tile_metadata use_grid color_map
             else Ok NotWritten) ;;
          geojson <-
            (if create_geojson then
               if geopandas then
                 match Geojson.create_geojson_from_results ext results tile_metadata with
                 | Geojson.Features cells => Ok (Some cells)
                 | Geojson.NoOutput => Ok None
                 | Geojson.KeyError class_name => Raise (KeyError class_name)
                 end
               else Ok None
             else Ok None) ;;
          Ok (mkRun results shapefile geojson)
      end
  end end end.

End WithModel.

End Pipeline.

(* ================================================================== *)
(** * Sample inputs for the colour maps *)

Module ColorSamples.

Import Float.

Local Open Scope string_scope.

(** [str.lower] on the letters A to Z. *)
Definition lower_char (c : ascii) : ascii :=
  let n := nat_of_ascii c in
  if (Nat.leb 65 n && Nat.leb n 90)%bool then ascii_of_nat (n + 32) else c.

Fixpoint ascii_lower (s : string) : string :=
  match s with
  | EmptyString => EmptyString
  | String c s' => String (lower_char c) (ascii_lower s')
  end.

(** Externals without [colorsys], with the lower-casing of letters. *)
Definition lower_ext : Grid.externals :=
  Grid.mkExternals None (fun _ => Ok 255%Z) ascii_lower (fun x => x).

(** A colour file of one row, and a run that finds the class of that
    row on a tile. *)
Definition rows : list (string * string) := [ ("Sand", "#ffffff") ].

Definition run : list Classifier.result_entry :=
  [ Samples.result_of 0 "Sand"; Samples.result_of 1 "rock" ].

(** A colour map whose only name has a blank. *)
Definition blank_map : list (string * string) := [ ("coral reef", "#ffffff") ].

Definition reef_run : list Classifier.result_entry :=
  [ Samples.result_of 0 "coral reef"; Samples.result_of 1 "rock" ].

End ColorSamples.

(* ================================================================== *)
(** * Closest vectors: [find_closest_vectors] of [utils.py] *)

Module Utils.

Import Float Classifier.

(** [a[s:]] for any integer [s]: a negative [s] counts from the end. *)
Definition slice_from {A : Type} (a : list A) (s : Z) : list A :=
  let n := Py.len a in
  let start := if (s <? 0)%Z then Z.max 0 (n + s) else Z.min s n in
  skipn (Z.to_nat start) a.

(** An entry of the matches of a query, and the result of a query. *)
Record match_entry : Type := mkMatch {
  m_rank : nat;
  m_class_name : string;
  m_similarity : fnum;
  m_reference_idx : nat
}.

Record query_result : Type := mkQuery {
  query_id : nat;
  matches : list match_entry
}.

(** What [np.argsort] has to return on a row: the indices of the row,
    each once, in an order in which the entries of the row ascend ([NaN]
    last).  The order of equal entries is left open, as it is by
    [np.argsort]. *)
Definition argsort_of (row : list fnum) (idx : list nat) : Prop :=
  Permutation idx (seq 0 (List.length row))
  /\ StronglySorted (fun i j => tle (nth i row NaN) (nth j row NaN) = true) idx.

(** An [argsort] that keeps equal entries in their order. *)
Definition stable_argsort (row : list fnum) : list nat :=
  Py.sorted_by (fun i j => tle (nth i row NaN) (nth j row NaN))
               (seq 0 (List.length row)).

Section WithNumpy.

(** [np.argsort] and [sklearn]'s [cosine_similarity]. *)
Variable argsort : list fnum -> list nat.
Variable cosine_similarity : matrix -> matrix -> result matrix.

(** [np.argsort(query_similarities)[-top_k:][::-1]] *)
Definition top_indices (top_k : Z) (query_similarities : list fnum) : list nat :=
  rev (slice_from (argsort query_similarities) (- top_k)).

(** The matches of one query.  An index of [top_indices] is an index of
    the row, so that [query_similarities[idx]] is an entry of the row;
    [reference_labels[idx]] raises when the labels are too few. *)
Definition query_matches (reference_labels : list string) (top_k : Z)
    (query_similarities : list fnum) : result (list match_entry) :=
  let top := top_indices top_k query_similarities in
  mapM (fun p =>
          class_name <- getitem reference_labels (snd p) ;;
          Ok (mkMatch (fst p + 1) class_name
                      (nth (snd p) query_similarities NaN) (snd p)))
       (combine (seq 0 (List.length top)) top).

Definition find_closest_vectors (query_embeddings reference_embeddings : matrix)
    (reference_labels : list string) (top_k : Z) : result (list query_result) :=
  similarities <- cosine_similarity query_embeddings reference_embeddings ;;
  mapM (fun p =>
          matches <- query_matches reference_labels top_k (snd p) ;;
          Ok (mkQuery (fst p) matches))
       (combine (seq 0 (List.length similarities)) similarities).

End WithNumpy.

(** The matches [ms] are the [k] best references of the row: they are
    [k] references, or all of them when there are fewer, ranked from 1
    on, each with its own similarity and label; their similarities
    descend, and no reference left out is more similar than one of
    them. *)
Definition best_matches (reference_labels : list string) (k : nat)
    (row : list fnum) (ms : list match_entry) : Prop :=
  List.length ms = Nat.min k (List.length row)
  /\ map m_rank ms = seq 1 (List.length ms)
  /\ NoDup (map m_reference_idx ms)
  /\ (forall m, In m ms ->
        nth_error row (m_reference_idx m) = Some (m_similarity m)
        /\ nth_error reference_labels (m_reference_idx m) = Some (m_class_name m))
  /\ StronglySorted (fun x y => tle y x = true) (map m_similarity ms)
  /\ (forall j m, (j < List.length row)%nat -> ~ In j (map m_reference_idx ms) ->
                  In m ms -> tle (nth j row NaN) (m_similarity m) = true).

(** A row of similarities and the labels of its references. *)
Definition sample_row : list fnum := [Fin 0.2%R; Fin 0.9%R; Fin 0.5%R].

Definition sample_labels : list string := ["sand"; "rock"; "kelp"]%string.

End Utils.

(* ================================================================== *)
(** * Crops of labelled images: [yolotoclip.py] *)

Module Yolo.

Import Float.

Local Open Scope Z_scope.

(** [l[i]] for any integer [i]: a negative [i] counts from the end. *)
Definition py_getitem {A : Type} (l : list A) (i : Z) : result A :=
  let n := Py.len l in
  let j := if i <? 0 then i + n else i in
  if (j <? 0) || (n <=? j) then Raise IndexError
  else match nth_error l (Z.to_nat j) with
       | Some a => Ok a
       | None => Raise IndexError
       end.

(** [max(0, v)] and [min(W, v)] for an integer first argument and a
    float [v]: the second argument is returned when it is strictly
    beyond the first. *)
Definition max0 (v : R) : R := if Rlt_dec 0 v then v else 0%R.

Definition min_with (W : Z) (v : R) : R := if Rlt_dec v (IZR W) then v else IZR W.

(** The box of a label in pixels: the corners of the normalised box
    [(x_center, y_center, w, h)], clipped to the image of [W] by [H]
    pixels and truncated. *)
Definition pixel_box (W H : Z) (x_center y_center w h : R) : Z * Z * Z * Z :=
  let x_center := (x_center * IZR W)%R in
  let y_center := (y_center * IZR H)%R in
  let w := (w * IZR W)%R in
  let h := (h * IZR H)%R in
  let x1 := Grid.py_int (max0 (x_center - w / 2)) in
  let y1 := Grid.py_int (max0 (y_center - h / 2)) in
  let x2 := Grid.py_int (min_with W (x_center + w / 2)) in
  let y2 := Grid.py_int (min_with H (y_center + h / 2)) in
  (x1, y1, x2, y2).

(** The metadata of a crop. *)
Record crop_meta : Type := mkCropMeta {
  image : string;
  object_id : nat;
  class_id : Z;
  class_name : string;
  bbox : Z * Z * Z * Z
}.

(** A line of a label file after [line.strip().split()] and the
    conversions [int(parts[0])] and [map(float, parts[1:])]: [None] is a
    blank line.  The numbers are finite; a line whose fields do not
    convert makes the program raise and is not among the inputs here. *)
Definition label_line : Type := option (Z * list R).

(** A record of the output. *)
Record record : Type := mkRecord {
  rec_meta : crop_meta;
  image_embedding : vec;
  text_embedding : vec
}.

Section WithImages.

(** An opened image with its size, and the pixels of a crop. *)
Variables picture pixels : Type.
Variable size : picture -> Z * Z.
Variable crop : picture -> Z * Z * Z * Z -> pixels.

(** A label file: the path and the content of its image (of the same
    stem, [.jpg] before [.png]), if there is one, and its lines. *)
Record label_file : Type := mkLabelFile {
  lf_image : option (string * picture);
  lf_lines : list label_line
}.

(** The body of the loop over the lines of a label file: the crop and
    the metadata that the line [i] adds, if any. *)
Definition read_line (class_prompts : list string) (image_path : string)
    (full_image : picture) (i : nat) (line : label_line)
    : result (list (pixels * crop_meta)) :=
  let (W, H) := size full_image in
  match line with
  | None => Ok []
  | Some (class_id, numbers) =>
      if Py.len class_prompts <=? class_id then Ok []
      else
        class_name <- py_getitem class_prompts class_id ;;
        match numbers with
        | [x_center; y_center; w; h] =>
            let '(x1, y1, x2, y2) := pixel_box W H x_center y_center w h in
            if (x2 <=? x1) || (y2 <=? y1) then Ok []
            else
              Ok [(crop full_image (x1, y1, x2, y2),
                   mkCropMeta image_path i class_id class_name (x1, y1, x2, y2))]
        | _ => Raise (ValueError "wrong number of values to unpack")
        end
  end.

(** The body of the loop over the label files. *)
Definition read_file (class_prompts : list string) (f : label_file)
    : result (list (pixels * crop_meta)) :=
  match lf_image f with
  | None => Ok []
  | Some (image_path, full_image) =>
      found <- mapM (fun p => read_line class_prompts image_path full_image
                                        (fst p) (snd p))
                    (combine (seq 0 (List.length (lf_lines f))) (lf_lines f)) ;;
      Ok (List.concat found)
  end.

(** [collect_crops_and_metadata]: the crops and their metadata, appended
    together. *)
Definition collect_crops_and_metadata (label_files : list label_file)
    (class_prompts : list string) : result (list pixels * list crop_meta) :=
  found <- mapM (read_file class_prompts) label_files ;;
  let all := List.concat found in
  Ok (map fst all, map snd all).

Section WithModel.

Variable tensor : Type.
Variable model : Embedder.clip pixels tensor.

(** The record of one crop, wherever the crop lands in a batch. *)
Definition record_of (text_features : matrix) (c : pixels) (meta : crop_meta)
    : result record :=
  text <- py_getitem text_features (class_id meta) ;;
  Ok (mkRecord meta
        (normalize_by (Embedder.features_norm model)
           (Embedder.encode_image model (Embedder.preprocess_tile model c)))
        text).

(** The body of the loop over the batches. *)
Definition process_crop_batch (crops : list pixels) (metadata : list crop_meta)
    (text_features : matrix) (batch_size : Z)
    (acc : result (list record)) (i : Z) : result (list record) :=
  records <- acc ;;
  let batch_crops := Py.slice crops i (i + batch_size) in
  let batch_metadata := Py.slice metadata i (i + batch_size) in
  let batch_tensors := map (Embedder.preprocess_tile model) batch_crops in
  match batch_tensors with
  | [] => Raise (RuntimeError "stack expects a non-empty TensorList")
  | _ :: _ =>
      let batch_features := Embedder.encode_batch model batch_tensors in
      let batch_features :=
        normalize_rows_by (Embedder.features_norm model) batch_features in
      new <- mapM (fun p =>
                     text <- py_getitem text_features (class_id (snd p)) ;;
                     Ok (mkRecord (snd p) (fst p) text))
                  (combine batch_features batch_metadata) ;;
      Ok (records ++ new)
  end.

(** [process_crops_in_batches] *)
Definition process_crops_in_batches (crops : list pixels) (metadata : list crop_meta)
    (text_features : matrix) (batch_size : Z) : result (list record) :=
  total_batches <- Py.floordiv (Py.len crops + batch_size - 1) batch_size ;;
  starts <- Py.range 0 (Py.len crops) batch_size ;;
  fold_left (process_crop_batch crops metadata text_features batch_size) starts (Ok []).

End WithModel.

End WithImages.

(** A picture is its size; a crop is the left edge of its box. *)
Definition sample_size (p : Z * Z) : Z * Z := p.

Definition sample_crop (p : Z * Z) (box : Z * Z * Z * Z) : Z := fst (fst (fst box)).

Definition sample_files : list (label_file (Z * Z)) :=
  [ mkLabelFile (Some ("a.jpg"%string, (100, 50)))
      [ Some (0, [0.5; 0.5; 0.2; 0.4]%R); None; Some (-1, [0.95; 0.5; 0.2; 1]%R) ];
    mkLabelFile None [ Some (0, [0.5; 0.5; 0.2; 0.4]%R) ] ].

Definition sample_prompts : list string := ["sand"; "rock"]%string.

(** The text features of the two prompts. *)
Definition sample_text_features : matrix :=
  [ [Fin 1%R; Fin 0%R]; [Fin 0%R; Fin 1%R] ].

End Yolo.

(* ================================================================== *)
(** * When the prototype builder returns *)

Module Builder.

Import Float.

Local Open Scope string_scope.

(** The three methods of aggregation. *)
Definition known_method (method : string) : bool :=
  (String.eqb method "mean" || String.eqb method "median"
   || String.eqb method "centroid")%bool.

(** The arrays have one shape (there may be none). *)
Definition one_shape (arrays : list vec) : bool :=
  match arrays with
  | [] => true
  | a :: rest => forallb (fun b => Nat.eqb (List.length b) (List.length a)) rest
  end.

(** A table with one class and an embedding that is not a number, and
    the metadata of its tile. *)
Definition undefined_embeddings : matrix := [ [NaN; NaN] ].

Definition two_classes : list (string * vec) :=
  [ ("sand", [Fin 1%R; Fin 0%R]); ("rock", [Fin 0%R; Fin 1%R]) ].

End Builder.


(* ================================================================== *)
(** * Part II: properties *)

Unset Implicit Arguments.

(** * Facts on floating point values *)

Module FloatFacts.

Import Float.

Local Open Scope R_scope.

(** Decide the comparisons of real numbers met in a goal. *)
Ltac rdec :=
  repeat match goal with
  | |- context [Req_dec_T ?a ?b] => destruct (Req_dec_T a b); try lra
  | |- context [Rlt_dec ?a ?b] => destruct (Rlt_dec a b); try lra
  | |- context [Rle_dec ?a ?b] => destruct (Rle_dec a b); try lra
  | H : context [Req_dec_T ?a ?b] |- _ => destruct (Req_dec_T a b); try lra
  | H : context [Rlt_dec ?a ?b] |- _ => destruct (Rlt_dec a b); try lra
  end.

Lemma fold_fadd_fin (l : list R) (a : R) :
  fold_left fadd (map Fin l) (Fin a) = Fin (a + Rsum l).
Proof.
  revert a; induction l as [|x l IH]; intros a; simpl.
  - f_equal; lra.
  - rewrite IH. f_equal; lra.
Qed.

Lemma fsum_fin (l : list R) : fsum (map Fin l) = Fin (Rsum l).
Proof. unfold fsum. rewrite fold_fadd_fin. f_equal; lra. Qed.

Lemma dot_fin (u v : list R) : dot (fin_vec u) (fin_vec v) = Fin (Rdot u v).
Proof.
  unfold dot, Rdot, fin_vec. rewrite <- fsum_fin. f_equal.
  revert v; induction u as [|a u IH]; intros [|b v]; simpl; try reflexivity.
  now rewrite IH.
Qed.

Lemma Rsumsq_nonneg (v : list R) : 0 <= Rsumsq v.
Proof.
  unfold Rsumsq. induction v as [|x v IH]; simpl; [lra | nra].
Qed.

Lemma Rnorm_nonneg (v : list R) : 0 <= Rnorm v.
Proof. apply sqrt_pos. Qed.

Lemma norm_fin (v : list R) : norm (fin_vec v) = Fin (Rnorm v).
Proof.
  unfold norm, fin_vec. rewrite map_map.
  change (map (fun x => fmul (Fin x) (Fin x)) v)
    with (map (fun x => Fin (x * x)) v).
  rewrite <- (map_map (fun x => x * x) Fin), fsum_fin.
  fold (Rsumsq v). unfold fsqrt.
  pose proof (Rsumsq_nonneg v). rdec. reflexivity.
Qed.


(** A vector divided by its non-zero norm has norm one. *)
Lemma Rsumsq_scale (v : list R) (n : R) :
  n <> 0 -> Rsumsq (map (fun x => x / n) v) = Rsumsq v / (n * n).
Proof.
  intros Hn. unfold Rsumsq. induction v as [|x v IH]; simpl.
  - field; assumption.
  - rewrite IH. field; assumption.
Qed.

Lemma Rnorm_normalized (v : list R) :
  Rnorm v <> 0 -> Rnorm (Rnormalize v) = 1.
Proof.
  intros Hn. unfold Rnormalize, Rnorm at 1. rewrite Rsumsq_scale by assumption.
  unfold Rnorm. rewrite sqrt_sqrt by apply Rsumsq_nonneg.
  replace (Rsumsq v / Rsumsq v) with 1.
  - apply sqrt_1.
  - field. intros H0. apply Hn. unfold Rnorm. rewrite H0. apply sqrt_0.
Qed.




(** ** A zero norm *)

Lemma fmul_self_fin (x : fnum) (r : R) :
  fmul x x = Fin r -> exists x', x = Fin x' /\ r = x' * x'.
Proof.
  destruct x; simpl; try discriminate.
  intros H; injection H as <-. eauto.
Qed.

Lemma fold_fadd_is_fin (l : list fnum) (a : fnum) (s : R) :
  fold_left fadd l a = Fin s ->
  exists a' rs, a = Fin a' /\ l = map Fin rs /\ s = a' + Rsum rs.
Proof.
  revert a; induction l as [|x l IH]; intros a; simpl.
  - intros ->. exists s, []. simpl. repeat split. lra.
  - intros H. destruct (IH _ H) as (a' & rs & Ha & Hl & Hs).
    destruct a as [ra| | |], x as [rx| | |]; simpl in Ha; try discriminate.
    injection Ha as <-. exists ra, (rx :: rs). simpl. subst l.
    repeat split. lra.
Qed.

Lemma Rsumsq_zero (v : list R) : Rsumsq v = 0 -> Forall (fun x => x = 0) v.
Proof.
  unfold Rsumsq. induction v as [|x v IH]; simpl; intros H.
  - constructor.
  - pose proof (Rsumsq_nonneg v) as Hv. unfold Rsumsq in Hv.
    constructor; [nra | apply IH; nra].
Qed.

(** The norm of a vector is zero only if every component is zero. *)
Lemma norm_zero (v : vec) : norm v = Fin 0 -> Forall (fun x => x = Fin 0) v.
Proof.
  unfold norm, fsqrt. intros H.
  destruct (fsum (map (fun x => fmul x x) v)) as [s| | |] eqn:E; try discriminate.
  destruct (Rlt_dec s 0); try discriminate.
  injection H as H. apply sqrt_eq_0 in H; [|lra]. subst s.
  unfold fsum in E. apply fold_fadd_is_fin in E.
  destruct E as (a' & rs & Ha & Hl & Hs). injection Ha as <-.
  assert (Hrs : Rsum rs = 0) by lra. clear Hs.
  revert rs Hl Hrs. induction v as [|x v IH]; intros rs Hl Hrs.
  - constructor.
  - destruct rs as [|r rs]; simpl in Hl; [discriminate|].
    injection Hl as Hx Hl.
    apply fmul_self_fin in Hx. destruct Hx as (x' & -> & Hr).
    assert (Hnn : 0 <= Rsum rs).
    { clear IH Hrs. revert rs Hl. induction v as [|y v IHv]; intros [|q rs] Hl;
        simpl in *; try discriminate; try lra.
      injection Hl as Hy Hl. apply fmul_self_fin in Hy.
      destruct Hy as (y' & _ & ->). specialize (IHv _ Hl). nra. }
    simpl in Hrs. constructor.
    + f_equal. nra.
    + apply (IH rs Hl). nra.
Qed.

(** The components of a vector of zeros divided by its norm. *)
Lemma normalize_row_zero (v : vec) :
  norm v = Fin 0 -> Forall (fun x => x = NaN) (normalize_row v).
Proof.
  intros H. pose proof (norm_zero v H) as Hz.
  unfold normalize_row, vscale_div. rewrite H. clear H.
  induction Hz as [|x v Hx Hz IH]; simpl; constructor.
  - subst x. unfold fdiv. rdec. reflexivity.
  - exact IH.
Qed.

(** ** A norm as the library computes it *)

Lemma normalize_by_length (vnorm : vec -> fnum) (v : vec) :
  List.length (normalize_by vnorm v) = List.length v.
Proof. unfold normalize_by, vscale_div. apply length_map. Qed.

(** Where the library returns the norm without error, the division is
    the division by the norm. *)
Lemma normalize_by_fin (vnorm : vec -> fnum) (v : list R) :
  vnorm (fin_vec v) = Fin (Rnorm v) -> Rnorm v <> 0 ->
  normalize_by vnorm (fin_vec v) = fin_vec (Rnormalize v).
Proof.
  intros He Hn. unfold normalize_by, vscale_div, Rnormalize. rewrite He.
  unfold fin_vec. rewrite !map_map. apply map_ext. intros x.
  unfold fdiv. rdec. reflexivity.
Qed.

(** The quotients by a norm that is computed as zero: none is finite,
    and that of a real component is not a number when the component is
    zero and the infinity of its sign otherwise. *)
Lemma fdiv_by_zero (x : fnum) :
  fdiv x (Fin 0) = NaN \/ fdiv x (Fin 0) = PInf \/ fdiv x (Fin 0) = NInf.
Proof.
  destruct x as [r| | |]; cbn; rdec; auto.
Qed.

Lemma normalize_by_zero (vnorm : vec -> fnum) (v : vec) :
  vnorm v = Fin 0 ->
  Forall (fun y => y = NaN \/ y = PInf \/ y = NInf) (normalize_by vnorm v)
  /\ forall j r,
       nth_error v j = Some (Fin r) ->
       nth_error (normalize_by vnorm v) j
       = Some (if Req_dec_T r 0 then NaN else if Rlt_dec 0 r then PInf else NInf).
Proof.
  intros H. unfold normalize_by, vscale_div. rewrite H. split.
  - apply Forall_map. apply Forall_forall. intros x _. apply fdiv_by_zero.
  - intros j r Hj. rewrite nth_error_map, Hj. cbn.
    destruct (Req_dec_T 0 0) as [_|Hne]; [reflexivity | now elim Hne].
Qed.

(** The dot product of two vectors divided by numbers. *)
Lemma Rdot_scale (u v : list R) (a b : R) :
  a <> 0 -> b <> 0 ->
  Rdot (map (fun x => x / a) u) (map (fun x => x / b) v) = Rdot u v / (a * b).
Proof.
  intros Ha Hb. unfold Rdot. revert v.
  induction u as [|x u IH]; intros [|y v]; cbn; try (field; split; assumption).
  rewrite IH. field. split; assumption.
Qed.

(** The dot product of two vectors divided by their norms is the cosine
    of their angle. *)
Lemma Rdot_normalized (u v : list R) :
  Rnorm u <> 0 -> Rnorm v <> 0 ->
  Rdot (Rnormalize u) (Rnormalize v) = Rcosine u v.
Proof.
  intros Hu Hv. unfold Rnormalize, Rcosine. now apply Rdot_scale.
Qed.


(** ** The norm of a format of limited range *)

Lemma in_range_small (tiny huge r : R) :
  Rabs r <= tiny -> in_range tiny huge (Fin r) = Fin 0.
Proof. intros H. cbn. destruct (Rle_dec (Rabs r) tiny); [reflexivity | contradiction]. Qed.

(** A vector of two components of which the square of the first is
    below the range and the second is zero has the norm zero. *)
Lemma ranged_norm_underflow (tiny huge x : R) :
  0 <= tiny -> x * x <= tiny ->
  ranged_norm tiny huge [Fin x; Fin 0] = Fin 0.
Proof.
  intros Ht Hx. unfold ranged_norm. cbn [fold_left fmul fadd].
  assert (Hxx : Rabs (x * x) <= tiny).
  { rewrite Rabs_pos_eq; [exact Hx | nra]. }
  rewrite (in_range_small tiny huge (x * x) Hxx). cbn [fadd].
  assert (H0 : Rabs (0 + 0) <= tiny).
  { replace (0 + 0) with 0 by lra. now rewrite Rabs_R0. }
  rewrite (in_range_small tiny huge (0 + 0) H0).
  assert (H00 : Rabs (0 * 0) <= tiny).
  { replace (0 * 0) with 0 by lra. now rewrite Rabs_R0. }
  rewrite (in_range_small tiny huge (0 * 0) H00). cbn [fadd].
  rewrite (in_range_small tiny huge (0 + 0) H0).
  cbn. destruct (Rlt_dec 0 0); [lra|]. now rewrite sqrt_0.
Qed.

(** The row that the division by such a norm leaves. *)
Lemma normalize_by_underflow (vnorm : vec -> fnum) (x : R) :
  0 < x -> vnorm [Fin x; Fin 0] = Fin 0 ->
  normalize_by vnorm [Fin x; Fin 0] = [PInf; NaN].
Proof.
  intros Hx H. unfold normalize_by, vscale_div. rewrite H. cbn.
  rdec. reflexivity.
Qed.

(** A power of ten below a power of two. *)
Lemma inverse_square_below (a b : Z) :
  (0 < b)%Z -> (b <= a * a)%Z -> / IZR a * / IZR a <= / IZR b.
Proof.
  intros Hb Hab.
  assert (Ha : IZR a <> 0).
  { intros H0. apply eq_IZR in H0. subst a. lia. }
  rewrite <- Rinv_mult, <- mult_IZR.
  apply Rinv_le_contravar; [now apply IZR_lt | now apply IZR_le].
Qed.

(** ** The order of [np.sort], [max] and [argmax] *)

Lemma tle_refl (a : fnum) : tle a a = true.
Proof.
  destruct a; simpl; try reflexivity.
  destruct (Rlt_dec r r); [lra | reflexivity].
Qed.

Lemma tle_trans (a b c : fnum) : tle a b = true -> tle b c = true -> tle a c = true.
Proof.
  destruct a, b, c; simpl; try reflexivity; try discriminate.
  repeat match goal with
         | |- context [Rlt_dec ?x ?y] => destruct (Rlt_dec x y)
         end; simpl; try reflexivity; try discriminate; lra.
Qed.

Lemma tle_total (a b : fnum) : tle a b = false -> tle b a = true.
Proof.
  destruct a, b; simpl; try reflexivity; try discriminate.
  repeat match goal with
         | |- context [Rlt_dec ?x ?y] => destruct (Rlt_dec x y)
         end; simpl; try reflexivity; try discriminate; lra.
Qed.

(** Nothing is strictly above a largest entry. *)
Lemma tle_not_flt (x b : fnum) : tle x b = true -> flt b x = false.
Proof.
  destruct x, b; simpl; try reflexivity; try discriminate.
  destruct (Rlt_dec r0 r); [discriminate | reflexivity].
Qed.

End FloatFacts.
(* ================================================================== *)
(** * Properties of the batched embedder *)

Module EmbedderFacts.

Import Float Embedder.

Section WithModel.

Variables pixels tensor : Type.
Variable m : clip pixels tensor.

Lemma firstn_chunk (A : Type) (l : list A) (a b : nat) :
  firstn a l ++ firstn b (skipn a l) = firstn (a + b) l.
Proof.
  revert l; induction a as [|a IH]; intros l; simpl.
  - reflexivity.
  - destruct l as [|x l]; simpl.
    + now rewrite firstn_nil.
    + now rewrite IH.
Qed.

(** One step of the loop embeds its batch and appends it. *)
Lemma process_batch_spec (tiles : list (pixels * tile_meta)) (B : Z)
    (embs : list matrix) (mds : list tile_meta) (i : Z) :
  let st := process_batch m tiles B (embs, mds) i in
  vstack (fst st) = vstack embs ++ map (embed_one m) (Py.slice tiles i (i + B))
  /\ snd st = mds ++ map snd (Py.slice tiles i (i + B)).
Proof.
  unfold process_batch, vstack.
  destruct (Py.slice tiles i (i + B)) as [|t batch] eqn:E; simpl.
  - now rewrite !app_nil_r.
  - split; [|reflexivity].
    rewrite concat_app; simpl. rewrite app_nil_r.
    unfold encode_batch, normalize_rows_by, embed_one; simpl.
    now rewrite !map_map.
Qed.

(** The loop over the starts of the batches embeds the concatenation of
    the batches. *)
Lemma fold_batches (tiles : list (pixels * tile_meta)) (B : Z) (starts : list Z) :
  forall embs mds,
    vstack (fst (fold_left (process_batch m tiles B) starts (embs, mds)))
    = vstack embs
      ++ map (embed_one m) (List.concat (map (fun i => Py.slice tiles i (i + B)) starts))
    /\ snd (fold_left (process_batch m tiles B) starts (embs, mds))
       = mds ++ map snd (List.concat (map (fun i => Py.slice tiles i (i + B)) starts)).
Proof.
  induction starts as [|i starts IH]; intros embs mds.
  - cbn. now rewrite !app_nil_r.
  - cbn [fold_left map List.concat].
    pose proof (process_batch_spec tiles B embs mds i) as H.
    destruct (process_batch m tiles B (embs, mds) i) as [embs' mds'].
    cbn [fst snd] in H. destruct H as [He Hm].
    destruct (IH embs' mds') as [IHe IHm].
    rewrite IHe, IHm, He, Hm, !map_app, <- !app_assoc. split; reflexivity.
Qed.

(** The batches of size [B] cut the tiles without loss or repetition. *)
Lemma chunks_firstn (tiles : list (pixels * tile_meta)) (B : Z) (cnt : nat) :
  (1 <= B)%Z ->
  List.concat (map (fun i => Py.slice tiles i (i + B))
                   (map (fun k => (0 + Z.of_nat k * B)%Z) (seq 0 cnt)))
  = firstn (cnt * Z.to_nat B) tiles.
Proof.
  intros HB. induction cnt as [|c IH].
  - reflexivity.
  - rewrite seq_S, !map_app, concat_app, IH.
    cbn [map List.concat]. rewrite app_nil_r. unfold Py.slice.
    replace (Z.to_nat (0 + Z.of_nat (0 + c) * B + B - (0 + Z.of_nat (0 + c) * B)))
      with (Z.to_nat B) by lia.
    replace (Z.to_nat (0 + Z.of_nat (0 + c) * B)) with (c * Z.to_nat B)%nat by nia.
    rewrite firstn_chunk. f_equal. lia.
Qed.

Lemma range_covers (n B : Z) :
  (0 <= n)%Z -> (1 <= B)%Z ->
  (n <= Z.of_nat (Z.to_nat (Py.range_len 0 n B) * Z.to_nat B))%Z.
Proof.
  intros Hn HB. unfold Py.range_len.
  replace (0 <? B)%Z with true by (symmetry; apply Z.ltb_lt; lia).
  rewrite Z.sub_0_r.
  pose proof (Z.div_mod (n + B - 1) B ltac:(lia)) as Hdm.
  pose proof (Z.mod_pos_bound (n + B - 1) B ltac:(lia)) as Hb.
  assert (0 <= (n + B - 1) / B)%Z by (apply Z.div_pos; lia).
  rewrite Z.max_r by lia.
  rewrite Nat2Z.inj_mul, !Z2Nat.id by lia. nia.
Qed.

(** With a batch size of at least one, the embedder returns the
    embedding of every tile, in the order of the tiles, and the metadata
    of every tile. *)
Lemma process_tiles_in_batches_spec (tiles : list (pixels * tile_meta)) (B : Z) :
  (1 <= B)%Z ->
  process_tiles_in_batches tiles m B = Ok (map (embed_one m) tiles, map snd tiles).
Proof.
  intros HB. unfold process_tiles_in_batches, Py.floordiv, Py.range.
  replace (B =? 0)%Z with false by (symmetry; apply Z.eqb_neq; lia).
  simpl.
  pose proof (fold_batches tiles B
    (map (fun k => (0 + Z.of_nat k * B)%Z)
         (seq 0 (Z.to_nat (Py.range_len 0 (Py.len tiles) B)))) [] []) as H.
  destruct H as [He Hm].
  destruct (fold_left _ _ _) as [embs mds].
  unfold vstack in *. cbn [fst snd List.concat app] in He, Hm.
  rewrite He, Hm.
  rewrite chunks_firstn by assumption. rewrite firstn_all2.
  - reflexivity.
  - pose proof (@range_covers (Py.len tiles) B ltac:(unfold Py.len; lia) HB).
    unfold Py.len in *. lia.
Qed.

End WithModel.

Local Open Scope Z_scope.

(** C6 -- batch invariance.  For every sequence of tiles and any two
    batch sizes of at least one, the batched embedder returns, and it
    returns the same embeddings in the same order (and the same metadata)
    with the one batch size as with the other. *)
Theorem batch_size_invariance (pixels tensor : Type) (m : clip pixels tensor)
    (tiles : list (pixels * tile_meta)) (B1 B2 : Z) :
  1 <= B1 -> 1 <= B2 ->
  exists out,
    process_tiles_in_batches tiles m B1 = Ok out
    /\ process_tiles_in_batches tiles m B2 = Ok out.
Proof.
  intros H1 H2. exists (map (embed_one m) tiles, map snd tiles).
  split; apply process_tiles_in_batches_spec; assumption.
Qed.

Lemma batch_size_invariance_witness :
  1 <= 4 /\ 1 <= 16 /\
  exists out,
    process_tiles_in_batches Samples.five_tiles Samples.toy_clip 4 = Ok out
    /\ process_tiles_in_batches Samples.five_tiles Samples.toy_clip 16 = Ok out.
Proof.
  split; [lia | split; [lia |]].
  apply (batch_size_invariance Z Z Samples.toy_clip Samples.five_tiles 4 16); lia.
Defined.

(** C7 -- positional alignment.  For every list of N tiles (and a batch
    size of at least one) the embedder returns exactly N embeddings and
    exactly N metadata records; the metadata at position i is that of
    tile i, and the embedding at position i is that of the converted
    tile i, or of the zero placeholder when the conversion of tile i
    fails: the output of the model divided by the norm computed for
    it. *)
Theorem embedder_alignment (pixels tensor : Type) (m : clip pixels tensor)
    (tiles : list (pixels * tile_meta)) (B : Z) :
  1 <= B ->
  exists embs mds,
    process_tiles_in_batches tiles m B = Ok (embs, mds)
    /\ List.length embs = List.length tiles
    /\ List.length mds = List.length tiles
    /\ forall i tile_data meta,
         nth_error tiles i = Some (tile_data, meta) ->
         nth_error mds i = Some meta
         /\ (forall t, preprocess m tile_data = Some t ->
                       nth_error embs i
                       = Some (normalize_by (features_norm m) (encode_image m t)))
         /\ (preprocess m tile_data = None ->
             nth_error embs i
             = Some (normalize_by (features_norm m) (encode_image m (zeros m)))).
Proof.
  intros HB. exists (map (embed_one m) tiles), (map snd tiles).
  split; [apply process_tiles_in_batches_spec; assumption|].
  rewrite !length_map. repeat split; try reflexivity.
  - now rewrite nth_error_map, H.
  - intros t Ht. rewrite nth_error_map, H. cbn.
    unfold embed_one, preprocess_tile. cbn. now rewrite Ht.
  - intros Hnone. rewrite nth_error_map, H. cbn.
    unfold embed_one, preprocess_tile. cbn. now rewrite Hnone.
Qed.

Lemma embedder_alignment_witness :
  1 <= 2 /\
  exists embs mds,
    process_tiles_in_batches Samples.five_tiles Samples.toy_clip 2 = Ok (embs, mds)
    /\ List.length embs = 5%nat
    /\ List.length mds = 5%nat
    /\ forall i tile_data meta,
         nth_error Samples.five_tiles i = Some (tile_data, meta) ->
         nth_error mds i = Some meta
         /\ (forall t, preprocess Samples.toy_clip tile_data = Some t ->
                       nth_error embs i
                       = Some (normalize_by (features_norm Samples.toy_clip)
                                            (encode_image Samples.toy_clip t)))
         /\ (preprocess Samples.toy_clip tile_data = None ->
             nth_error embs i
             = Some (normalize_by (features_norm Samples.toy_clip)
                                  (encode_image Samples.toy_clip
                                                (zeros Samples.toy_clip)))).
Proof.
  split; [lia|].
  apply (embedder_alignment Z Z Samples.toy_clip Samples.five_tiles 2); lia.
Defined.

(** C5, as the program has it -- division by the computed norm,
    unguarded.  With a batch size of at least one the embedder returns,
    raising for no output of the model: the embedding at position i is
    the output of the model for tile i with every component divided by
    the norm that is computed for that output.  When the output is of
    real numbers and its norm is computed without error and is not zero,
    the embedding is the output divided by its Euclidean norm and has
    norm one.  When the norm is computed as zero, no component of the
    embedding is finite: that of a zero component is [NaN], that of
    another real component is the infinity of its sign. *)
Theorem embedder_divides_by_norm (pixels tensor : Type) (m : clip pixels tensor)
    (tiles : list (pixels * tile_meta)) (B : Z) :
  1 <= B ->
  exists embs mds,
    process_tiles_in_batches tiles m B = Ok (embs, mds)
    /\ forall i tile_data meta,
         nth_error tiles i = Some (tile_data, meta) ->
         let raw := encode_image m (preprocess_tile m tile_data) in
         exists e,
           nth_error embs i = Some e
           /\ e = map (fun x => fdiv x (features_norm m raw)) raw
           /\ (forall v, raw = fin_vec v -> features_norm m raw = Fin (Rnorm v) ->
                         Rnorm v <> 0%R ->
                         e = fin_vec (Rnormalize v) /\ Rnorm (Rnormalize v) = 1%R)
           /\ (features_norm m raw = Fin 0 ->
               Forall (fun y => y = NaN \/ y = PInf \/ y = NInf) e
               /\ forall j r,
                    nth_error raw j = Some (Fin r) ->
                    nth_error e j
                    = Some (if Req_dec_T r 0 then NaN
                            else if Rlt_dec 0 r then PInf else NInf)).
Proof.
  intros HB. exists (map (embed_one m) tiles), (map snd tiles).
  split; [apply process_tiles_in_batches_spec; assumption|].
  intros i tile_data meta H raw.
  exists (normalize_by (features_norm m) raw). split; [|split; [|split]].
  - rewrite nth_error_map, H. reflexivity.
  - reflexivity.
  - intros v Hv He Hn. rewrite Hv in *. split.
    + now apply FloatFacts.normalize_by_fin.
    + now apply FloatFacts.Rnorm_normalized.
  - intros Hz. now apply FloatFacts.normalize_by_zero.
Qed.

Lemma embedder_divides_by_norm_witness :
  1 <= 32 /\
  exists embs mds,
    process_tiles_in_batches [(3, Samples.meta_at 0 0 2 0 0)] Samples.toy_clip 32
    = Ok (embs, mds)
    /\ forall i tile_data meta,
         nth_error [(3, Samples.meta_at 0 0 2 0 0)] i = Some (tile_data, meta) ->
         let raw := encode_image Samples.toy_clip
                      (preprocess_tile Samples.toy_clip tile_data) in
         exists e,
           nth_error embs i = Some e
           /\ e = map (fun x => fdiv x (features_norm Samples.toy_clip raw)) raw
           /\ (forall v, raw = fin_vec v ->
                         features_norm Samples.toy_clip raw = Fin (Rnorm v) ->
                         Rnorm v <> 0%R ->
                         e = fin_vec (Rnormalize v) /\ Rnorm (Rnormalize v) = 1%R)
           /\ (features_norm Samples.toy_clip raw = Fin 0 ->
               Forall (fun y => y = NaN \/ y = PInf \/ y = NInf) e
               /\ forall j r,
                    nth_error raw j = Some (Fin r) ->
                    nth_error e j
                    = Some (if Req_dec_T r 0 then NaN
                            else if Rlt_dec 0 r then PInf else NInf)).
Proof.
  split; [lia|].
  apply (embedder_divides_by_norm Z Z Samples.toy_clip
           [(3, Samples.meta_at 0 0 2 0 0)] 32); lia.
Defined.

(** C5, as stated, fails: the output of the model for the only tile has
    norm zero, and the embedder returns an embedding of [NaN]s instead of
    raising. *)
Lemma zero_norm_is_not_an_error :
  norm (encode_image Samples.flat_clip 0) = Fin 0
  /\ process_tiles_in_batches [(0, Samples.meta_at 0 0 2 0 0)] Samples.flat_clip 32
     = Ok ([[NaN; NaN]], [Samples.meta_at 0 0 2 0 0])
  /\ forall e,
       process_tiles_in_batches [(0, Samples.meta_at 0 0 2 0 0)] Samples.flat_clip 32
       <> Raise e.
Proof.
  assert (Hn : norm (encode_image Samples.flat_clip 0) = Fin 0).
  { change (encode_image Samples.flat_clip 0) with (fin_vec [0%R; 0%R]).
    rewrite FloatFacts.norm_fin. f_equal. unfold Rnorm, Rsumsq. simpl.
    replace (0 * 0 + (0 * 0 + 0))%R with 0%R by lra. apply sqrt_0. }
  assert (He : process_tiles_in_batches [(0, Samples.meta_at 0 0 2 0 0)]
                 Samples.flat_clip 32
               = Ok ([[NaN; NaN]], [Samples.meta_at 0 0 2 0 0])).
  { rewrite process_tiles_in_batches_spec by lia. cbn [map snd].
    unfold embed_one, preprocess_tile. cbn [fst preprocess Samples.flat_clip].
    unfold normalize_by. change (features_norm Samples.flat_clip) with norm.
    rewrite Hn. cbn.
    destruct (Req_dec_T 0 0) as [_|Hne]; [reflexivity | now elim Hne]. }
  repeat split; try assumption.
  intros e. rewrite He. discriminate.
Qed.

(** An output whose norm is not zero, in single precision: the square
    of [1e-30] is below the range, the norm is computed as zero, and the
    embedder returns an infinity and a [NaN] for the output
    [(1e-30, 0)]. *)
Example faint_output_is_divided_by_zero :
  norm (encode_image Samples.dim_clip 1) <> Fin 0
  /\ features_norm Samples.dim_clip (encode_image Samples.dim_clip 1) = Fin 0
  /\ process_tiles_in_batches [(1, Samples.meta_at 0 0 2 0 0)] Samples.dim_clip 32
     = Ok ([[PInf; NaN]], [Samples.meta_at 0 0 2 0 0]).
Proof.
  assert (Hd : (0 < Samples.dim)%R).
  { unfold Samples.dim. apply Rinv_0_lt_compat. apply IZR_lt. reflexivity. }
  assert (Hraw : encode_image Samples.dim_clip 1 = [Fin (1 * Samples.dim); Fin 0%R])
    by reflexivity.
  assert (Hz : features_norm Samples.dim_clip [Fin (1 * Samples.dim); Fin 0%R] = Fin 0).
  { cbn [features_norm Samples.dim_clip]. unfold Samples.norm32.
    apply FloatFacts.ranged_norm_underflow.
    - left. apply Rinv_0_lt_compat. apply IZR_lt. reflexivity.
    - rewrite !Rmult_1_l. unfold Samples.dim.
      apply FloatFacts.inverse_square_below; [reflexivity|].
      apply Z.leb_le. vm_compute. reflexivity. }
  split; [|split].
  - rewrite Hraw. intros H. apply FloatFacts.norm_zero in H.
    inversion H as [|? ? Hx _]; subst. injection Hx as Hx. lra.
  - rewrite Hraw. exact Hz.
  - rewrite process_tiles_in_batches_spec by lia. cbn [map snd].
    unfold embed_one, preprocess_tile. cbn [fst preprocess Samples.dim_clip].
    change ((fun t : Z => [Fin (IZR t * Samples.dim); Fin 0%R]) 1)
      with [Fin (1 * Samples.dim); Fin 0%R].
    rewrite (FloatFacts.normalize_by_underflow _ (1 * Samples.dim)); [reflexivity | lra |].
    exact Hz.
Qed.

End EmbedderFacts.

(* ================================================================== *)
(** * Properties of the tile extractor *)

Module ExtractorFacts.

Import Extractor.

Local Open Scope Z_scope.

Section WithPixels.

Variable pixels : Type.
Variable src : raster pixels.

(** The pixels of a window are the pixels inside its bounds. *)
Lemma in_window_pixels (w : Window) (i j : Z) :
  In (i, j) (window_pixels w) <->
  col_off w <= i < col_off w + win_width w
  /\ row_off w <= j < row_off w + win_height w.
Proof.
  unfold window_pixels. rewrite in_flat_map. split.
  - intros (b & Hb & Hin). apply in_map_iff in Hin.
    destruct Hin as (a & Heq & Ha). injection Heq as <- <-.
    apply in_seq in Ha; apply in_seq in Hb; lia.
  - intros [Hi Hj]. exists (Z.to_nat (j - row_off w)). split.
    + apply in_seq; lia.
    + apply in_map_iff. exists (Z.to_nat (i - col_off w)). split.
      * f_equal; lia.
      * apply in_seq; lia.
Qed.

Lemma any_masked_false (w : Window) :
  any_masked src w = false <->
  forall i j,
    col_off w <= i < col_off w + win_width w ->
    row_off w <= j < row_off w + win_height w ->
    mask_at src i j <> 0.
Proof.
  unfold any_masked. split.
  - intros H i j Hi Hj Hm.
    assert (Hex : existsb (fun p => mask_at src (fst p) (snd p) =? 0)
                    (window_pixels w) = true).
    { apply existsb_exists. exists (i, j). split.
      - apply in_window_pixels; auto.
      - simpl. now apply Z.eqb_eq. }
    congruence.
  - intros H. apply not_true_is_false. intros Hex.
    apply existsb_exists in Hex. destruct Hex as ([i j] & Hin & Hm).
    apply in_window_pixels in Hin. simpl in Hm. apply Z.eqb_eq in Hm.
    destruct Hin as [Hi Hj]. exact (H i j Hi Hj Hm).
Qed.

(** Every tile of a row of the scan comes from a candidate of the row
    that passed the tests, and has the full size. *)
Lemma scan_row_emitted (path : string) (tile_size y r : Z) (xs : list Z) :
  forall c t,
    In t (scan_row src path tile_size y r xs c) ->
    In (tile_x (snd t)) xs
    /\ tile_y (snd t) = y
    /\ tile_width (snd t) = tile_size
    /\ tile_height (snd t) = tile_size
    /\ kept src tile_size (tile_x (snd t)) y.
Proof.
  induction xs as [|x xs IH]; intros c t Hin; simpl in Hin.
  - contradiction.
  - assert (Hrec : forall c', In t (scan_row src path tile_size y r xs c') ->
                     In (tile_x (snd t)) (x :: xs) /\ tile_y (snd t) = y
                     /\ tile_width (snd t) = tile_size
                     /\ tile_height (snd t) = tile_size
                     /\ kept src tile_size (tile_x (snd t)) y).
    { intros c' H'. destruct (IH c' t H') as (H1 & H2). split; [now right | exact H2]. }
    destruct ((Z.min tile_size (width src - x) <? tile_size)
              || (Z.min tile_size (height src - y) <? tile_size))%bool eqn:Esz;
      [now apply (Hrec (c + 1))|].
    apply orb_false_elim in Esz. destruct Esz as [Ew Eh].
    apply Z.ltb_ge in Ew, Eh.
    assert (Hw : Z.min tile_size (width src - x) = tile_size) by lia.
    assert (Hh : Z.min tile_size (height src - y) = tile_size) by lia.
    rewrite Hw, Hh in Hin.
    destruct (any_masked src (mkWindow x y tile_size tile_size)) eqn:Em;
      [now apply (Hrec (c + 1))|].
    unfold rgb_shape in Hin. cbn [win_height win_width] in Hin.
    destruct (negb (Z.max 0 (Z.min (count src) 3) =? 3)
              || negb (Z.max 0 tile_size =? tile_size)
              || negb (Z.max 0 tile_size =? tile_size))%bool;
      [now apply (Hrec (c + 1))|].
    destruct Hin as [<- | Hin]; [|now apply (Hrec (c + 1))].
    cbn. unfold kept. repeat split; auto.
Qed.

Lemma scan_rows_emitted (path : string) (tile_size : Z) (xs ys : list Z) :
  forall r t,
    In t (scan_rows src path tile_size ys r xs) ->
    In (tile_x (snd t)) xs
    /\ In (tile_y (snd t)) ys
    /\ tile_width (snd t) = tile_size
    /\ tile_height (snd t) = tile_size
    /\ kept src tile_size (tile_x (snd t)) (tile_y (snd t)).
Proof.
  induction ys as [|y ys IH]; intros r t Hin; simpl in Hin.
  - contradiction.
  - apply in_app_or in Hin. destruct Hin as [Hin | Hin].
    + apply scan_row_emitted in Hin. destruct Hin as (H1 & H2 & H3 & H4 & H5).
      rewrite H2. split; [exact H1|]. split; [now left|]. auto.
    + destruct (IH _ _ Hin) as (H1 & H2 & H3).
      split; [exact H1|]. split; [now right|]. exact H3.
Qed.

(** The extractor returns as soon as the tile size is not zero and the
    step of the scan is not zero; a zero tile size raises at the count of
    the tiles and a zero step at the scan. *)
Lemma extract_returns (path : string) (tile_size overlap : Z) :
  tile_size <> 0 -> tile_size - overlap <> 0 ->
  exists xs ys,
    Py.range 0 (width src) (tile_size - overlap) = Ok xs
    /\ Py.range 0 (height src) (tile_size - overlap) = Ok ys
    /\ extract_geotiff_tiles src path tile_size overlap
       = Ok (scan_rows src path tile_size ys 0 xs).
Proof.
  intros HS Hstep. unfold extract_geotiff_tiles, Py.floordiv, Py.range.
  apply Z.eqb_neq in HS, Hstep. rewrite HS, Hstep. cbn.
  eexists _, _. repeat split.
Qed.

End WithPixels.

(** C4 -- full-size, unmasked tiles only.  For every raster, positive
    tile size S and overlap O other than S, the extractor returns a list
    of tiles in which every tile has pixel width and pixel height
    exactly S and no masked pixel in its window; and a position whose
    window is narrower or lower than S at the edge of the raster, or
    holds a masked pixel, is the position of no tile of the list. *)
Theorem extracted_tiles_full_and_unmasked (pixels : Type) (src : raster pixels)
    (path : string) (tile_size overlap : Z) :
  0 < tile_size -> tile_size <> overlap ->
  exists tiles,
    extract_geotiff_tiles src path tile_size overlap = Ok tiles
    /\ (forall t, In t tiles ->
          tile_width (snd t) = tile_size /\ tile_height (snd t) = tile_size
          /\ forall i j,
               tile_x (snd t) <= i < tile_x (snd t) + tile_size ->
               tile_y (snd t) <= j < tile_y (snd t) + tile_size ->
               mask_at src i j <> 0)
    /\ (forall x y,
          let actual_width := Z.min tile_size (width src - x) in
          let actual_height := Z.min tile_size (height src - y) in
          (actual_width < tile_size \/ actual_height < tile_size
           \/ exists i j, x <= i < x + actual_width /\ y <= j < y + actual_height
                          /\ mask_at src i j = 0) ->
          forall t, In t tiles -> ~ (tile_x (snd t) = x /\ tile_y (snd t) = y)).
Proof.
  intros HS Hstep.
  destruct (extract_returns pixels src path tile_size overlap ltac:(lia) ltac:(lia))
    as (xs & ys & _ & _ & He).
  exists (scan_rows src path tile_size ys 0 xs). split; [exact He|]. split.
  - intros t Hin. apply scan_rows_emitted in Hin.
    destruct Hin as (_ & _ & Hw & Hh & _ & _ & Hm). repeat split; auto.
    intros i j Hi Hj. apply (proj1 (any_masked_false pixels src _) Hm); cbn; lia.
  - intros x y aw ah Hbad t Hin [Hx Hy]. apply scan_rows_emitted in Hin.
    destruct Hin as (_ & _ & _ & _ & Hkw & Hkh & Hm). rewrite Hx, Hy in *.
    subst aw ah. destruct Hbad as [Hbad | [Hbad | (i & j & Hi & Hj & Hz)]]; try lia.
    rewrite Hkw, Hkh in *.
    apply (proj1 (any_masked_false pixels src _) Hm i j); cbn; auto.
Qed.

Lemma extracted_tiles_full_and_unmasked_witness :
  0 < 2 /\ 2 <> 0 /\
  exists tiles,
    extract_geotiff_tiles Samples.reef "reef.tif" 2 0 = Ok tiles
    /\ (forall t, In t tiles ->
          tile_width (snd t) = 2 /\ tile_height (snd t) = 2
          /\ forall i j,
               tile_x (snd t) <= i < tile_x (snd t) + 2 ->
               tile_y (snd t) <= j < tile_y (snd t) + 2 ->
               mask_at Samples.reef i j <> 0)
    /\ (forall x y,
          let actual_width := Z.min 2 (width Samples.reef - x) in
          let actual_height := Z.min 2 (height Samples.reef - y) in
          (actual_width < 2 \/ actual_height < 2
           \/ exists i j, x <= i < x + actual_width /\ y <= j < y + actual_height
                          /\ mask_at Samples.reef i j = 0) ->
          forall t, In t tiles -> ~ (tile_x (snd t) = x /\ tile_y (snd t) = y)).
Proof.
  split; [lia | split; [lia |]].
  apply (extracted_tiles_full_and_unmasked Z Samples.reef "reef.tif" 2 0); lia.
Defined.

(** On the sample raster the scan keeps the tiles at (0, 0), (0, 2) and
    (2, 2): the tile at (2, 0) holds the masked pixel and the last column
    is narrower than a tile. *)
Example extract_reef :
  exists tiles,
    extract_geotiff_tiles Samples.reef "reef.tif" 2 0 = Ok tiles
    /\ map (fun t => (fst t, tile_x (snd t), tile_y (snd t), row (snd t), col (snd t)))
           tiles
       = [(1, 0, 0, 0, 0); (21, 0, 2, 1, 0); (23, 2, 2, 1, 1)].
Proof. eexists. split; [reflexivity|]. reflexivity. Qed.

End ExtractorFacts.

(* ================================================================== *)
(** * Properties of the nearest-prototype classifier *)

Module ClassifierFacts.

Import Float Classifier.

(** The scan keeps a largest entry among those seen, with its index. *)
Lemma scan_max_spec (l : list fnum) :
  forall best_i best i,
    let r := scan_max best_i best i l in
    tle best (snd r) = true
    /\ (forall x, In x l -> tle x (snd r) = true)
    /\ ((fst r = best_i /\ snd r = best)
        \/ (i <= fst r < i + List.length l
            /\ nth_error l (fst r - i) = Some (snd r))).
Proof.
  induction l as [|x l IH]; intros best_i best i; cbn.
  - split; [apply FloatFacts.tle_refl|]. split; [contradiction | now left].
  - destruct (tle x best) eqn:E.
    + destruct (IH best_i best (S i)) as (H1 & H2 & H3).
      split; [exact H1|]. split.
      * intros y [<- | Hy]; [exact (FloatFacts.tle_trans _ _ _ E H1) | now apply H2].
      * destruct H3 as [H3 | [H3 H4]]; [now left | right].
        split; [lia|].
        replace (fst (scan_max best_i best (S i) l) - i)
          with (S (fst (scan_max best_i best (S i) l) - S i)) by lia.
        exact H4.
    + destruct (IH i x (S i)) as (H1 & H2 & H3).
      split; [exact (FloatFacts.tle_trans _ _ _ (FloatFacts.tle_total _ _ E) H1)|]. split.
      * intros y [<- | Hy]; [exact H1 | now apply H2].
      * right. destruct H3 as [[H3 H4] | [H3 H4]].
        -- rewrite H3, H4. split; [lia|]. now rewrite Nat.sub_diag.
        -- split; [lia|].
           replace (fst (scan_max i x (S i) l) - i)
             with (S (fst (scan_max i x (S i) l) - S i)) by lia.
           exact H4.
Qed.

(** On a row with an entry, [argmax] is the index of an entry that no
    entry exceeds, and [max] is that entry. *)
Lemma argmax_spec (l : list fnum) :
  l <> [] ->
  argmax l < List.length l
  /\ nth_error l (argmax l) = Some (vmax l)
  /\ forall x, In x l -> flt (vmax l) x = false.
Proof.
  destruct l as [|x l]; [congruence | intros _].
  unfold argmax, vmax.
  destruct (scan_max_spec l 0 x 1) as (H1 & H2 & H3). cbn in *.
  split; [|split].
  - destruct H3 as [[H3 _] | [H3 _]]; lia.
  - destruct H3 as [[H3 H4] | [H3 H4]].
    + now rewrite H3, H4.
    + destruct (fst (scan_max 0 x 1 l)) as [|k]; [lia|].
      cbn. rewrite <- H4. f_equal. lia.
  - intros y [<- | Hy]; apply FloatFacts.tle_not_flt; auto.
Qed.

(** ** The loops of the classification *)

Lemma mapM_map {A B : Type} (f : A -> result B) (g : A -> B) (xs : list A) :
  (forall x, In x xs -> f x = Ok (g x)) -> mapM f xs = Ok (map g xs).
Proof.
  induction xs as [|x xs IH]; intros H; cbn.
  - reflexivity.
  - rewrite (H x (or_introl eq_refl)). cbn.
    rewrite IH by (intros y Hy; apply H; now right). reflexivity.
Qed.

Lemma forallb_length (d : nat) (a : vec) (rest : list vec) :
  List.length a = d -> (forall b, In b rest -> List.length b = d) ->
  forallb (fun b => Nat.eqb (List.length b) (List.length a)) rest = true.
Proof.
  intros Ha H. apply forallb_forall. intros b Hb.
  apply Nat.eqb_eq. rewrite Ha. now apply H.
Qed.

Lemma normalize_row_length (v : vec) : List.length (normalize_row v) = List.length v.
Proof. unfold normalize_row, vscale_div. apply length_map. Qed.

(** The similarity matrix holds the similarity of every tile and
    prototype, whatever the norms are computed to be. *)
Lemma similarities_ok (proto_norm tile_norm : vec -> fnum)
    (query_vectors : list (string * vec))
    (tile_embeddings : matrix) (d : nat) :
  query_vectors <> [] -> tile_embeddings <> [] ->
  (forall p, In p query_vectors -> List.length (snd p) = d) ->
  (forall t, In t tile_embeddings -> List.length t = d) ->
  similarities proto_norm tile_norm query_vectors tile_embeddings
  = Ok (map (sim_row proto_norm tile_norm query_vectors) tile_embeddings).
Proof.
  intros Hq Ht Hdq Hdt. unfold similarities, torch_stack, sim_row.
  destruct query_vectors as [|[c p] qv]; [congruence|].
  destruct tile_embeddings as [|t te]; [congruence|].
  cbn [map snd].
  rewrite (forallb_length d) by
    (try (apply (Hdq (c, p)); now left);
     intros b Hb; apply in_map_iff in Hb; destruct Hb as (q & <- & Hq');
     apply Hdq; now right).
  cbn [bind]. unfold matmul_T. cbn [normalize_rows_by map].
  match goal with
  | |- context [forallb ?f ?l] =>
      assert (Hall : forallb f l = true); [apply forallb_forall | rewrite Hall]
  end.
  2: { unfold cosine. rewrite !map_map. do 2 f_equal.
       apply map_ext. intros a. f_equal. now rewrite !map_map. }
  intros b Hb. apply Nat.eqb_eq. rewrite FloatFacts.normalize_by_length.
  assert (Hb' : exists t', In t' (t :: te) /\ b = normalize_by tile_norm t').
  { destruct Hb as [<- | Hb]; [exists t; split; [now left | reflexivity]|].
    apply in_map_iff in Hb. destruct Hb as (t' & <- & Hin).
    exists t'. split; [now right | reflexivity]. }
  destruct Hb' as (t' & Hin & ->). rewrite FloatFacts.normalize_by_length.
  rewrite (Hdt t' Hin). symmetry. apply (Hdq (c, p)). now left.
Qed.

Lemma getitem_nth {A : Type} (l : list A) (i : nat) (d : A) :
  i < List.length l -> getitem l i = Ok (nth i l d).
Proof.
  intros H. unfold getitem. now rewrite (nth_error_nth' l d H).
Qed.

(** The classification returns one result for every tile, at the
    position of the tile. *)
Lemma classify_ok (proto_norm tile_norm : vec -> fnum)
    (query_vectors : list (string * vec))
    (tile_embeddings : matrix) (tile_metadata : list tile_meta) (d : nat) :
  query_vectors <> [] -> tile_embeddings <> [] ->
  (forall p, In p query_vectors -> List.length (snd p) = d) ->
  (forall t, In t tile_embeddings -> List.length t = d) ->
  List.length tile_metadata = List.length tile_embeddings ->
  exists results,
    classify proto_norm tile_norm query_vectors tile_embeddings tile_metadata
    = Ok results
    /\ List.length results = List.length tile_embeddings
    /\ forall i t,
         nth_error tile_embeddings i = Some t ->
         exists r meta,
           nth_error results i = Some r
           /\ nth_error tile_metadata i = Some meta
           /\ tile_id r = i
           /\ (r_tile_x r, r_tile_y r) = (tile_x meta, tile_y meta)
           /\ nth_error (map fst query_vectors)
                        (argmax (sim_row proto_norm tile_norm query_vectors t))
              = Some (best_class r)
           /\ query_similarity r = vmax (sim_row proto_norm tile_norm query_vectors t).
Proof.
  intros Hq Ht Hdq Hdt Hlen. unfold classify.
  rewrite (similarities_ok _ _ _ _ d Hq Ht Hdq Hdt). cbn [bind].
  set (sims := map (sim_row proto_norm tile_norm query_vectors) tile_embeddings).
  set (names := map fst query_vectors).
  destruct tile_metadata as [|m0 mds] eqn:Emd.
  { destruct tile_embeddings; [congruence | discriminate]. }
  rewrite <- Emd in *. clear Emd mds.
  set (g := fun i =>
    let meta := nth i tile_metadata m0 in
    mkResult i (source_file meta) (tile_x meta) (tile_y meta)
             (tile_width meta) (tile_height meta) (row meta) (col meta)
             (nth (argmax (nth i sims [])) names EmptyString)
             (vmax (nth i sims []))).
  assert (Hsims : List.length sims = List.length tile_embeddings)
    by (unfold sims; apply length_map).
  assert (Hrow : forall i t, nth_error tile_embeddings i = Some t ->
                             nth i sims [] = sim_row proto_norm tile_norm query_vectors t).
  { intros i t Hi. apply nth_error_nth. unfold sims.
    now rewrite nth_error_map, Hi. }
  assert (Harg : forall t, argmax (sim_row proto_norm tile_norm query_vectors t)
                           < List.length names).
  { intros t. unfold names. rewrite length_map.
    rewrite <- (length_map (fun p => cosine proto_norm tile_norm t (snd p))
                           query_vectors).
    apply argmax_spec. unfold sim_row.
    destruct query_vectors; [congruence | discriminate]. }
  exists (map g (seq 0 (List.length tile_embeddings))). split; [|split].
  - apply mapM_map. intros i Hi. apply in_seq in Hi.
    destruct (nth_error tile_embeddings i) as [t|] eqn:Et;
      [|apply nth_error_None in Et; lia].
    rewrite (getitem_nth (map argmax sims) i 0) by (rewrite length_map; lia).
    cbn [bind].
    replace (nth i (map argmax sims) 0) with (argmax (nth i sims [])).
    2: { rewrite (Hrow i t Et). symmetry. apply nth_error_nth.
         rewrite nth_error_map. unfold sims. now rewrite nth_error_map, Et. }
    rewrite (getitem_nth names _ EmptyString) by (rewrite (Hrow i t Et); apply Harg).
    cbn [bind].
    rewrite (getitem_nth (map vmax sims) i NaN) by (rewrite length_map; lia).
    cbn [bind].
    replace (nth i (map vmax sims) NaN) with (vmax (nth i sims [])).
    2: { rewrite (Hrow i t Et). symmetry. apply nth_error_nth.
         rewrite nth_error_map. unfold sims. now rewrite nth_error_map, Et. }
    rewrite (getitem_nth tile_metadata i m0) by lia.
    reflexivity.
  - now rewrite length_map, length_seq.
  - intros i t Hi.
    assert (Hlt : i < List.length tile_embeddings)
      by (apply nth_error_Some; congruence).
    exists (g i), (nth i tile_metadata m0). split; [|split].
    + rewrite nth_error_map.
      rewrite (nth_error_nth' (seq 0 (List.length tile_embeddings)) 0)
        by (rewrite length_seq; lia).
      now rewrite seq_nth.
    + apply nth_error_nth'. lia.
    + unfold g. cbn. rewrite (Hrow i t Hi).
      repeat split.
      apply nth_error_nth'. apply Harg.
Qed.

(** ** Norms that are computed without error *)

(** Where the norms of a tile embedding and of a prototype of real
    numbers are computed without error and are not zero, their
    similarity as it is computed is the cosine of their angle. *)
Lemma cosine_exact (proto_norm tile_norm : vec -> fnum) (t p : list R) :
  tile_norm (fin_vec t) = Fin (Rnorm t) -> Rnorm t <> 0%R ->
  proto_norm (fin_vec p) = Fin (Rnorm p) -> Rnorm p <> 0%R ->
  cosine proto_norm tile_norm (fin_vec t) (fin_vec p) = Fin (Rcosine t p).
Proof.
  intros Ht Htz Hp Hpz. unfold cosine.
  rewrite !FloatFacts.normalize_by_fin by assumption.
  rewrite FloatFacts.dot_fin. f_equal. now apply FloatFacts.Rdot_normalized.
Qed.





Local Open Scope R_scope.


Lemma Rnorm_pair (a b c : R) : 0 <= c -> a * a + b * b = c * c -> Rnorm [a; b] = c.
Proof.
  intros Hc H. unfold Rnorm, Rsumsq. cbn.
  replace (a * a + (b * b + 0)) with (c * c) by lra. now apply sqrt_square.
Qed.

(** ** A prototype whose norm is below the range *)







(** ** The recorded similarity *)


(** A tile embedding (3, 4) against the prototypes (1, 0) of sand and
    (0, 2) of seagrass: the cosines are 3/5 and 4/5, and the tile is
    seagrass with the score 4/5, the stored norm 2 of the prototype
    notwithstanding. *)
Example classify_sample :
  classify norm norm [("sand", fin_vec [1; 0]); ("seagrass", fin_vec [0; 2])]%string
           [fin_vec [3; 4]] [Samples.meta_at 0 0 2 0 0]
  = Ok [mkResult 0 "reef.tif" 0 0 2 2 0 0 "seagrass" (Fin (4 / 5))].
Proof.
  assert (H34 : Rnorm [3; 4] = 5) by (apply Rnorm_pair; lra).
  assert (H10 : Rnorm [1; 0] = 1) by (apply Rnorm_pair; lra).
  assert (H02 : Rnorm [0; 2] = 2) by (apply Rnorm_pair; lra).
  assert (Hc1 : cosine norm norm (fin_vec [3; 4]) (fin_vec [1; 0]) = Fin (3 / 5)).
  { rewrite cosine_exact by (rewrite ?FloatFacts.norm_fin; try reflexivity; lra).
    unfold Rcosine. rewrite H34, H10. unfold Rdot. cbn. f_equal. lra. }
  assert (Hc2 : cosine norm norm (fin_vec [3; 4]) (fin_vec [0; 2]) = Fin (4 / 5)).
  { rewrite cosine_exact by (rewrite ?FloatFacts.norm_fin; try reflexivity; lra).
    unfold Rcosine. rewrite H34, H02. unfold Rdot. cbn. f_equal. lra. }
  unfold classify.
  rewrite (similarities_ok _ _ _ _ 2);
    [| discriminate | discriminate
     | intros p [<- | [<- | []]]; reflexivity
     | intros t [<- | []]; reflexivity].
  cbn [bind map sim_row snd]. rewrite Hc1, Hc2.
  cbn. destruct (Rlt_dec (3 / 5) (4 / 5)); [reflexivity | lra].
Qed.





End ClassifierFacts.

(* ================================================================== *)
(** * Sorting and the sets of the program *)

Module SortFacts.

Section Sorting.

Variable A : Type.
Variable leb : A -> A -> bool.
Variable eqb : A -> A -> bool.

Hypothesis leb_total : forall a b, leb a b = true \/ leb b a = true.
Hypothesis leb_trans : forall a b c, leb a b = true -> leb b c = true -> leb a c = true.
Hypothesis leb_antisym : forall a b, leb a b = true -> leb b a = true -> a = b.
Hypothesis eqb_eq : forall a b, eqb a b = true <-> a = b.

Lemma insert_by_perm (x : A) (l : list A) :
  Permutation (x :: l) (Py.insert_by leb x l).
Proof.
  induction l as [|y l IH]; simpl.
  - apply Permutation_refl.
  - destruct (leb x y).
    + apply Permutation_refl.
    + eapply perm_trans; [apply perm_swap|]. now apply perm_skip.
Qed.

Lemma sorted_by_perm (l : list A) : Permutation l (Py.sorted_by leb l).
Proof.
  unfold Py.sorted_by. induction l as [|x l IH]; simpl.
  - apply perm_nil.
  - eapply perm_trans; [apply perm_skip, IH | apply insert_by_perm].
Qed.

Lemma insert_by_sorted (x : A) (l : list A) :
  StronglySorted (Py.le_by leb) l -> StronglySorted (Py.le_by leb) (Py.insert_by leb x l).
Proof.
  induction 1 as [|y l Hs IH Hall]; simpl.
  - constructor; constructor.
  - destruct (leb x y) eqn:E.
    + constructor.
      * now constructor.
      * constructor; [exact E|].
        eapply Forall_impl; [|exact Hall]. intros z Hz. exact (leb_trans _ _ _ E Hz).
    + constructor; [exact IH|].
      assert (Hyx : Py.le_by leb y x) by (destruct (leb_total x y); [congruence | assumption]).
      eapply Permutation_Forall; [apply insert_by_perm|].
      now constructor.
Qed.

Lemma sorted_by_sorted (l : list A) : StronglySorted (Py.le_by leb) (Py.sorted_by leb l).
Proof.
  unfold Py.sorted_by. induction l as [|x l IH]; simpl.
  - constructor.
  - now apply insert_by_sorted.
Qed.

(** A sorted list without repetition is determined by its elements. *)
Lemma sorted_unique_repr (l1 : list A) :
  forall l2,
    StronglySorted (Py.le_by leb) l1 -> StronglySorted (Py.le_by leb) l2 -> NoDup l1 -> NoDup l2 ->
    (forall x, In x l1 <-> In x l2) -> l1 = l2.
Proof.
  induction l1 as [|a l1 IH]; intros [|b l2] S1 S2 N1 N2 Hin.
  - reflexivity.
  - exfalso. apply (proj2 (Hin b)). now left.
  - exfalso. apply (proj1 (Hin a)). now left.
  - inversion S1 as [|? ? S1' F1]; inversion S2 as [|? ? S2' F2]; subst.
    inversion N1 as [|? ? Na N1']; inversion N2 as [|? ? Nb N2']; subst.
    rewrite Forall_forall in F1, F2.
    assert (Hab : a = b).
    { destruct (proj1 (Hin a) (or_introl eq_refl)) as [Hba | Ha]; [now symmetry|].
      destruct (proj2 (Hin b) (or_introl eq_refl)) as [Hab | Hb]; [assumption|].
      apply leb_antisym; [apply F1, Hb | apply F2, Ha]. }
    subst b. f_equal. apply IH; auto.
    intros x. split; intros Hx.
    + destruct (proj1 (Hin x) (or_intror Hx)) as [<- | H]; [contradiction | exact H].
    + destruct (proj2 (Hin x) (or_intror Hx)) as [<- | H]; [contradiction | exact H].
Qed.

Lemma unique_by_in (l : list A) (x : A) : In x (Py.unique_by eqb l) <-> In x l.
Proof.
  induction l as [|y l IH]; simpl.
  - reflexivity.
  - rewrite filter_In, IH. split.
    + intros [H | [H _]]; auto.
    + intros [H | H]; [now left|].
      destruct (eqb y x) eqn:E.
      * left. now apply eqb_eq.
      * right. split; [exact H | reflexivity].
Qed.

Lemma unique_by_nodup (l : list A) : NoDup (Py.unique_by eqb l).
Proof.
  induction l as [|y l IH]; simpl.
  - constructor.
  - constructor.
    + rewrite filter_In. intros [_ H].
      assert (E : eqb y y = true) by now apply eqb_eq.
      rewrite E in H. discriminate.
    + now apply NoDup_filter.
Qed.

(** [sorted(set(l))] is sorted, has no repetition and holds the elements
    of [l]; it is the same list for two lists of the same elements. *)
Lemma sorted_unique_spec (l : list A) :
  StronglySorted (Py.le_by leb) (Py.sorted_by leb (Py.unique_by eqb l))
  /\ NoDup (Py.sorted_by leb (Py.unique_by eqb l))
  /\ forall x, In x (Py.sorted_by leb (Py.unique_by eqb l)) <-> In x l.
Proof.
  split; [apply sorted_by_sorted|]. split.
  - eapply Permutation_NoDup; [apply sorted_by_perm | apply unique_by_nodup].
  - intros x. split; intros Hx.
    + apply unique_by_in.
      eapply Permutation_in; [apply Permutation_sym, sorted_by_perm | exact Hx].
    + eapply Permutation_in; [apply sorted_by_perm | now apply unique_by_in].
Qed.

Lemma sorted_unique_same_set (l1 l2 : list A) :
  (forall x, In x l1 <-> In x l2) ->
  Py.sorted_by leb (Py.unique_by eqb l1) = Py.sorted_by leb (Py.unique_by eqb l2).
Proof.
  intros H.
  destruct (sorted_unique_spec l1) as (S1 & N1 & I1).
  destruct (sorted_unique_spec l2) as (S2 & N2 & I2).
  apply sorted_unique_repr; auto.
  intros x. rewrite I1, I2. apply H.
Qed.

End Sorting.

(** ** The order of strings *)

Lemma ascii_compare_spec (x y : ascii) :
  CompareSpec (x = y) (N_of_ascii x < N_of_ascii y)%N
              (N_of_ascii y < N_of_ascii x)%N (Ascii.compare x y).
Proof.
  unfold Ascii.compare.
  destruct (N.compare_spec (N_of_ascii x) (N_of_ascii y)) as [H | H | H];
    constructor; auto.
  rewrite <- (ascii_N_embedding x), <- (ascii_N_embedding y). now rewrite H.
Qed.

Lemma string_leb_trans (a b c : string) :
  String.leb a b = true -> String.leb b c = true -> String.leb a c = true.
Proof.
  revert b c. unfold String.leb.
  induction a as [|x a IH]; intros [|y b] [|z c]; cbn; try easy.
  destruct (ascii_compare_spec x y), (ascii_compare_spec y z),
    (ascii_compare_spec x z); subst; try easy; try lia.
  apply IH.
Qed.

Lemma string_sorted_same_set (l1 l2 : list string) :
  (forall x, In x l1 <-> In x l2) ->
  Py.sorted (Py.unique l1) = Py.sorted (Py.unique l2).
Proof.
  apply sorted_unique_same_set.
  - apply String.leb_total.
  - apply string_leb_trans.
  - apply String.leb_antisym.
  - apply String.eqb_eq.
Qed.

Lemma string_sorted_spec (l : list string) :
  StronglySorted (Py.le_by String.leb) (Py.sorted (Py.unique l))
  /\ NoDup (Py.sorted (Py.unique l))
  /\ forall x, In x (Py.sorted (Py.unique l)) <-> In x l.
Proof.
  apply sorted_unique_spec.
  - apply String.leb_total.
  - apply string_leb_trans.
  - apply String.eqb_eq.
Qed.

End SortFacts.

(* ================================================================== *)
(** * Properties of the grid reconstructor *)

Module GridFacts.

Import Float Classifier Grid.

(** ** Dictionaries *)

Lemma dict_set_fresh {V : Type} (d : list (string * V)) (k : string) (v : V) :
  ~ In k (map fst d) -> Py.dict_set d k v = d ++ [(k, v)].
Proof.
  unfold Py.dict_set. induction d as [|[k' v'] d IH]; simpl; intros H.
  - reflexivity.
  - destruct (String.eqb k' k) eqn:E.
    + apply String.eqb_eq in E. tauto.
    + rewrite IH by tauto. reflexivity.
Qed.

Lemma dict_zip_from {V : Type} (keys : list string) :
  forall (values : list V) (acc : list (string * V)),
    NoDup keys -> (forall k, In k keys -> ~ In k (map fst acc)) ->
    fold_left (fun d kv => Py.dict_set d (fst kv) (snd kv)) (combine keys values) acc
    = acc ++ combine keys values.
Proof.
  induction keys as [|k keys IH]; intros values acc Hnd Hfresh; simpl.
  - now rewrite app_nil_r.
  - destruct values as [|v values]; simpl; [now rewrite app_nil_r|].
    inversion Hnd as [|? ? Hk Hnd']; subst.
    rewrite dict_set_fresh by (apply Hfresh; now left).
    rewrite IH; auto.
    + now rewrite <- app_assoc.
    + intros k' Hk'. rewrite map_app, in_app_iff. simpl.
      intros [H | [H | []]].
      * apply (Hfresh k'); [now right | exact H].
      * subst k'. contradiction.
Qed.

(** Zipping keys that do not repeat pairs them in their order. *)
Lemma dict_zip_nodup {V : Type} (keys : list string) (values : list V) :
  NoDup keys -> Py.dict_zip keys values = combine keys values.
Proof.
  intros H. unfold Py.dict_zip. rewrite dict_zip_from; auto.
Qed.

Lemma nth_error_combine {K V : Type} (keys : list K) :
  forall (values : list V) (i : nat) (k : K) (v : V),
    nth_error keys i = Some k -> nth_error values i = Some v ->
    nth_error (combine keys values) i = Some (k, v).
Proof.
  induction keys as [|k0 keys IH]; intros [|v0 values] [|i] k v Hk Hv;
    cbn in *; try discriminate.
  - congruence.
  - now apply IH.
Qed.

(** The colours the function writes are the colours of the classes. *)
Lemma grid_colors (ext : externals) (results : list result_entry)
    (tile_metadata : list tile_meta) (color_map : option (list (string * string)))
    (sf : shapefile) :
  _create_grid_shapefile ext results tile_metadata color_map = Ok (Some sf) ->
  class_colors ext color_map (unique_classes_of results) = Ok (sf_class_to_color sf)
  /\ sf_unique_classes sf = unique_classes_of results.
Proof.
  unfold _create_grid_shapefile.
  destruct (class_colors ext color_map (unique_classes_of results)) as [cc|e];
    cbn [bind]; [|discriminate].
  destruct tile_metadata as [|m0 mds]; [discriminate|].
  destruct (grid_cell_size (m0 :: mds)) as [[w h]|e]; cbn [bind]; [|discriminate].
  destruct (mapM _ _) as [cells|e]; cbn [bind]; [|discriminate].
  intros H. injection H as <-. split; reflexivity.
Qed.

(** C9 -- colours depend on the set of classes only.  Without a colour
    table, two lists of results with the same set of classes get the
    same sorted list of distinct classes and the same mapping from class
    to colour, also in the grids written for them.  That list is sorted
    alphabetically, has no repetition and holds exactly the classes of
    the results; with [colorsys], the class at position i of the n
    classes is mapped to the colour of the hue i / n. *)
Theorem class_colors_depend_on_class_set (ext : externals)
    (results1 results2 : list result_entry) :
  (forall c, In c (map best_class results1) <-> In c (map best_class results2)) ->
  unique_classes_of results1 = unique_classes_of results2
  /\ class_colors ext None (unique_classes_of results1)
     = class_colors ext None (unique_classes_of results2)
  /\ (forall md1 md2 sf1 sf2,
        _create_grid_shapefile ext results1 md1 None = Ok (Some sf1) ->
        _create_grid_shapefile ext results2 md2 None = Ok (Some sf2) ->
        sf_class_to_color sf1 = sf_class_to_color sf2)
  /\ StronglySorted (Py.le_by String.leb) (unique_classes_of results1)
  /\ NoDup (unique_classes_of results1)
  /\ (forall c, In c (unique_classes_of results1) <-> In c (map best_class results1))
  /\ (forall hsv i c,
        hsv_to_rgb ext = Some hsv ->
        nth_error (unique_classes_of results1) i = Some c ->
        exists class_to_color,
          class_colors ext None (unique_classes_of results1) = Ok class_to_color
          /\ nth_error class_to_color i
             = Some (c, hue_color hsv
                          (INR i / INR (List.length (unique_classes_of results1))))).
Proof.
  intros Hset.
  assert (Heq : unique_classes_of results1 = unique_classes_of results2)
    by (apply SortFacts.string_sorted_same_set, Hset).
  destruct (SortFacts.string_sorted_spec (map best_class results1)) as (Hs & Hn & Hi).
  split; [exact Heq|]. split; [now rewrite Heq|]. split; [|split; [|split; [|split]]].
  - intros md1 md2 sf1 sf2 H1 H2.
    apply grid_colors in H1, H2. destruct H1 as [H1 _], H2 as [H2 _].
    rewrite Heq in H1. congruence.
  - exact Hs.
  - exact Hn.
  - exact Hi.
  - intros hsv i c Hhsv Hc. eexists. split; [reflexivity|].
    cbn [class_colors]. unfold _generate_class_colors. rewrite Hhsv.
    rewrite dict_zip_nodup by exact Hn.
    assert (Hlt : i < List.length (unique_classes_of results1))
      by (apply nth_error_Some; congruence).
    unfold generate_color_palette.
    set (n := List.length (unique_classes_of results1)) in *.
    assert (Hcol : nth_error (map (fun i => hue_color hsv (INR i / INR n)%R) (seq 0 n)) i
                   = Some (hue_color hsv (INR i / INR n)%R)).
    { rewrite nth_error_map.
      rewrite (nth_error_nth' (seq 0 n) 0) by (rewrite length_seq; lia).
      now rewrite seq_nth. }
    now apply nth_error_combine.
Qed.

Lemma class_colors_depend_on_class_set_witness :
  (forall c, In c (map best_class Samples.run_a) <-> In c (map best_class Samples.run_b))
  /\ unique_classes_of Samples.run_a = unique_classes_of Samples.run_b
  /\ class_colors Samples.ext None (unique_classes_of Samples.run_a)
     = class_colors Samples.ext None (unique_classes_of Samples.run_b).
Proof.
  assert (H : forall c, In c (map best_class Samples.run_a)
                        <-> In c (map best_class Samples.run_b)).
  { intros c. cbn. tauto. }
  split; [exact H|].
  pose proof (class_colors_depend_on_class_set Samples.ext Samples.run_a
                Samples.run_b H) as (H1 & H2 & _).
  split; [exact H1 | exact H2].
Defined.

(** The two classes of the sample runs, sorted. *)
Example unique_classes_run_a :
  unique_classes_of Samples.run_a
  = ["substrate;sand;fine"; "vegetation;seagrass;dense"]%string.
Proof. reflexivity. Qed.

(** ** The size of the cells *)

Local Open Scope Z_scope.

Lemma fold_min_le (l : list Z) (a : Z) :
  fold_left Z.min l a <= a /\ forall x, In x l -> fold_left Z.min l a <= x.
Proof.
  revert a; induction l as [|y l IH]; intros a; simpl.
  - split; [lia | contradiction].
  - destruct (IH (Z.min a y)) as [H1 H2]. split; [lia|].
    intros x [<- | Hx]; [lia | now apply H2].
Qed.

Lemma fold_min_in (l : list Z) (a : Z) :
  fold_left Z.min l a = a \/ In (fold_left Z.min l a) l.
Proof.
  revert a; induction l as [|y l IH]; intros a; simpl.
  - now left.
  - destruct (IH (Z.min a y)) as [H | H]; [|now right; right].
    rewrite H. destruct (Z.min_spec a y) as [[_ ->] | [_ ->]]; [now left | right; now left].
Qed.

(** The cells of the grid have the width of the narrowest tile and the
    height of the lowest tile, wherever the tiles are. *)
Lemma grid_cell_size_is_min_tile_size (tile_metadata : list tile_meta) :
  tile_metadata <> [] ->
  exists w h,
    grid_cell_size tile_metadata = Ok (w, h)
    /\ (exists m, In m tile_metadata /\ tile_width m = w)
    /\ (exists m, In m tile_metadata /\ tile_height m = h)
    /\ forall m, In m tile_metadata -> w <= tile_width m /\ h <= tile_height m.
Proof.
  destruct tile_metadata as [|m0 mds]; [congruence | intros _].
  unfold grid_cell_size. cbn.
  eexists _, _. split; [reflexivity|].
  pose proof (fold_min_le (map tile_width mds) (tile_width m0)) as [Hw1 Hw2].
  pose proof (fold_min_le (map tile_height mds) (tile_height m0)) as [Hh1 Hh2].
  split; [|split].
  - destruct (fold_min_in (map tile_width mds) (tile_width m0)) as [H | H].
    + exists m0. split; [now left | now rewrite H].
    + apply in_map_iff in H. destruct H as (m & Hm & Hin).
      exists m. split; [now right | exact Hm].
  - destruct (fold_min_in (map tile_height mds) (tile_height m0)) as [H | H].
    + exists m0. split; [now left | now rewrite H].
    + apply in_map_iff in H. destruct H as (m & Hm & Hin).
      exists m. split; [now right | exact Hm].
  - intros m [<- | Hin]; [lia|]. split.
    + apply Hw2. now apply in_map.
    + apply Hh2. now apply in_map.
Qed.

(** C1 -- the width of a cell is the width of a tile, not the spacing of
    the positions.  The tiles of size 4 that the extractor takes from
    the sample strip with an overlap of 2 lie at x = 0, 2, 4: the
    smallest difference between consecutive positions is 2, and the
    grid gets cells 4 pixels wide, the width of a tile.  On the y axis
    there is one position and the height of a cell is that of a tile. *)
Theorem grid_cell_width_is_tile_width_not_spacing :
  (exists tiles,
     Extractor.extract_geotiff_tiles Samples.strip "reef.tif" 4 2 = Ok tiles
     /\ map snd tiles = Samples.strip_metas)
  /\ sorted_positions (map tile_x Samples.strip_metas) = [0; 2; 4]
  /\ spacing_spec (map tile_x Samples.strip_metas) 4 = 2
  /\ grid_cell_size Samples.strip_metas = Ok (4, 4)
  /\ exists sf,
       _create_grid_shapefile Samples.ext Samples.strip_results
         Samples.strip_metas None = Ok (Some sf)
       /\ sf_cell_width sf = 4
       /\ map (fun c => (a_tile_x (attrs c), a_tile_width (attrs c))) (sf_cells sf)
          = [(0, 4); (2, 4); (4, 4)].
Proof.
  split; [eexists; split; reflexivity|].
  repeat (split; [reflexivity|]).
  eexists. split; [reflexivity|]. split; reflexivity.
Qed.

End GridFacts.

(* ================================================================== *)
(** * The names of the prototype files *)

Module NameFacts.

Import Prototype Classifier.

Local Open Scope string_scope.

(** ** Replacing one character by another *)

Lemma replace1_step (c c' x : ascii) (s : string) :
  Py.replace (String c "") (String c' "") (String x s)
  = String (if ascii_dec c x then c' else x) (Py.replace (String c "") (String c' "") s).
Proof.
  unfold Py.replace. cbn. destruct (ascii_dec c x); [|reflexivity].
  destruct s; reflexivity.
Qed.

Lemma replace1_chars (c c' x : ascii) (s : string) :
  Py.has_char x (Py.replace (String c "") (String c' "") s) ->
  x = c' \/ (Py.has_char x s /\ x <> c).
Proof.
  unfold Py.has_char. induction s as [|y s IH].
  - intros [].
  - rewrite replace1_step. cbn. intros [H | H].
    + destruct (ascii_dec c y); [now left | right]. split; [now left | congruence].
    + destruct (IH H) as [? | [? ?]]; [now left | right]. split; [now right | assumption].
Qed.

Lemma replace1_id (c c' : ascii) (s : string) :
  ~ Py.has_char c s -> Py.replace (String c "") (String c' "") s = s.
Proof.
  unfold Py.has_char. induction s as [|y s IH]; intros H.
  - reflexivity.
  - rewrite replace1_step. cbn in H.
    destruct (ascii_dec c y); [intuition congruence|].
    rewrite IH by tauto. reflexivity.
Qed.

Lemma replace1_inverse (c c' : ascii) (s : string) :
  ~ Py.has_char c' s ->
  Py.replace (String c' "") (String c "") (Py.replace (String c "") (String c' "") s) = s.
Proof.
  unfold Py.has_char. induction s as [|y s IH]; intros H.
  - reflexivity.
  - rewrite !replace1_step. cbn in H. rewrite IH by tauto.
    destruct (ascii_dec c y) as [-> | Hn].
    + destruct (ascii_dec c' c'); [reflexivity | congruence].
    + destruct (ascii_dec c' y); [intuition congruence | reflexivity].
Qed.

Lemma replace1_length (c c' : ascii) (s : string) :
  String.length (Py.replace (String c "") (String c' "") s) = String.length s.
Proof.
  induction s as [|y s IH]; [reflexivity|].
  rewrite replace1_step. cbn. now rewrite IH.
Qed.

(** ** Removing the occurrences of a string *)

Lemma remove_chars (old : string) (x : ascii) (s : string) :
  forall k, Py.has_char x (Py.replace_from old "" s k) -> Py.has_char x s.
Proof.
  unfold Py.has_char. induction s as [|y s IH]; intros k; cbn [Py.replace_from].
  - intros [].
  - destruct k as [|k].
    + destruct (String.prefix old (String y s)); cbn [append list_ascii_of_string In].
      * intros H. right. exact (IH _ H).
      * intros [H | H]; [now left | right; exact (IH _ H)].
    + cbn [list_ascii_of_string In]. intros H. right. exact (IH _ H).
Qed.

Lemma replace_absent (old new s : string) :
  Py.occurs old s = false -> Py.replace old new s = s.
Proof.
  unfold Py.replace. induction s as [|y s IH]; cbn [Py.occurs Py.replace_from].
  - reflexivity.
  - intros H. apply orb_false_elim in H. destruct H as [Hp Ho].
    rewrite Hp. now rewrite IH.
Qed.

Lemma prefix_length (old s : string) :
  String.prefix old s = true -> String.length old <= String.length s.
Proof.
  revert s; induction old as [|a old IH]; intros [|b s]; cbn; try discriminate; try lia.
  destruct (ascii_dec a b); [|discriminate]. intros H. apply IH in H. lia.
Qed.

Lemma remove_length (old s : string) :
  forall k,
    String.length (Py.replace_from old "" s k)
    <= String.length s - Nat.min k (String.length s).
Proof.
  induction s as [|y s IH]; intros k; cbn [Py.replace_from].
  - cbn. lia.
  - destruct k as [|k].
    + destruct (String.prefix old (String y s)) eqn:E.
      * cbn [append]. specialize (IH (String.length old - 1)).
        apply prefix_length in E. cbn [String.length] in *. lia.
      * cbn [String.length]. specialize (IH 0). cbn in *. lia.
    + specialize (IH k). cbn [String.length]. lia.
Qed.

(** Removing a string that occurs shortens. *)
Lemma remove_shortens (old s : string) :
  old <> "" -> Py.occurs old s = true ->
  String.length (Py.replace old "" s) < String.length s.
Proof.
  intros Hold. unfold Py.replace. induction s as [|y s IH]; cbn [Py.occurs].
  - destruct old; [congruence | discriminate].
  - intros H. cbn [Py.replace_from].
    destruct (String.prefix old (String y s)) eqn:E.
    + cbn [append]. pose proof (remove_length old s (String.length old - 1)) as Hl.
      apply prefix_length in E. cbn [String.length] in *.
      destruct old; [congruence|]. cbn [String.length] in *. lia.
    + cbn [orb] in H. specialize (IH H). cbn [String.length]. lia.
Qed.

(** ** The stem of a prototype file *)

Lemma rfind_dot_npy (p : string) :
  forall i, Py.rfind_dot (p ++ ".npy") i = Some (i + String.length p).
Proof.
  induction p as [|c p IH]; intros i.
  - cbn. f_equal. lia.
  - cbn [append Py.rfind_dot]. rewrite IH. cbn. f_equal. lia.
Qed.

Lemma substring_prefix (q r : string) :
  String.substring 0 (String.length q) (q ++ r) = q.
Proof.
  induction q as [|c q IH]; cbn.
  - destruct r; reflexivity.
  - now rewrite IH.
Qed.

Lemma length_app (q r : string) :
  String.length (q ++ r) = String.length q + String.length r.
Proof. induction q as [|c q IH]; cbn; [reflexivity | now rewrite IH]. Qed.

Lemma stem_output_file (class_name : string) :
  Py.stem (output_file class_name) = "query_" ++ safe_class_name class_name.
Proof.
  unfold output_file.
  set (q := "query_" ++ safe_class_name class_name).
  assert (Hq : "query_" ++ safe_class_name class_name ++ ".npy" = q ++ ".npy")
    by reflexivity.
  rewrite Hq. unfold Py.stem. rewrite rfind_dot_npy. cbn [Nat.add].
  assert (H0 : Nat.ltb 0 (String.length q) = true)
    by (apply Nat.ltb_lt; unfold q; cbn; lia).
  assert (H1 : Nat.ltb (String.length q) (String.length (q ++ ".npy") - 1) = true)
    by (apply Nat.ltb_lt; rewrite length_app; cbn; lia).
  rewrite H0, H1. cbn [andb]. apply substring_prefix.
Qed.

Lemma remove_leading_query (safe : string) :
  Py.replace "query_" "" ("query_" ++ safe) = Py.replace "query_" "" safe.
Proof.
  unfold Py.replace. cbn. destruct safe; reflexivity.
Qed.

(** The class name read back from the file written for a class. *)
Lemma recovered_name (class_name : string) :
  class_name_of_file (output_file class_name)
  = Py.replace "_" ";" (Py.replace "query_" "" (safe_class_name class_name)).
Proof.
  unfold class_name_of_file. now rewrite stem_output_file, remove_leading_query.
Qed.

(** The name read back holds no underscore, slash or space. *)
Lemma recovered_name_plain (class_name : string) :
  Py.plain (class_name_of_file (output_file class_name)).
Proof.
  rewrite recovered_name. unfold Py.plain, safe_class_name.
  repeat split; intros H;
    apply replace1_chars in H; destruct H as [H | [H Hne]];
      try discriminate; try congruence;
    apply remove_chars in H;
    apply replace1_chars in H; destruct H as [H | [H Hne1]];
      try discriminate; try congruence;
    apply replace1_chars in H; destruct H as [H | [H Hne2]];
      try discriminate; try congruence.
Qed.

(** The names that writing and reading back a prototype file recovers:
    those without underscore, slash or space in which, once the
    semicolons are underscores, ["query_"] does not occur. *)
Lemma round_trip_iff (class_name : string) :
  class_name_of_file (output_file class_name) = class_name
  <-> Py.plain class_name
      /\ Py.occurs "query_" (safe_class_name class_name) = false.
Proof.
  split.
  - intros H. split.
    + rewrite <- H. apply recovered_name_plain.
    + destruct (Py.occurs "query_" (safe_class_name class_name)) eqn:E;
        [exfalso | reflexivity].
      apply remove_shortens in E; [|discriminate].
      rewrite recovered_name in H.
      apply (f_equal String.length) in H. rewrite replace1_length in H.
      unfold safe_class_name in E at 2. rewrite !replace1_length in E. lia.
  - intros [(H1 & H2 & H3) Ho]. rewrite recovered_name.
    rewrite (replace_absent _ _ _ Ho). unfold safe_class_name.
    rewrite (replace1_id "/" "_") by
      (intros H; apply replace1_chars in H; destruct H as [H | [H _]];
       [discriminate | contradiction]).
    rewrite (replace1_id " " "_") by
      (intros H; apply replace1_chars in H; destruct H as [H | [H _]];
       [discriminate | contradiction]).
    now apply replace1_inverse.
Qed.

(** C10 -- a class name with ["query;"] in it is not read back.  The
    class name ["query;x"] holds no underscore, slash or space; its
    prototype is written to
    [query_query_x.npy], and the class name read back from that file is
    ["x"], because every occurrence of ["query_"] is removed from the
    stem and not only the leading one.  So it is for the directory that
    [create_query_vectors_auto] writes for a table with that class. *)
Theorem round_trip_drops_inner_query :
  Py.plain "query;x"
  /\ output_file "query;x" = "query_query_x.npy"
  /\ class_name_of_file (output_file "query;x") = "x"
  /\ exists files infos,
       create_query_vectors_auto Samples.query_table "mean" = Ok (files, infos)
       /\ map info_class_name infos = ["query;x"]
       /\ exists query_vectors,
            load_query_vectors (QDir (map (fun f => (fst f, Some (snd f))) files))
            = Ok query_vectors
            /\ map fst query_vectors = ["x"].
Proof.
  split.
  { unfold Py.plain, Py.has_char. cbn.
    repeat split; intros H;
      repeat (destruct H as [H | H]; [discriminate H|]); exact H. }
  split; [reflexivity|]. split; [reflexivity|].
  eexists _, _. split; [reflexivity|]. split; [reflexivity|].
  eexists. split; reflexivity.
Qed.

End NameFacts.

(* ================================================================== *)
(** * Properties of the prototype builder *)

Module PrototypeFacts.

Import Float Prototype.

Local Open Scope R_scope.

(** ** The mean *)






(** ** The median *)









(** ** The centroid *)




(** ** The toy case *)











Local Open Scope string_scope.




End PrototypeFacts.

(* ================================================================== *)
(** * Properties of the run *)

Module PipelineFacts.

Import Float Pipeline.

Local Open Scope Z_scope.

Lemma load_query_vectors_nonempty (p : Classifier.query_path)
    (query_vectors : list (string * vec)) :
  Classifier.load_query_vectors p = Ok query_vectors -> query_vectors <> [].
Proof.
  destruct p as [f [v|] | entries |]; cbn; try discriminate.
  - intros H. injection H as <-. discriminate.
  - destruct (filter Classifier.is_query_file (map fst entries)); [discriminate|].
    destruct (Classifier.load_files _ _ _); [discriminate|].
    intros H. injection H as <-. discriminate.
Qed.

(** The table of the reference embeddings loads when it can be read,
    has a row, and its embeddings have one shape. *)
Lemma load_embeddings_returns (df : list Prototype.row) :
  df <> [] -> Builder.one_shape (map snd df) = true ->
  load_embeddings (Some df) = Ok (map snd df, map fst df).
Proof.
  intros Hne Hs. unfold load_embeddings, Prototype.np_stack, Builder.one_shape in *.
  destruct df as [|r df]; [congruence|]. cbn [map] in *. now rewrite Hs.
Qed.


Section WithModel.

Variables pixels tensor : Type.
Variable src : Extractor.raster pixels.
Variable model : Embedder.clip pixels tensor.
Variables proto_norm tile_norm : vec -> fnum.
Variables (geotiff_path : string) (query_vector_path : Classifier.query_path).
Variable content : option (list Prototype.row).
Variables (tile_size overlap batch_size : Z).
Variables (geopandas : bool) (strip : string -> string) (ext : Grid.externals).
Variable color_csv : option (list (string * string)).


(** A run whose inputs load and whose raster yields K tiles, with a
    batch size of at least one and prototypes of the dimension of the
    model, classifies the K tiles and goes on to its outputs. *)
Lemma run_process_classifies (query_vectors : list (string * vec))
    (reference : matrix * list string)
    (tiles : list (pixels * tile_meta)) (d : nat)
    (create_shapefile create_geojson use_grid : bool) :
  Classifier.load_query_vectors query_vector_path = Ok query_vectors ->
  load_embeddings content = Ok reference ->
  Extractor.extract_geotiff_tiles src geotiff_path tile_size overlap = Ok tiles ->
  tiles <> [] -> 1 <= batch_size ->
  (forall q, In q query_vectors -> List.length (snd q) = d) ->
  (forall t, List.length (Embedder.encode_image model t) = d) ->
  exists results,
    Classifier.classify proto_norm tile_norm query_vectors
      (map (Embedder.embed_one model) tiles) (map snd tiles) = Ok results
    /\ List.length results = List.length tiles
    /\ map Classifier.tile_id results = seq 0 (List.length tiles)
    /\ run_process (Some src) geotiff_path (Some query_vector_path) (Some content)
                   model proto_norm tile_norm tile_size overlap batch_size
                   create_shapefile create_geojson use_grid geopandas strip ext
                   color_csv
       = (shapefile <-
            (if create_shapefile then
               create_shapefile_from_results geopandas strip ext results
                 (map snd tiles) use_grid (ColorMap.load_color_map strip ext color_csv)
             else Ok NotWritten) ;;
          geojson <-
            (if create_geojson then
               if geopandas then
                 match Geojson.create_geojson_from_results ext results (map snd tiles) with
                 | Geojson.Features cells => Ok (Some cells)
                 | Geojson.NoOutput => Ok None
                 | Geojson.KeyError class_name => Raise (KeyError class_name)
                 end
               else Ok None
             else Ok None) ;;
          Ok (mkRun results shapefile geojson)).
Proof.
  intros Hq Hr Ht Hne HB Hdq Hdm.
  destruct (ClassifierFacts.classify_ok proto_norm tile_norm query_vectors
              (map (Embedder.embed_one model) tiles) (map snd tiles) d)
    as (results & Hok & Hlen & Hres).
  - exact (load_query_vectors_nonempty _ _ Hq).
  - destruct tiles; [congruence | discriminate].
  - exact Hdq.
  - intros e He. apply in_map_iff in He. destruct He as (t & <- & _).
    unfold Embedder.embed_one. rewrite FloatFacts.normalize_by_length.
    apply Hdm.
  - now rewrite !length_map.
  - exists results. rewrite length_map in Hlen.
    split; [exact Hok|]. split; [exact Hlen|]. split.
    + apply (nth_ext _ _ 0%nat 0%nat).
      * now rewrite length_map, length_seq.
      * intros i Hi. rewrite length_map in Hi.
        rewrite seq_nth by lia.
        destruct (nth_error (map (Embedder.embed_one model) tiles) i) as [e|] eqn:Ee;
          [|apply nth_error_None in Ee; rewrite length_map in Ee; lia].
        destruct (Hres i e Ee) as (r & _ & Hri & _ & Hid & _).
        rewrite (nth_indep _ 0%nat (Classifier.tile_id r)) by (rewrite length_map; lia).
        rewrite map_nth. now rewrite (nth_error_nth _ _ _ Hri).
    + unfold run_process. rewrite Hq, Hr, Ht. cbn [bind].
      destruct tiles as [|t0 rest] eqn:Et; [congruence|]. rewrite <- Et in *.
      rewrite (EmbedderFacts.process_tiles_in_batches_spec _ _ model tiles batch_size HB).
      cbn [bind]. rewrite Hok. reflexivity.
Qed.

End WithModel.

End PipelineFacts.


(* ================================================================== *)
(** * The scan of the extractor: what is kept, where, in which order *)

Module ScanFacts.

Import Extractor Candidates.

Local Open Scope Z_scope.

Section WithPixels.

Variable pixels : Type.
Variable src : raster pixels.
Variable path : string.

(** A row of the scan, candidate by candidate. *)
Lemma scan_row_cons (tile_size y r x : Z) (xs : list Z) (c : Z) :
  scan_row src path tile_size y r (x :: xs) c
  = (if passes src tile_size x y then [tile_at src path tile_size x y r c] else [])
    ++ scan_row src path tile_size y r xs (c + 1).
Proof.
  cbn [scan_row]. unfold passes, tile_at.
  destruct ((Z.min tile_size (width src - x) <? tile_size)
            || (Z.min tile_size (height src - y) <? tile_size))%bool;
    [reflexivity|].
  cbn [negb andb].
  destruct (any_masked src _); [reflexivity|]. cbn [negb andb].
  destruct (rgb_shape src _) as [[h w] ch].
  destruct (negb (ch =? 3) || negb (h =? tile_size) || negb (w =? tile_size))%bool;
    reflexivity.
Qed.

(** The tiles of a row are the candidates of the row that pass, each
    with the index of its candidate as column. *)
Lemma in_scan_row (tile_size y r : Z) (xs : list Z) :
  forall c t,
    In t (scan_row src path tile_size y r xs c) <->
    exists i x,
      nth_error xs i = Some x /\ passes src tile_size x y = true
      /\ t = tile_at src path tile_size x y r (c + Z.of_nat i).
Proof.
  induction xs as [|x xs IH]; intros c t.
  - cbn. split; [contradiction|]. intros (i & x & H & _). destruct i; discriminate.
  - rewrite scan_row_cons, in_app_iff, IH. split.
    + intros [H | (i & x' & Hn & Hp & Ht)].
      * destruct (passes src tile_size x y) eqn:E; [|contradiction].
        destruct H as [<- | []]. exists 0%nat, x.
        replace (c + Z.of_nat 0) with c by lia. auto.
      * exists (S i), x'. repeat split; auto. rewrite Ht. f_equal. lia.
    + intros ([|i] & x' & Hn & Hp & Ht).
      * cbn in Hn. injection Hn as <-. left.
        replace (c + Z.of_nat 0) with c in Ht by lia. rewrite Hp, Ht. now left.
      * right. exists i, x'. repeat split; auto. rewrite Ht. f_equal. lia.
Qed.

Lemma in_scan_rows (tile_size : Z) (xs ys : list Z) :
  forall r t,
    In t (scan_rows src path tile_size ys r xs) <->
    exists j y i x,
      nth_error ys j = Some y /\ nth_error xs i = Some x
      /\ passes src tile_size x y = true
      /\ t = tile_at src path tile_size x y (r + Z.of_nat j) (0 + Z.of_nat i).
Proof.
  induction ys as [|y ys IH]; intros r t.
  - cbn. split; [contradiction|]. intros (j & y & i & x & H & _). destruct j; discriminate.
  - cbn [scan_rows]. rewrite in_app_iff, in_scan_row, IH. split.
    + intros [(i & x & Hn & Hp & Ht) | (j & y' & i & x & Hj & Hn & Hp & Ht)].
      * exists 0%nat, y, i, x. replace (r + Z.of_nat 0) with r by lia. cbn. auto.
      * exists (S j), y', i, x. repeat split; auto. rewrite Ht. f_equal. lia.
    + intros ([|j] & y' & i & x & Hj & Hn & Hp & Ht).
      * cbn in Hj. injection Hj as <-. left. exists i, x.
        replace (r + Z.of_nat 0) with r in Ht by lia. auto.
      * right. exists j, y', i, x. repeat split; auto. rewrite Ht. f_equal. lia.
Qed.

(** The candidates of a scan with a positive step. *)
Lemma nth_range (stop step : Z) (xs : list Z) (i : nat) (x : Z) :
  0 < step -> Py.range 0 stop step = Ok xs ->
  (nth_error xs i = Some x <-> x = Z.of_nat i * step /\ x < stop).
Proof.
  intros Hs. unfold Py.range.
  replace (step =? 0) with false by (symmetry; apply Z.eqb_neq; lia).
  intros H. injection H as <-. unfold Py.range_len.
  replace (0 <? step) with true by (symmetry; apply Z.ltb_lt; lia).
  rewrite Z.sub_0_r, nth_error_map.
  set (n := Z.to_nat (Z.max 0 ((stop + step - 1) / step))).
  assert (Hn : (i < n)%nat <-> Z.of_nat i * step < stop).
  { unfold n.
    pose proof (Z.div_mod (stop + step - 1) step ltac:(lia)) as Hdm.
    pose proof (Z.mod_pos_bound (stop + step - 1) step ltac:(lia)) as Hb.
    split; intros H.
    - assert (Z.of_nat i < (stop + step - 1) / step) by lia. nia.
    - assert (Z.of_nat i < (stop + step - 1) / step) by nia. lia. }
  split.
  - intros H. destruct (nth_error (seq 0 n) i) as [k|] eqn:E; [|discriminate].
    cbn in H. injection H as <-.
    assert (Hi : (i < n)%nat).
    { pose proof (proj1 (nth_error_Some (seq 0 n) i)) as Hs'.
      rewrite length_seq in Hs'. apply Hs'. congruence. }
    rewrite (nth_error_nth' _ 0%nat) in E by (rewrite length_seq; exact Hi).
    rewrite seq_nth in E by exact Hi. injection E as <-.
    split; [lia | now apply Hn].
  - intros [-> Hlt]. apply Hn in Hlt.
    rewrite (nth_error_nth' _ 0%nat) by (rewrite length_seq; exact Hlt).
    rewrite seq_nth by exact Hlt. cbn. f_equal; lia.
Qed.

(** What the tests of the loop amount to for a positive tile size. *)
Lemma passes_spec (tile_size x y : Z) :
  0 < tile_size ->
  (passes src tile_size x y = true <->
   x + tile_size <= width src /\ y + tile_size <= height src
   /\ any_masked src (mkWindow x y tile_size tile_size) = false
   /\ 3 <= count src).
Proof.
  intros HS. unfold passes, rgb_shape. cbn [win_height win_width].
  destruct (Z.min tile_size (width src - x) <? tile_size) eqn:Ew.
  { cbn. apply Z.ltb_lt in Ew. split; [discriminate | lia]. }
  destruct (Z.min tile_size (height src - y) <? tile_size) eqn:Eh.
  { cbn. apply Z.ltb_lt in Eh. split; [discriminate | lia]. }
  apply Z.ltb_ge in Ew, Eh.
  replace (Z.min tile_size (width src - x)) with tile_size by lia.
  replace (Z.min tile_size (height src - y)) with tile_size by lia.
  cbn [orb negb andb].
  replace (Z.max 0 tile_size =? tile_size) with true by (symmetry; apply Z.eqb_eq; lia).
  destruct (any_masked src (mkWindow x y tile_size tile_size)); cbn [negb andb].
  { split; [discriminate | intros (_ & _ & H & _); discriminate]. }
  destruct (Z.max 0 (Z.min (count src) 3) =? 3) eqn:Ec; cbn [negb orb].
  - apply Z.eqb_eq in Ec. split; [intros _ | reflexivity]. repeat split; lia.
  - apply Z.eqb_neq in Ec. split; [discriminate | intros (_ & _ & _ & H); lia].
Qed.

(** The tiles of a scan with a positive tile size and a positive step:
    the candidates [(c * step, r * step)] inside the raster that pass
    the tests, [r] and [c] being the counters. *)
Lemma extract_characterised (tile_size overlap : Z) :
  0 < tile_size -> overlap < tile_size ->
  exists tiles,
    extract_geotiff_tiles src path tile_size overlap = Ok tiles
    /\ forall t,
         In t tiles <->
         exists r c : nat,
           Z.of_nat c * (tile_size - overlap) < width src
           /\ Z.of_nat r * (tile_size - overlap) < height src
           /\ passes src tile_size (Z.of_nat c * (tile_size - overlap))
                     (Z.of_nat r * (tile_size - overlap)) = true
           /\ t = tile_at src path tile_size (Z.of_nat c * (tile_size - overlap))
                          (Z.of_nat r * (tile_size - overlap))
                          (Z.of_nat r) (Z.of_nat c).
Proof.
  intros HS HO.
  destruct (ExtractorFacts.extract_returns pixels src path tile_size overlap
              ltac:(lia) ltac:(lia)) as (xs & ys & Hxs & Hys & He).
  exists (scan_rows src path tile_size ys 0 xs). split; [exact He|].
  intros t. rewrite in_scan_rows. split.
  - intros (j & y & i & x & Hj & Hi & Hp & Ht).
    apply (nth_range (height src) (tile_size - overlap) ys j y ltac:(lia) Hys) in Hj.
    apply (nth_range (width src) (tile_size - overlap) xs i x ltac:(lia) Hxs) in Hi.
    destruct Hj as [-> Hj], Hi as [-> Hi]. exists j, i. auto.
  - intros (r & c & Hc & Hr & Hp & Ht).
    exists r, (Z.of_nat r * (tile_size - overlap)), c,
      (Z.of_nat c * (tile_size - overlap)).
    repeat split; auto.
    + apply (nth_range (height src) (tile_size - overlap) ys r _ ltac:(lia) Hys). auto.
    + apply (nth_range (width src) (tile_size - overlap) xs c _ ltac:(lia) Hxs). auto.
Qed.

(** ** The order of the tiles *)

Lemma sorted_app {A : Type} (R : A -> A -> Prop) (l1 l2 : list A) :
  StronglySorted R l1 -> StronglySorted R l2 ->
  (forall a b, In a l1 -> In b l2 -> R a b) ->
  StronglySorted R (l1 ++ l2).
Proof.
  intros H1 H2 H. induction H1 as [|a l1 Hs IH Hall]; cbn; [exact H2|].
  constructor.
  - apply IH. intros x b Hx Hb. apply H; [now right | exact Hb].
  - apply Forall_app. split; [exact Hall|].
    apply Forall_forall. intros b Hb. apply H; [now left | exact Hb].
Qed.

Lemma sorted_nodup {A B : Type} (R : A -> A -> Prop) (f : A -> B) (l : list A) :
  StronglySorted R l ->
  (forall a b, In a l -> In b l -> R a b -> f a <> f b) ->
  NoDup (map f l).
Proof.
  induction 1 as [|a l Hs IH Hall]; intros H; cbn; constructor.
  - intros Hin. apply in_map_iff in Hin. destruct Hin as (b & Hb & Hin).
    rewrite Forall_forall in Hall.
    apply (H a b); [now left | now right | now apply Hall | now symmetry].
  - apply IH. intros x y Hx Hy. apply H; now right.
Qed.

Lemma scan_row_sorted (tile_size y r : Z) (xs : list Z) :
  forall c, StronglySorted scan_lt (map snd (scan_row src path tile_size y r xs c)).
Proof.
  induction xs as [|x xs IH]; intros c.
  - constructor.
  - rewrite scan_row_cons.
    destruct (passes src tile_size x y); cbn [app map]; [|apply IH].
    constructor; [apply IH|].
    apply Forall_forall. intros m Hm. apply in_map_iff in Hm.
    destruct Hm as (t & <- & Ht). apply in_scan_row in Ht.
    destruct Ht as (i & x' & _ & _ & ->). right. unfold tile_at. cbn. lia.
Qed.

Lemma scan_rows_sorted (tile_size : Z) (xs ys : list Z) :
  forall r, StronglySorted scan_lt (map snd (scan_rows src path tile_size ys r xs)).
Proof.
  induction ys as [|y ys IH]; intros r.
  - constructor.
  - cbn [scan_rows]. rewrite map_app. apply sorted_app.
    + apply scan_row_sorted.
    + apply IH.
    + intros a b Ha Hb. apply in_map_iff in Ha, Hb.
      destruct Ha as (t & <- & Ht), Hb as (u & <- & Hu).
      apply in_scan_row in Ht. apply in_scan_rows in Hu.
      destruct Ht as (i & x & _ & _ & ->).
      destruct Hu as (j & y' & i' & x' & _ & _ & _ & ->).
      left. unfold tile_at. cbn. lia.
Qed.



End WithPixels.

(** X1 -- the scan misses no tile.  With a positive tile size S and an
    overlap below S, every window of the scan (at column c and row r of
    the scan, that is at pixel (c (S - O), r (S - O))) that lies inside
    the raster and holds no masked pixel is returned as a tile, provided
    the raster has at least three bands; the tile carries r and c as its
    row and column. *)
Theorem scan_keeps_every_full_unmasked_window (pixels : Type) (src : raster pixels)
    (path : string) (tile_size overlap : Z) (r c : nat) :
  0 < tile_size -> overlap < tile_size -> 3 <= count src ->
  let x := Z.of_nat c * (tile_size - overlap) in
  let y := Z.of_nat r * (tile_size - overlap) in
  x + tile_size <= width src -> y + tile_size <= height src ->
  (forall i j, x <= i < x + tile_size -> y <= j < y + tile_size ->
               mask_at src i j <> 0) ->
  exists tiles t,
    extract_geotiff_tiles src path tile_size overlap = Ok tiles
    /\ In t tiles
    /\ position (snd t) = (x, y)
    /\ (row (snd t), col (snd t)) = (Z.of_nat r, Z.of_nat c)
    /\ (tile_width (snd t), tile_height (snd t)) = (tile_size, tile_size).
Proof.
  intros HS HO Hb x y Hx Hy Hm.
  destruct (extract_characterised pixels src path tile_size overlap HS HO)
    as (tiles & He & Hin).
  exists tiles, (tile_at src path tile_size x y (Z.of_nat r) (Z.of_nat c)).
  split; [exact He|]. split.
  - apply Hin. exists r, c. fold x y. repeat split; try lia.
    apply passes_spec; [exact HS|]. repeat split; auto.
    apply ExtractorFacts.any_masked_false. exact Hm.
  - unfold tile_at, position. cbn.
    replace (Z.min tile_size (width src - x)) with tile_size by lia.
    replace (Z.min tile_size (height src - y)) with tile_size by lia.
    repeat split.
Qed.

Lemma scan_keeps_every_full_unmasked_window_witness :
  exists tiles t,
    extract_geotiff_tiles Samples.reef "reef.tif" 2 0 = Ok tiles
    /\ In t tiles
    /\ position (snd t) = (2, 2)
    /\ (row (snd t), col (snd t)) = (1, 1)
    /\ (tile_width (snd t), tile_height (snd t)) = (2, 2).
Proof.
  apply (scan_keeps_every_full_unmasked_window Z Samples.reef "reef.tif" 2 0 1 1);
    cbn; try lia.
  intros i j Hi Hj. destruct ((i =? 2) && (j =? 1))%bool eqn:E; [|discriminate].
  apply andb_prop in E. lia.
Defined.

(** X2 -- where the tiles lie.  With a positive tile size S and an
    overlap below S, every tile returned has non-negative row and column
    counters, lies at pixel (col (S - O), row (S - O)), fits inside the
    raster and records the window (x, y, S, S) and the name of the
    file. *)
Theorem tiles_lie_on_the_scan_inside_the_raster (pixels : Type) (src : raster pixels)
    (path : string) (tile_size overlap : Z) :
  0 < tile_size -> overlap < tile_size ->
  exists tiles,
    extract_geotiff_tiles src path tile_size overlap = Ok tiles
    /\ forall t, In t tiles ->
         0 <= row (snd t) /\ 0 <= col (snd t)
         /\ tile_x (snd t) = col (snd t) * (tile_size - overlap)
         /\ tile_y (snd t) = row (snd t) * (tile_size - overlap)
         /\ 0 <= tile_x (snd t) /\ tile_x (snd t) + tile_size <= width src
         /\ 0 <= tile_y (snd t) /\ tile_y (snd t) + tile_size <= height src
         /\ window (snd t) = mkWindow (tile_x (snd t)) (tile_y (snd t)) tile_size tile_size
         /\ fst t = read_rgb src (window (snd t))
         /\ source_file (snd t) = path.
Proof.
  intros HS HO.
  destruct (extract_characterised pixels src path tile_size overlap HS HO)
    as (tiles & He & Hin).
  exists tiles. split; [exact He|]. intros t Ht.
  apply Hin in Ht. destruct Ht as (r & c & Hc & Hr & Hp & ->).
  apply passes_spec in Hp; [|exact HS]. destruct Hp as (Hx & Hy & _ & _).
  unfold tile_at. cbn.
  replace (Z.min tile_size (width src - Z.of_nat c * (tile_size - overlap)))
    with tile_size by lia.
  replace (Z.min tile_size (height src - Z.of_nat r * (tile_size - overlap)))
    with tile_size by lia.
  repeat split; try lia; nia.
Qed.

Lemma tiles_lie_on_the_scan_inside_the_raster_witness :
  0 < 4 /\ 2 < 4 /\
  exists tiles,
    extract_geotiff_tiles Samples.strip "reef.tif" 4 2 = Ok tiles
    /\ forall t, In t tiles ->
         0 <= row (snd t) /\ 0 <= col (snd t)
         /\ tile_x (snd t) = col (snd t) * (4 - 2)
         /\ tile_y (snd t) = row (snd t) * (4 - 2)
         /\ 0 <= tile_x (snd t) /\ tile_x (snd t) + 4 <= width Samples.strip
         /\ 0 <= tile_y (snd t) /\ tile_y (snd t) + 4 <= height Samples.strip
         /\ window (snd t) = mkWindow (tile_x (snd t)) (tile_y (snd t)) 4 4
         /\ fst t = read_rgb Samples.strip (window (snd t))
         /\ source_file (snd t) = "reef.tif"%string.
Proof.
  split; [lia | split; [lia |]].
  apply (tiles_lie_on_the_scan_inside_the_raster Z Samples.strip "reef.tif" 4 2); lia.
Defined.

(** X3 -- the order of the tiles.  With a positive tile size and an
    overlap below it, the tiles are returned in the order of the scan,
    row by row and inside a row column by column, each pair of counters
    once; no two tiles lie at the same pixel position. *)
Theorem tiles_in_scan_order (pixels : Type) (src : raster pixels)
    (path : string) (tile_size overlap : Z) :
  0 < tile_size -> overlap < tile_size ->
  exists tiles,
    extract_geotiff_tiles src path tile_size overlap = Ok tiles
    /\ StronglySorted scan_lt (map snd tiles)
    /\ NoDup (map (fun t => position (snd t)) tiles).
Proof.
  intros HS HO.
  destruct (extract_characterised pixels src path tile_size overlap HS HO)
    as (tiles & He & Hin).
  exists tiles. split; [exact He|].
  assert (Hs : StronglySorted scan_lt (map snd tiles)).
  { destruct (ExtractorFacts.extract_returns pixels src path tile_size overlap
                ltac:(lia) ltac:(lia)) as (xs & ys & _ & _ & He').
    rewrite He in He'. injection He' as ->. apply scan_rows_sorted. }
  split; [exact Hs|].
  rewrite <- (map_map snd position). apply (sorted_nodup scan_lt); [exact Hs|].
  intros a b Ha Hb Hlt Heq. apply in_map_iff in Ha, Hb.
  destruct Ha as (t & <- & Ht), Hb as (u & <- & Hu).
  apply Hin in Ht, Hu.
  destruct Ht as (r & c & _ & _ & _ & ->), Hu as (r' & c' & _ & _ & _ & ->).
  unfold scan_lt, position, tile_at in *. cbn in *.
  injection Heq as Hx Hy. nia.
Qed.

Lemma tiles_in_scan_order_witness :
  0 < 2 /\ 0 < 2 /\
  exists tiles,
    extract_geotiff_tiles Samples.reef "reef.tif" 2 0 = Ok tiles
    /\ StronglySorted scan_lt (map snd tiles)
    /\ NoDup (map (fun t => position (snd t)) tiles).
Proof.
  split; [lia | split; [lia |]].
  apply (tiles_in_scan_order Z Samples.reef "reef.tif" 2 0); lia.
Defined.

End ScanFacts.
(* ================================================================== *)
(** * Runs that end without tiles, runs that cover every tile *)

Module RunFacts.

Import Float Pipeline.

Local Open Scope Z_scope.






End RunFacts.

(* ================================================================== *)
(** * The batch size at its edges *)

Module BatchFacts.

Import Float Embedder.

Local Open Scope Z_scope.

(** X6 -- a batch size that is not positive.  With the batch size 0 the
    embedder raises [ZeroDivisionError]; with a negative batch size it
    raises nothing and returns no embedding and no metadata, however
    many tiles it is given. *)
Theorem nonpositive_batch_size (pixels tensor : Type) (m : clip pixels tensor)
    (tiles : list (pixels * tile_meta)) (batch_size : Z) :
  batch_size <= 0 ->
  process_tiles_in_batches tiles m batch_size
  = if batch_size =? 0 then Raise ZeroDivisionError else Ok ([], []).
Proof.
  intros HB. unfold process_tiles_in_batches, Py.floordiv, Py.range.
  destruct (batch_size =? 0) eqn:E; [reflexivity|].
  apply Z.eqb_neq in E. cbn [bind]. unfold Py.range_len.
  replace (0 <? batch_size) with false by (symmetry; apply Z.ltb_ge; lia).
  set (n := Py.len tiles). assert (Hn : 0 <= n) by (unfold n, Py.len; lia).
  pose proof (Z.div_mod (0 - n - batch_size - 1) (- batch_size) ltac:(lia)) as Hdm.
  pose proof (Z.mod_pos_bound (0 - n - batch_size - 1) (- batch_size) ltac:(lia)) as Hb.
  replace (Z.to_nat (Z.max 0 ((0 - n - batch_size - 1) / - batch_size)))
    with 0%nat by nia.
  reflexivity.
Qed.

Lemma nonpositive_batch_size_witness :
  process_tiles_in_batches Samples.five_tiles Samples.toy_clip (-4) = Ok ([], []).
Proof.
  exact (nonpositive_batch_size Z Z Samples.toy_clip Samples.five_tiles (-4)
           ltac:(lia)).
Defined.

End BatchFacts.

(* ================================================================== *)
(** * The best class: ties, and the scale of the prototypes *)

Module BestClassFacts.

Import Float Classifier.

(** An entry strictly below another in the order of [max]. *)
Lemma below_trans_l (x best b : fnum) :
  tle x best = true -> tle b best = false -> tle b x = false.
Proof.
  intros H1 H2. destruct (tle b x) eqn:E; [|reflexivity].
  rewrite (FloatFacts.tle_trans _ _ _ E H1) in H2. discriminate.
Qed.

Lemma below_trans_r (best x b : fnum) :
  tle x best = false -> tle b x = false -> tle b best = false.
Proof.
  intros H1 H2. destruct (tle b best) eqn:E; [|reflexivity].
  pose proof (FloatFacts.tle_total _ _ H1) as H3.
  rewrite (FloatFacts.tle_trans _ _ _ E H3) in H2. discriminate.
Qed.

(** The scan returns the first of the largest entries: every entry
    before the one it returns is strictly below it. *)
Lemma scan_max_first (l : list fnum) :
  forall best_i best i,
    best_i < i ->
    let r := scan_max best_i best i l in
    ((fst r = best_i /\ snd r = best)
     \/ (i <= fst r /\ tle (snd r) best = false))
    /\ forall k x, nth_error l k = Some x -> i + k < fst r -> tle (snd r) x = false.
Proof.
  induction l as [|x l IH]; intros best_i best i Hlt; cbn.
  - split; [now left|]. intros [|k] y H; discriminate.
  - destruct (tle x best) eqn:E.
    + destruct (IH best_i best (S i) ltac:(lia)) as [H1 H2]. split.
      * destruct H1 as [H1 | [H1 H1']]; [now left | right]. split; [lia | exact H1'].
      * intros [|k] y Hy Hk; cbn in Hy.
        -- injection Hy as <-.
           destruct H1 as [[H1 _] | [_ H1]]; [lia|].
           exact (below_trans_l _ _ _ E H1).
        -- apply (H2 k y Hy). lia.
    + destruct (IH i x (S i) ltac:(lia)) as [H1 H2]. split.
      * right. destruct H1 as [[H1 H1'] | [H1 H1']].
        -- rewrite H1, H1'. split; [lia | exact E].
        -- split; [lia | exact (below_trans_r _ _ _ E H1')].
      * intros [|k] y Hy Hk; cbn in Hy.
        -- injection Hy as <-. destruct H1 as [[H1 _] | [_ H1]]; [lia | exact H1].
        -- apply (H2 k y Hy). lia.
Qed.

Lemma argmax_first (l : list fnum) (k : nat) (x : fnum) :
  nth_error l k = Some x -> k < argmax l -> tle (vmax l) x = false.
Proof.
  destruct l as [|a l]; [destruct k; discriminate|].
  unfold argmax, vmax. intros Hk Hlt.
  destruct (scan_max_first l 0 a 1 ltac:(lia)) as [H1 H2].
  destruct k as [|k]; cbn in Hk.
  - injection Hk as <-. destruct H1 as [[H1 _] | [_ H1]]; [lia | exact H1].
  - apply (H2 k x Hk). lia.
Qed.




(** ** The scale of a prototype *)

Local Open Scope R_scope.

Lemma Rsumsq_mult (s : R) (v : list R) :
  Rsumsq (map (Rmult s) v) = s * s * Rsumsq v.
Proof.
  unfold Rsumsq. induction v as [|x v IH]; cbn; [lra|]. rewrite IH. lra.
Qed.

Lemma Rnorm_mult (s : R) (v : list R) :
  0 <= s -> Rnorm (map (Rmult s) v) = s * Rnorm v.
Proof.
  intros Hs. unfold Rnorm. rewrite Rsumsq_mult.
  rewrite sqrt_mult by (try nra; apply FloatFacts.Rsumsq_nonneg).
  now rewrite sqrt_square.
Qed.

(** Dividing a vector by its norm forgets a positive factor, where the
    two norms are computed without error. *)
Lemma normalize_by_mult (vnorm : vec -> fnum) (s : R) (v : list R) :
  0 < s ->
  vnorm (fin_vec (map (Rmult s) v)) = Fin (Rnorm (map (Rmult s) v)) ->
  vnorm (fin_vec v) = Fin (Rnorm v) ->
  normalize_by vnorm (fin_vec (map (Rmult s) v)) = normalize_by vnorm (fin_vec v).
Proof.
  intros Hs Hsv Hv. unfold normalize_by, vscale_div. rewrite Hsv, Hv.
  rewrite Rnorm_mult by lra. unfold fin_vec. rewrite !map_map.
  apply map_ext_in. intros x Hx. unfold fdiv.
  destruct (Req_dec_T (Rnorm v) 0) as [Hz | Hnz].
  - assert (Hx0 : x = 0).
    { unfold Rnorm in Hz. apply sqrt_eq_0 in Hz; [|apply FloatFacts.Rsumsq_nonneg].
      pose proof (FloatFacts.Rsumsq_zero v Hz) as Hall.
      rewrite Forall_forall in Hall. now apply Hall. }
    subst x. rewrite Hz, !Rmult_0_r.
    destruct (Req_dec_T 0 0); [reflexivity | congruence].
  - destruct (Req_dec_T (s * Rnorm v) 0) as [H0 | _]; [nra|].
    f_equal. field. split; lra.
Qed.

Lemma forallb_same_lengths (n : nat) (a : list vec) :
  forall b : list vec,
    map (@List.length fnum) a = map (@List.length fnum) b ->
    forallb (fun x => Nat.eqb (List.length x) n) a
    = forallb (fun x => Nat.eqb (List.length x) n) b.
Proof.
  induction a as [|x a IH]; intros [|y b] H; cbn in *; try discriminate.
  - reflexivity.
  - injection H as Hx H. rewrite Hx. f_equal. now apply IH.
Qed.

(** Stacking succeeds or fails by the lengths of the vectors alone. *)
Lemma torch_stack_same_lengths (a b : list vec) :
  map (@List.length fnum) a = map (@List.length fnum) b ->
  match torch_stack a, torch_stack b with
  | Ok m, Ok m' => m = a /\ m' = b
  | Raise e, Raise e' => e = e'
  | _, _ => False
  end.
Proof.
  intros H. unfold torch_stack.
  destruct a as [|x a], b as [|y b]; cbn in H; try discriminate; [reflexivity|].
  injection H as Hx H. rewrite Hx, (forallb_same_lengths (List.length y) a b H).
  match goal with
  | |- context [forallb ?f b] => destruct (forallb f b)
  end; [split|]; reflexivity.
Qed.

(** X8 -- the scale of a stored prototype does not count.  Where the
    norm of every prototype is computed without error, as it is stored
    and as it is without its factor, multiplying every stored prototype
    by a positive factor of its own changes nothing in what the
    classification returns, results or error, because the prototypes are
    divided by their norms before they are compared with the tiles. *)
Theorem prototype_scale_is_irrelevant (proto_norm tile_norm : vec -> fnum)
    (prototypes : list Scaled.scaled_prototype)
    (tile_embeddings : matrix) (tile_metadata : list tile_meta) :
  (forall q, In q prototypes ->
     0 < snd q
     /\ proto_norm (snd (Scaled.stored_vector q))
        = Fin (Rnorm (map (Rmult (snd q)) (snd (fst q))))
     /\ proto_norm (snd (Scaled.plain_vector q)) = Fin (Rnorm (snd (fst q)))) ->
  classify proto_norm tile_norm (map Scaled.stored_vector prototypes)
           tile_embeddings tile_metadata
  = classify proto_norm tile_norm (map Scaled.plain_vector prototypes)
             tile_embeddings tile_metadata.
Proof.
  intros Hpos. unfold classify.
  assert (Hnames : map fst (map Scaled.stored_vector prototypes)
                   = map fst (map Scaled.plain_vector prototypes)).
  { rewrite !map_map. reflexivity. }
  assert (Hsims : similarities proto_norm tile_norm
                    (map Scaled.stored_vector prototypes) tile_embeddings
                  = similarities proto_norm tile_norm
                      (map Scaled.plain_vector prototypes) tile_embeddings).
  { unfold similarities.
    assert (Hlen : map (@List.length fnum) (map snd (map Scaled.stored_vector prototypes))
                   = map (@List.length fnum) (map snd (map Scaled.plain_vector prototypes))).
    { rewrite !map_map. apply map_ext. intros q.
      unfold Scaled.stored_vector, Scaled.plain_vector, fin_vec. cbn.
      now rewrite !length_map. }
    assert (Hnorm : normalize_rows_by proto_norm
                      (map snd (map Scaled.stored_vector prototypes))
                    = normalize_rows_by proto_norm
                        (map snd (map Scaled.plain_vector prototypes))).
    { unfold normalize_rows_by. rewrite !map_map. apply map_ext_in. intros q Hq.
      destruct (Hpos q Hq) as (Hs & Hst & Hpl).
      now apply normalize_by_mult. }
    pose proof (torch_stack_same_lengths _ _ Hlen) as Hst.
    destruct (torch_stack (map snd (map Scaled.stored_vector prototypes))) as [m|e],
      (torch_stack (map snd (map Scaled.plain_vector prototypes))) as [m'|e'];
      cbn in Hst; try contradiction.
    - destruct Hst as [-> ->]. cbn [bind]. now rewrite Hnorm.
    - now subst e'. }
  rewrite Hsims, Hnames. reflexivity.
Qed.

Lemma prototype_scale_is_irrelevant_witness :
  classify norm norm
           [("sand", fin_vec [1 * 1; 1 * 0]); ("seagrass", fin_vec [2 * 0; 2 * 1])]%string
           (map fin_vec Samples.three_embeddings) Samples.three_metas
  = classify norm norm
             [("sand", fin_vec [1; 0]); ("seagrass", fin_vec [0; 1])]%string
             (map fin_vec Samples.three_embeddings) Samples.three_metas.
Proof.
  apply (prototype_scale_is_irrelevant norm norm
           [("sand"%string, [1; 0], 1); ("seagrass"%string, [0; 1], 2)]).
  intros q [<- | [<- | []]]; cbn [fst snd Scaled.stored_vector Scaled.plain_vector];
    (split; [lra | split; apply FloatFacts.norm_fin]).
Defined.

End BestClassFacts.

(* ================================================================== *)
(** * Loading the prototypes of a directory *)

Module LoadingFacts.

Import Float Classifier Directory.

Lemma dict_set_keys {V : Type} (d : list (string * V)) (k' : string) (v' : V) (k : string) :
  In k (map fst (Py.dict_set d k' v')) <-> k = k' \/ In k (map fst d).
Proof.
  unfold Py.dict_set. induction d as [|[k0 v0] d IH]; cbn.
  - intuition congruence.
  - destruct (String.eqb k0 k') eqn:E; cbn.
    + apply String.eqb_eq in E. subst k0. intuition congruence.
    + rewrite IH. intuition congruence.
Qed.

Lemma dict_set_pairs {V : Type} (d : list (string * V)) (k' : string) (v' : V)
    (k : string) (v : V) :
  In (k, v) (Py.dict_set d k' v') -> (k = k' /\ v = v') \/ In (k, v) d.
Proof.
  unfold Py.dict_set. induction d as [|[k0 v0] d IH]; cbn.
  - intros [H | []]. injection H as <- <-. now left.
  - destruct (String.eqb k0 k') eqn:E; cbn.
    + apply String.eqb_eq in E. subst k0.
      intros [H | H]; [injection H as <- <-; now left | right; now right].
    + intros [H | H]; [right; now left|].
      destruct (IH H) as [? | ?]; [now left | right; now right].
Qed.

Lemma dict_set_nodup {V : Type} (d : list (string * V)) (k : string) (v : V) :
  NoDup (map fst d) -> NoDup (map fst (Py.dict_set d k v)).
Proof.
  intros H. induction d as [|[k0 v0] d IH]; cbn.
  - constructor; [intros [] | constructor].
  - unfold Py.dict_set. cbn. inversion H as [|? ? Hk Hd]; subst.
    destruct (String.eqb k0 k) eqn:E; cbn.
    + now constructor.
    + constructor; [|now apply IH].
      fold (@Py.dict_set V). rewrite dict_set_keys. intros [-> | Hin].
      * rewrite String.eqb_refl in E. discriminate.
      * contradiction.
Qed.

Lemma load_files_pairs (entries : list (string * option vec)) (fs : list string) :
  forall acc c v,
    In (c, v) (load_files entries fs acc) ->
    In (c, v) acc
    \/ exists f, In f fs /\ loads entries f v /\ class_name_of_file f = c.
Proof.
  induction fs as [|f fs IH]; intros acc c v; cbn.
  - now left.
  - destruct (Py.dict_get entries f) as [[w|]|] eqn:E; intros H;
      apply IH in H;
      try (destruct H as [H | (f' & Hf & Hl)];
           [now left | right; exists f'; split; [now right | exact Hl]]).
    destruct H as [H | (f' & Hf & Hl)].
    + apply dict_set_pairs in H. destruct H as [[-> ->] | H]; [right | now left].
      exists f. split; [now left | split; [exact E | reflexivity]].
    + right. exists f'. split; [now right | exact Hl].
Qed.

Lemma load_files_keys (entries : list (string * option vec)) (fs : list string) :
  forall acc c,
    In c (map fst (load_files entries fs acc)) <->
    In c (map fst acc)
    \/ exists f v, In f fs /\ loads entries f v /\ class_name_of_file f = c.
Proof.
  induction fs as [|f fs IH]; intros acc c; cbn.
  - split; [now left | intros [H | (f & v & [] & _)]; exact H].
  - destruct (Py.dict_get entries f) as [[w|]|] eqn:E; rewrite IH.
    + rewrite dict_set_keys. split.
      * intros [[-> | H] | (f' & v & Hf & Hl)].
        -- right. exists f, w. split; [now left | split; [exact E | reflexivity]].
        -- now left.
        -- right. exists f', v. split; [now right | exact Hl].
      * intros [H | (f' & v & [<- | Hf] & Hl & Hc)].
        -- left. now right.
        -- left. left. now symmetry.
        -- right. exists f', v. auto.
    + split.
      * intros [H | (f' & v & Hf & Hl)]; [now left | right].
        exists f', v. split; [now right | exact Hl].
      * intros [H | (f' & v & [<- | Hf] & Hl & Hc)]; [now left | | right].
        -- unfold loads in Hl. congruence.
        -- exists f', v. auto.
    + split.
      * intros [H | (f' & v & Hf & Hl)]; [now left | right].
        exists f', v. split; [now right | exact Hl].
      * intros [H | (f' & v & [<- | Hf] & Hl & Hc)]; [now left | | right].
        -- unfold loads in Hl. congruence.
        -- exists f', v. auto.
Qed.

Lemma load_files_nodup (entries : list (string * option vec)) (fs : list string) :
  forall acc, NoDup (map fst acc) -> NoDup (map fst (load_files entries fs acc)).
Proof.
  induction fs as [|f fs IH]; intros acc H; cbn; [exact H|].
  destruct (Py.dict_get entries f) as [[w|]|]; apply IH; auto.
  now apply dict_set_nodup.
Qed.

Lemma in_sorted_query_files (entries : list (string * option vec)) (f : string) :
  In f (Py.sorted (filter is_query_file (map fst entries))) <-> query_file entries f.
Proof.
  unfold query_file. rewrite <- filter_In. split.
  - apply Permutation_in. apply Permutation_sym, SortFacts.sorted_by_perm.
  - apply Permutation_in. apply SortFacts.sorted_by_perm.
Qed.

(** X9 -- the prototypes of a directory.  When the loading of a
    directory returns, it returns at least one prototype, no class
    twice; every prototype returned is the array of a file of the
    directory that is named [query_*.npy] and loads, under the class
    name made from that file name; and every such file has its class
    among those returned.  When it raises, the directory holds no file
    named [query_*.npy] that loads. *)
Theorem prototypes_of_a_directory (entries : list (string * option vec)) :
  match load_query_vectors (QDir entries) with
  | Ok query_vectors =>
      query_vectors <> []
      /\ NoDup (map fst query_vectors)
      /\ (forall c v, In (c, v) query_vectors ->
            exists f, query_file entries f /\ loads entries f v
                      /\ class_name_of_file f = c)
      /\ (forall f v, query_file entries f -> loads entries f v ->
            In (class_name_of_file f) (map fst query_vectors))
  | Raise _ => forall f v, query_file entries f -> ~ loads entries f v
  end.
Proof.
  unfold load_query_vectors.
  destruct (filter is_query_file (map fst entries)) as [|f0 fs] eqn:Ef.
  { intros f v [Hin Hq] _.
    assert (H : In f (filter is_query_file (map fst entries)))
      by (apply filter_In; auto).
    rewrite Ef in H. contradiction. }
  rewrite <- Ef. clear Ef f0 fs.
  set (npy := Py.sorted (filter is_query_file (map fst entries))).
  pose proof (load_files_keys entries npy [] ) as Hkeys.
  pose proof (load_files_pairs entries npy []) as Hpairs.
  pose proof (load_files_nodup entries npy [] (NoDup_nil _)) as Hnd.
  destruct (load_files entries npy []) as [|q qv] eqn:El.
  - intros f v Hq Hl.
    assert (H : In (class_name_of_file f) (map fst (@nil (string * vec)))).
    { apply Hkeys. right. exists f, v. split; [|auto].
      now apply in_sorted_query_files. }
    contradiction.
  - split; [discriminate|]. split; [exact Hnd|]. split.
    + intros c v Hin. destruct (Hpairs c v Hin) as [[] | (f & Hf & Hl & Hc)].
      exists f. split; [now apply in_sorted_query_files | auto].
    + intros f v Hq Hl. apply Hkeys. right. exists f, v.
      split; [now apply in_sorted_query_files | auto].
Qed.

End LoadingFacts.

(* ================================================================== *)
(** * Prototype files: names that come back, files against single calls *)

Module PrototypeFileFacts.

Import Float Prototype Classifier.

Local Open Scope string_scope.

(** X10 -- the class names that survive the file name.  The class name
    read back from the file written for a class is the class name
    itself exactly when the name holds no underscore, slash or space
    and, its semicolons taken as underscores, does not contain
    ["query_"]; whatever the class, the name read back holds no
    underscore, slash or space. *)
Theorem class_name_read_back (class_name : string) :
  (class_name_of_file (output_file class_name) = class_name
   <-> Py.plain class_name
       /\ Py.occurs "query_" (safe_class_name class_name) = false)
  /\ Py.plain (class_name_of_file (output_file class_name)).
Proof.
  split; [apply NameFacts.round_trip_iff | apply NameFacts.recovered_name_plain].
Qed.

(** ** The loop over the classes *)

Lemma mapM_forall2 {A B : Type} (f : A -> result B) (xs : list A) :
  forall ys, mapM f xs = Ok ys -> Forall2 (fun x y => f x = Ok y) xs ys.
Proof.
  induction xs as [|x xs IH]; cbn; intros ys H.
  - injection H as <-. constructor.
  - destruct (f x) as [y|e] eqn:E; cbn in H; [|discriminate].
    destruct (mapM f xs) as [ys'|e]; cbn in H; [|discriminate].
    injection H as <-. constructor; [exact E | now apply IH].
Qed.

Lemma dict_get_set {V : Type} (d : list (string * V)) (k : string) (v : V) (k' : string) :
  Py.dict_get (Py.dict_set d k v) k'
  = if String.eqb k k' then Some v else Py.dict_get d k'.
Proof.
  unfold Py.dict_get, Py.dict_set. induction d as [|[k0 v0] d IH]; cbn.
  - reflexivity.
  - destruct (String.eqb k0 k) eqn:E; cbn.
    + apply String.eqb_eq in E. subst k0. destruct (String.eqb k k'); reflexivity.
    + rewrite IH. destruct (String.eqb k0 k') eqn:E'; [|reflexivity].
      apply String.eqb_eq in E'. subst k0.
      rewrite String.eqb_sym, E. reflexivity.
Qed.

(** After a list of writes a key holds the last value written to it. *)
Lemma dict_get_fold {V : Type} (writes : list (string * V)) (k : string) :
  forall d,
    Py.dict_get (fold_left (fun d f => Py.dict_set d (fst f) (snd f)) writes d) k
    = fold_left (fun o f => if String.eqb (fst f) k then Some (snd f) else o)
                writes (Py.dict_get d k).
Proof.
  induction writes as [|[k0 v0] writes IH]; intros d; cbn [fold_left fst snd].
  - reflexivity.
  - rewrite IH, dict_get_set. reflexivity.
Qed.

Lemma last_write_absent {V : Type} (writes : list (string * V)) (k : string) :
  forall o,
    ~ In k (map fst writes) ->
    fold_left (fun o f => if String.eqb (fst f) k then Some (snd f) else o) writes o = o.
Proof.
  induction writes as [|[k0 v0] writes IH]; intros o H; cbn [fold_left fst snd].
  - reflexivity.
  - cbn in H. rewrite IH by tauto.
    destruct (String.eqb k0 k) eqn:E; [|reflexivity].
    apply String.eqb_eq in E. tauto.
Qed.

(** A key to which one value only is written holds that value. *)
Lemma last_write_unique {V : Type} (writes : list (string * V)) (k : string) (v : V) :
  forall o,
    In (k, v) writes -> (forall v', In (k, v') writes -> v' = v) ->
    fold_left (fun o f => if String.eqb (fst f) k then Some (snd f) else o) writes o
    = Some v.
Proof.
  induction writes as [|[k0 v0] writes IH]; intros o Hin Huniq; [contradiction|].
  cbn [fold_left fst snd].
  destruct (in_dec string_dec k (map fst writes)) as [Hlater | Hlast].
  - apply in_map_iff in Hlater. destruct Hlater as ([k1 v1] & Hk & Hin1).
    cbn in Hk. subst k1.
    assert (v1 = v) by (apply Huniq; now right). subst v1.
    apply IH; [exact Hin1|]. intros v' Hv'. apply Huniq. now right.
  - destruct Hin as [Heq | Hin];
      [|elim Hlast; apply in_map_iff; exists (k, v); auto].
    injection Heq as -> ->.
    rewrite last_write_absent by exact Hlast.
    now rewrite String.eqb_refl.
Qed.

Lemma forall2_in_l {A B : Type} (R : A -> B -> Prop) (xs : list A) (ys : list B) (x : A) :
  Forall2 R xs ys -> In x xs -> exists y, In y ys /\ R x y.
Proof.
  induction 1 as [|a b xs ys Hab H IH]; intros Hin; [contradiction|].
  destruct Hin as [<- | Hin].
  - exists b. split; [now left | exact Hab].
  - destruct (IH Hin) as (y & Hy & Hr). exists y. split; [now right | exact Hr].
Qed.

Lemma forall2_in_r {A B : Type} (R : A -> B -> Prop) (xs : list A) (ys : list B) (y : B) :
  Forall2 R xs ys -> In y ys -> exists x, In x xs /\ R x y.
Proof.
  induction 1 as [|a b xs ys Hab H IH]; intros Hin; [contradiction|].
  destruct Hin as [<- | Hin].
  - exists a. split; [now left | exact Hab].
  - destruct (IH Hin) as (x & Hx & Hr). exists x. split; [now right | exact Hr].
Qed.

Lemma class_rows_nonempty (df : list row) (c : string) :
  In c (map fst df) -> class_rows df c <> [].
Proof.
  intros H. apply in_map_iff in H. destruct H as ([c' v] & Hc & Hin). cbn in Hc. subst c'.
  assert (Hv : In v (class_rows df c)).
  { unfold class_rows. apply in_map_iff. exists (c, v). split; [reflexivity|].
    apply filter_In. split; [exact Hin | apply String.eqb_refl]. }
  intros E. rewrite E in Hv. contradiction.
Qed.

(** What the loop of [create_query_vectors_auto] does for one class. *)
Lemma auto_step (df : list row) (method c : string) (w : string * vec * info) :
  In c (map fst df) ->
  (embeddings <- np_stack (class_rows df c) ;;
   query_vector <- aggregate method embeddings ;;
   Ok ((output_file c, query_vector),
       mkInfo c (output_file c) (List.length (class_rows df c)) method)) = Ok w ->
  create_query_vector df c method = Ok (snd (fst w))
  /\ w = ((output_file c, snd (fst w)),
          mkInfo c (output_file c) (List.length (class_rows df c)) method).
Proof.
  intros Hc H. unfold create_query_vector.
  pose proof (class_rows_nonempty df c Hc) as Hne.
  destruct (class_rows df c) as [|r rows] eqn:E; [congruence|].
  destruct (np_stack (r :: rows)) as [m|e]; cbn [bind] in *; [|discriminate].
  destruct (aggregate method m) as [q|e]; cbn [bind] in *; [|discriminate].
  injection H as <-. split; reflexivity.
Qed.

Lemma names_of_written (F : string -> result (string * vec * info))
    (cs : list string) (ws : list (string * vec * info)) :
  Forall2 (fun c w => F c = Ok w) cs ws ->
  (forall c w, In c cs -> F c = Ok w -> info_class_name (snd w) = c) ->
  map info_class_name (map snd ws) = cs.
Proof.
  induction 1 as [|c w cs ws Hcw Hrest IH]; intros H; [reflexivity|].
  cbn [map]. f_equal.
  - apply H; [now left | exact Hcw].
  - apply IH. intros c' w' Hc'. apply H. now right.
Qed.

(** X11 -- the files of all classes against the call for one class.
    When [create_query_vectors_auto] returns, its summary lists the
    distinct classes of the table in alphabetical order, and for every
    class of the table [create_query_vector] returns as well, the
    summary holds the row of the class with the number of its
    embeddings, and the file written for the class holds the vector
    that [create_query_vector] returns, provided no other class of the
    table is written to a file of the same name. *)
Theorem files_hold_the_prototype_of_each_class (df : list row) (method : string)
    (files : list (string * vec)) (infos : list info) :
  create_query_vectors_auto df method = Ok (files, infos) ->
  map info_class_name infos = Py.sorted (Py.unique (map fst df))
  /\ forall c,
       In c (map fst df) ->
       exists v,
         create_query_vector df c method = Ok v
         /\ In (mkInfo c (output_file c) (List.length (class_rows df c)) method) infos
         /\ ((forall c', In c' (map fst df) -> output_file c' = output_file c -> c' = c) ->
             Py.dict_get files (output_file c) = Some v).
Proof.
  unfold create_query_vectors_auto.
  set (classes := Py.sorted (Py.unique (map fst df))).
  destruct (mapM _ classes) as [written|e] eqn:Em; cbn [bind]; [|discriminate].
  intros H. injection H as <- <-.
  apply mapM_forall2 in Em.
  assert (Hcls : forall c, In c classes <-> In c (map fst df))
    by apply SortFacts.string_sorted_spec.
  assert (Hw : forall c w, In c classes ->
             (embeddings <- np_stack (class_rows df c) ;;
              query_vector <- aggregate method embeddings ;;
              Ok ((output_file c, query_vector),
                  mkInfo c (output_file c) (List.length (class_rows df c)) method))
             = Ok w ->
             create_query_vector df c method = Ok (snd (fst w))
             /\ w = ((output_file c, snd (fst w)),
                     mkInfo c (output_file c) (List.length (class_rows df c)) method)).
  { intros c w Hc. apply auto_step. now apply Hcls. }
  split.
  - apply (names_of_written _ _ _ Em). intros c w Hc Hf.
    destruct (Hw c w Hc Hf) as [_ ->]. reflexivity.
  - intros c Hc. apply Hcls in Hc.
    destruct (forall2_in_l _ _ _ c Em Hc) as (w & Hin & Hf).
    destruct (Hw c w Hc Hf) as [Hsingle Heq].
    exists (snd (fst w)). split; [exact Hsingle|]. split.
    + apply in_map_iff. exists w. split; [now rewrite Heq | exact Hin].
    + intros Hfile. rewrite dict_get_fold. apply last_write_unique.
      * apply in_map_iff. exists w. split; [now rewrite Heq | exact Hin].
      * intros v' Hv'. apply in_map_iff in Hv'. destruct Hv' as (w' & Hw' & Hin').
        destruct (forall2_in_r _ _ _ w' Em Hin') as (c' & Hc' & Hf').
        destruct (Hw c' w' Hc' Hf') as [Hs' Heq'].
        rewrite Heq' in Hw'. cbn [fst snd] in Hw'.
        assert (Hname : output_file c' = output_file c) by congruence.
        assert (Hv : snd (fst w') = v') by congruence.
        assert (c' = c) by (apply Hfile; [now apply Hcls | exact Hname]). subst c'.
        rewrite Hf' in Hf. injection Hf as ->. now symmetry.
Qed.

Lemma files_hold_the_prototype_of_each_class_witness :
  exists files infos,
    create_query_vectors_auto Samples.toy_table "mean" = Ok (files, infos)
    /\ map info_class_name infos = Py.sorted (Py.unique (map fst Samples.toy_table))
    /\ forall c,
         In c (map fst Samples.toy_table) ->
         exists v,
           create_query_vector Samples.toy_table c "mean" = Ok v
           /\ In (mkInfo c (output_file c)
                         (List.length (class_rows Samples.toy_table c)) "mean") infos
           /\ ((forall c', In c' (map fst Samples.toy_table) ->
                           output_file c' = output_file c -> c' = c) ->
               Py.dict_get files (output_file c) = Some v).
Proof.
  eexists _, _. split; [reflexivity|].
  refine (files_hold_the_prototype_of_each_class Samples.toy_table "mean" _ _ eq_refl).
Defined.

End PrototypeFileFacts.
(* ================================================================== *)
(** * The cells of the grid *)

Module GridCellFacts.

Import Float Classifier Grid Cells.

(** ** Dictionaries on positions *)

Lemma pos_eqb_eq (p q : Z * Z) : pos_eqb p q = true <-> p = q.
Proof.
  destruct p as [a b], q as [c d]. unfold pos_eqb. cbn [fst snd].
  rewrite andb_true_iff, !Z.eqb_eq. split.
  - intros [-> ->]. reflexivity.
  - intros H. injection H as -> ->. split; reflexivity.
Qed.

Lemma get_set_by {V : Type} (d : list (Z * Z * V)) (k : Z * Z) (v : V) (k' : Z * Z) :
  Py.dict_get_by pos_eqb (Py.dict_set_by pos_eqb d k v) k'
  = if pos_eqb k k' then Some v else Py.dict_get_by pos_eqb d k'.
Proof.
  induction d as [|[k0 v0] d IH]; cbn.
  - reflexivity.
  - destruct (pos_eqb k0 k) eqn:E; cbn.
    + apply pos_eqb_eq in E. subst k0. destruct (pos_eqb k k'); reflexivity.
    + rewrite IH. destruct (pos_eqb k0 k') eqn:E'; [|reflexivity].
      apply pos_eqb_eq in E'. subst k0.
      destruct (pos_eqb k k') eqn:E''; [|reflexivity].
      apply pos_eqb_eq in E''. subst k'.
      assert (pos_eqb k k = true) by now apply pos_eqb_eq. congruence.
Qed.

(** ** The lookup from positions to results *)

(** What the lookup holds at a position is a result of a tile at that
    position. *)
Lemma build_lookup_sound (results : list result_entry) (metas : list tile_meta)
    (k : Z * Z) (r : result_entry) :
  Py.dict_get_by pos_eqb (build_lookup results metas) k = Some r ->
  In r results
  /\ exists m, nth_error metas (tile_id r) = Some m /\ Candidates.position m = k.
Proof.
  unfold build_lookup.
  assert (G : forall acc,
    (forall k r, Py.dict_get_by pos_eqb acc k = Some r ->
       In r results
       /\ exists m, nth_error metas (tile_id r) = Some m /\ Candidates.position m = k) ->
    forall rs, (forall r, In r rs -> In r results) ->
    forall k r,
      Py.dict_get_by pos_eqb
        (fold_left
           (fun result_lookup result =>
              match nth_error metas (tile_id result) with
              | Some meta =>
                  Py.dict_set_by pos_eqb result_lookup (tile_x meta, tile_y meta) result
              | None => result_lookup
              end) rs acc) k = Some r ->
      In r results
      /\ exists m, nth_error metas (tile_id r) = Some m /\ Candidates.position m = k).
  { intros acc Hacc rs. revert acc Hacc.
    induction rs as [|r0 rs IH]; intros acc Hacc Hsub k0 r1; cbn [fold_left].
    - apply Hacc.
    - apply IH.
      + intros k1 r2. destruct (nth_error metas (tile_id r0)) as [m|] eqn:Em.
        * rewrite get_set_by. destruct (pos_eqb (tile_x m, tile_y m) k1) eqn:E.
          -- intros H. injection H as <-. apply pos_eqb_eq in E. split.
             ++ apply Hsub. now left.
             ++ exists m. split; [exact Em | exact E].
          -- apply Hacc.
        * apply Hacc.
      + intros r2 Hr2. apply Hsub. now right. }
  apply (G [] ); [cbn; discriminate | auto].
Qed.

(** The position of every tile that has a result is in the lookup. *)
Lemma build_lookup_complete (results : list result_entry) (metas : list tile_meta)
    (r : result_entry) (m : tile_meta) :
  In r results -> nth_error metas (tile_id r) = Some m ->
  exists r', Py.dict_get_by pos_eqb (build_lookup results metas)
               (Candidates.position m) = Some r'.
Proof.
  unfold build_lookup. intros Hr Hm.
  assert (Keep : forall rs acc k,
    (exists r', Py.dict_get_by pos_eqb acc k = Some r') ->
    exists r', Py.dict_get_by pos_eqb
      (fold_left
         (fun result_lookup result =>
            match nth_error metas (tile_id result) with
            | Some meta =>
                Py.dict_set_by pos_eqb result_lookup (tile_x meta, tile_y meta) result
            | None => result_lookup
            end) rs acc) k = Some r').
  { induction rs as [|r0 rs IH]; intros acc k [r' Hr']; cbn [fold_left].
    - now exists r'.
    - apply IH. destruct (nth_error metas (tile_id r0)) as [m0|]; [|now exists r'].
      rewrite get_set_by. destruct (pos_eqb _ k); eauto. }
  generalize (@nil (Z * Z * result_entry)).
  induction results as [|r0 rs IH]; intros acc; [contradiction|].
  cbn [fold_left]. destruct Hr as [-> | Hr].
  - apply Keep. rewrite Hm, get_set_by.
    assert (E : pos_eqb (tile_x m, tile_y m) (Candidates.position m) = true)
      by now apply pos_eqb_eq.
    rewrite E. eauto.
  - now apply IH.
Qed.

(** ** One cell *)

Lemma make_cell_inv (ext : externals) (metas : list tile_meta)
    (class_to_color : list (string * rgb)) (gw gh x y : Z)
    (res : result_entry) (c : cell) :
  make_cell ext metas class_to_color gw gh x y res = Ok c ->
  exists m,
    nth_error metas (tile_id res) = Some m
    /\ polygon c
       = [ affine_apply (transform m) (IZR (x - col_off (window m)))
                        (IZR (y - row_off (window m)));
           affine_apply (transform m) (IZR (x - col_off (window m) + gw))
                        (IZR (y - row_off (window m)));
           affine_apply (transform m) (IZR (x - col_off (window m) + gw))
                        (IZR (y - row_off (window m) + gh));
           affine_apply (transform m) (IZR (x - col_off (window m)))
                        (IZR (y - row_off (window m) + gh)) ]
    /\ cell_tile_id c = tile_id res
    /\ a_best_class (attrs c) = best_class res
    /\ cell_position c = (x, y)
    /\ a_tile_width (attrs c) = gw /\ a_tile_height (attrs c) = gh
    /\ a_source_file (attrs c) = source_file m
    /\ cell_color c
       = match Py.dict_get class_to_color
                 (Py.split_first ";" (Py.replace ";;" ";" (best_class res))) with
         | Some col => col
         | None => grey
         end.
Proof.
  unfold make_cell, getitem.
  destruct (nth_error metas (tile_id res)) as [m|]; cbn [bind]; [|discriminate].
  destruct (match Py.dict_get class_to_color _ with Some col => col | None => grey end)
    as [[red green] blue] eqn:Ecol.
  intros H. injection H as <-. exists m. cbn.
  repeat split; reflexivity.
Qed.

Lemma make_cell_returns (ext : externals) (metas : list tile_meta)
    (class_to_color : list (string * rgb)) (gw gh x y : Z)
    (res : result_entry) (m : tile_meta) :
  nth_error metas (tile_id res) = Some m ->
  exists c, make_cell ext metas class_to_color gw gh x y res = Ok c.
Proof.
  intros Hm. unfold make_cell, getitem. rewrite Hm. cbn [bind].
  destruct (match Py.dict_get class_to_color _ with Some col => col | None => grey end)
    as [[red green] blue].
  eauto.
Qed.

(** ** The positions of the grid *)

Lemma sorted_positions_spec (xs : list Z) :
  NoDup (sorted_positions xs) /\ forall x, In x (sorted_positions xs) <-> In x xs.
Proof.
  unfold sorted_positions.
  assert (Htot : forall a b, Z.leb a b = true \/ Z.leb b a = true)
    by (intros a b; rewrite !Z.leb_le; lia).
  assert (Htr : forall a b c, Z.leb a b = true -> Z.leb b c = true -> Z.leb a c = true)
    by (intros a b c; rewrite !Z.leb_le; lia).
  destruct (SortFacts.sorted_unique_spec Z Z.leb Z.eqb Htot Htr Z.eqb_eq xs)
    as (_ & Hn & Hi).
  split; assumption.
Qed.

Lemma in_keys (xs ys : list Z) (k : Z * Z) :
  In k (flat_map (fun y_pos => map (fun x_pos => (x_pos, y_pos)) xs) ys)
  <-> In (fst k) xs /\ In (snd k) ys.
Proof.
  rewrite in_flat_map. split.
  - intros (y & Hy & Hk). apply in_map_iff in Hk. destruct Hk as (x & <- & Hx).
    cbn. split; assumption.
  - intros [Hx Hy]. exists (snd k). split; [exact Hy|].
    apply in_map_iff. exists (fst k). split; [now destruct k | exact Hx].
Qed.

Lemma keys_nodup (xs ys : list Z) :
  NoDup xs -> NoDup ys ->
  NoDup (flat_map (fun y_pos => map (fun x_pos => (x_pos, y_pos)) xs) ys).
Proof.
  intros Hx. induction 1 as [|y ys Hy Hys IH]; cbn [flat_map].
  - constructor.
  - apply NoDup_app.
    + apply Finite.Injective_map_NoDup; [|exact Hx].
      intros a b H. now injection H.
    + exact IH.
    + intros k Hk Hk'. apply in_map_iff in Hk. destruct Hk as (x & <- & _).
      apply in_keys in Hk'. cbn in Hk'. tauto.
Qed.

(** ** The loop over the positions *)

Lemma mapM_total {A B : Type} (f : A -> result B) (xs : list A) :
  (forall x, In x xs -> exists y, f x = Ok y) -> exists ys, mapM f xs = Ok ys.
Proof.
  induction xs as [|x xs IH]; intros H; cbn.
  - eauto.
  - destruct (H x (or_introl eq_refl)) as [y ->]. cbn.
    destruct IH as [ys ->]; [intros x' Hx'; apply H; now right|]. cbn. eauto.
Qed.

Lemma mapM_raises {A B : Type} (f : A -> result B) (xs : list A) (e : exn) :
  mapM f xs = Raise e -> exists x, In x xs /\ f x = Raise e.
Proof.
  induction xs as [|x xs IH]; cbn; [discriminate|].
  destruct (f x) as [y|e'] eqn:E; cbn.
  - destruct (mapM f xs) as [ys|e'']; cbn; [discriminate|].
    intros H. injection H as ->. destruct IH as (x' & Hx' & Hf); [reflexivity|].
    exists x'. split; [now right | exact Hf].
  - intros H. injection H as ->. exists x. split; [now left | exact E].
Qed.

(** What the function returns: the sizes of a cell, and for every
    position of the grid, in the order of the loops, the cell of the
    result that the lookup holds there. *)
Lemma grid_inv (ext : externals) (results : list result_entry)
    (metas : list tile_meta) (color_map : option (list (string * string)))
    (sf : shapefile) :
  _create_grid_shapefile ext results metas color_map = Ok (Some sf) ->
  grid_cell_size metas = Ok (sf_cell_width sf, sf_cell_height sf)
  /\ exists chunks,
       sf_cells sf = List.concat chunks
       /\ Forall2
            (fun k chunk =>
               match Py.dict_get_by pos_eqb (build_lookup results metas) k with
               | Some res =>
                   exists c,
                     make_cell ext metas (sf_class_to_color sf)
                               (sf_cell_width sf) (sf_cell_height sf)
                               (fst k) (snd k) res = Ok c
                     /\ chunk = [c]
               | None => chunk = []
               end)
            (flat_map (fun y_pos => map (fun x_pos => (x_pos, y_pos))
                                        (sorted_positions (map tile_x metas)))
                      (sorted_positions (map tile_y metas)))
            chunks.
Proof.
  unfold _create_grid_shapefile.
  destruct (class_colors ext color_map (unique_classes_of results)) as [cc|e];
    cbn [bind]; [|discriminate].
  destruct metas as [|m0 mds]; [discriminate|].
  destruct (grid_cell_size (m0 :: mds)) as [[w h]|e]; cbn [bind]; [|discriminate].
  destruct (mapM _ _) as [chunks|e] eqn:Em; cbn [bind]; [|discriminate].
  intros H. injection H as <-. cbn [sf_cell_width sf_cell_height sf_cells sf_class_to_color].
  split; [reflexivity|]. exists chunks. split; [reflexivity|].
  apply PrototypeFileFacts.mapM_forall2 in Em.
  eapply Forall2_impl; [|exact Em].
  intros k chunk. cbn beta.
  destruct (Py.dict_get_by pos_eqb _ k) as [res|].
  - destruct (make_cell _ _ _ _ _ _ _ res) as [c|e]; cbn [bind]; [|discriminate].
    intros H. injection H as <-. eauto.
  - intros H. now injection H as <-.
Qed.

(** The function fails in its colours only. *)
Lemma grid_returns (ext : externals) (results : list result_entry)
    (metas : list tile_meta) (color_map : option (list (string * string))) :
  metas <> [] ->
  match _create_grid_shapefile ext results metas color_map with
  | Ok (Some sf) => True
  | Ok None => False
  | Raise e => class_colors ext color_map (unique_classes_of results) = Raise e
  end.
Proof.
  intros Hne. unfold _create_grid_shapefile.
  destruct (class_colors ext color_map (unique_classes_of results)) as [cc|e];
    cbn [bind]; [|reflexivity].
  destruct metas as [|m0 mds]; [congruence|].
  unfold grid_cell_size. cbn [map Py.min bind].
  match goal with
  | |- context [mapM ?f ?l] => destruct (mapM_total f l) as [chunks ->]
  end; [|cbn [bind]; exact I].
  intros k _. destruct (Py.dict_get_by pos_eqb _ k) as [res|] eqn:Ek; [|eauto].
  destruct (build_lookup_sound _ _ _ _ Ek) as (_ & m & Hm & _).
  match goal with
  | |- context [make_cell ?e ?ms ?cc ?w ?h ?x ?y res] =>
      destruct (make_cell_returns e ms cc w h x y res m Hm) as [c ->]
  end.
  cbn [bind]. eauto.
Qed.

Section Chunks.

Variables (K C : Type) (pos : C -> K) (R : K -> list C -> Prop).

Hypothesis at_most_one :
  forall k chunk, R k chunk -> chunk = [] \/ exists c, chunk = [c] /\ pos c = k.

Lemma chunk_positions (keys : list K) (chunks : list (list C)) :
  Forall2 R keys chunks ->
  forall c, In c (List.concat chunks) -> In (pos c) keys.
Proof.
  induction 1 as [|k chunk keys chunks Hk Hrest IH]; cbn; [tauto|].
  intros c Hc. apply in_app_iff in Hc. destruct Hc as [Hc | Hc].
  - left. destruct (at_most_one _ _ Hk) as [-> | (c' & -> & Hp)]; [contradiction|].
    destruct Hc as [<- | []]. now symmetry.
  - right. now apply IH.
Qed.

Lemma chunks_nodup (keys : list K) (chunks : list (list C)) :
  Forall2 R keys chunks -> NoDup keys -> NoDup (map pos (List.concat chunks)).
Proof.
  induction 1 as [|k chunk keys chunks Hk Hrest IH]; cbn; intros Hn; [constructor|].
  inversion Hn as [|? ? Hnotin Hn']; subst.
  destruct (at_most_one _ _ Hk) as [-> | (c' & -> & Hp)]; cbn.
  - now apply IH.
  - constructor; [|now apply IH].
    intros Hin. apply in_map_iff in Hin. destruct Hin as (c & Hpc & Hc).
    apply Hnotin. rewrite <- Hp, <- Hpc. eapply chunk_positions; eauto.
Qed.

Lemma chunk_of_key (keys : list K) (chunks : list (list C)) (k : K) :
  Forall2 R keys chunks -> In k keys ->
  exists chunk, R k chunk /\ forall c, In c chunk -> In c (List.concat chunks).
Proof.
  induction 1 as [|k0 chunk keys chunks Hk Hrest IH]; cbn; [tauto|].
  intros [-> | Hin].
  - exists chunk. split; [exact Hk|]. intros c Hc. apply in_app_iff. now left.
  - destruct (IH Hin) as (ch & Hch & Hsub). exists ch. split; [exact Hch|].
    intros c Hc. apply in_app_iff. right. now apply Hsub.
Qed.

Lemma key_of_cell (keys : list K) (chunks : list (list C)) (c : C) :
  Forall2 R keys chunks -> In c (List.concat chunks) ->
  exists k chunk, In k keys /\ R k chunk /\ In c chunk.
Proof.
  induction 1 as [|k0 chunk keys chunks Hk Hrest IH]; cbn; [tauto|].
  intros Hc. apply in_app_iff in Hc. destruct Hc as [Hc | Hc].
  - exists k0, chunk. auto.
  - destruct (IH Hc) as (k & ch & Hin & Hr & Hcc). exists k, ch. auto.
Qed.

End Chunks.

Lemma grid_chunk_shape (ext : externals) (results : list result_entry)
    (metas : list tile_meta) (class_to_color : list (string * rgb)) (gw gh : Z)
    (k : Z * Z) (chunk : list cell) :
  match Py.dict_get_by pos_eqb (build_lookup results metas) k with
  | Some res =>
      exists c,
        make_cell ext metas class_to_color gw gh (fst k) (snd k) res = Ok c
        /\ chunk = [c]
  | None => chunk = []
  end ->
  chunk = [] \/ exists c, chunk = [c] /\ cell_position c = k.
Proof.
  destruct (Py.dict_get_by pos_eqb _ k) as [res|]; [|now left].
  intros (c & Hc & ->). right. exists c. split; [reflexivity|].
  apply make_cell_inv in Hc. destruct Hc as (m & _ & _ & _ & _ & Hp & _).
  rewrite Hp. now destruct k.
Qed.

(** Every cell is the cell of the result that the lookup holds at its
    position. *)
Lemma in_cells (ext : externals) (results : list result_entry)
    (metas : list tile_meta) (color_map : option (list (string * string)))
    (sf : shapefile) (c : cell) :
  _create_grid_shapefile ext results metas color_map = Ok (Some sf) ->
  In c (sf_cells sf) ->
  exists res,
    Py.dict_get_by pos_eqb (build_lookup results metas) (cell_position c) = Some res
    /\ make_cell ext metas (sf_class_to_color sf) (sf_cell_width sf) (sf_cell_height sf)
                 (a_tile_x (attrs c)) (a_tile_y (attrs c)) res = Ok c.
Proof.
  intros H Hc. destruct (grid_inv _ _ _ _ _ H) as (_ & chunks & Hcells & Hall).
  rewrite Hcells in Hc.
  destruct (key_of_cell _ _ _ _ _ c Hall Hc) as (k & chunk & _ & Hk & Hin).
  destruct (Py.dict_get_by pos_eqb _ k) as [res|] eqn:Ek; [|now subst chunk].
  destruct Hk as (c' & Hmk & ->). destruct Hin as [<- | []].
  pose proof (make_cell_inv _ _ _ _ _ _ _ _ _ Hmk) as (m & _ & _ & _ & _ & Hp & _).
  assert (Hk : cell_position c' = k) by (rewrite Hp; now destruct k).
  exists res. rewrite Hk. split; [exact Ek|].
  unfold cell_position in Hk. subst k. exact Hmk.
Qed.

(** ** Where a cell lies *)

Lemma affine_window (t : Affine) (w : Window) (u v : R) :
  affine_apply (window_transform t w) u v
  = affine_apply t (IZR (col_off w) + u)%R (IZR (row_off w) + v)%R.
Proof.
  unfold window_transform, affine_apply. cbn. f_equal; ring.
Qed.

(** The corners of a cell, for tiles that carry the transform of their
    window. *)
Lemma cell_footprint (ext : externals)
    (results : list result_entry) (metas : list tile_meta)
    (color_map : option (list (string * string))) (t : Affine) (sf : shapefile)
    (c : cell) :
  (forall m, In m metas -> written_for t m) ->
  _create_grid_shapefile ext results metas color_map = Ok (Some sf) ->
  In c (sf_cells sf) ->
  polygon c = footprint t (a_tile_x (attrs c)) (a_tile_y (attrs c))
                        (sf_cell_width sf) (sf_cell_height sf).
Proof.
  intros Hw H Hc. destruct (in_cells _ _ _ _ _ _ H Hc) as (res & _ & Hmk).
  apply make_cell_inv in Hmk. destruct Hmk as (m & Hm & -> & _).
  rewrite (Hw m (nth_error_In _ _ Hm)). unfold footprint.
  rewrite !affine_window.
  repeat (f_equal; try (rewrite ?plus_IZR, ?minus_IZR; ring)).
Qed.

(** X12 -- where the cells of the grid lie.  When every tile carries the
    transform of its own window in a raster with the transform T, as the
    extractor writes it, each cell of the grid is the rectangle whose
    corners are the images under T of the pixel corners of the cell:
    the cell that records the position (x, y) has the corners
    T(x, y), T(x + w, y), T(x + w, y + h), T(x, y + h), with w and h the
    width and the height of a cell.  The subtraction of the offset of the
    window undoes the translation that the transform of the window
    carries. *)
Theorem grid_cells_are_raster_footprints (ext : externals)
    (results : list result_entry) (metas : list tile_meta)
    (color_map : option (list (string * string))) (t : Affine) (sf : shapefile)
    (c : cell) :
  (forall m, In m metas -> written_for t m) ->
  _create_grid_shapefile ext results metas color_map = Ok (Some sf) ->
  In c (sf_cells sf) ->
  polygon c = footprint t (a_tile_x (attrs c)) (a_tile_y (attrs c))
                        (sf_cell_width sf) (sf_cell_height sf).
Proof.
  apply cell_footprint.
Qed.

Lemma grid_cells_are_raster_footprints_witness :
  exists sf c,
    _create_grid_shapefile Samples.ext Samples.strip_results Samples.strip_metas None
    = Ok (Some sf)
    /\ nth_error (sf_cells sf) 1 = Some c
    /\ polygon c = footprint Samples.utm 2 0 4 4.
Proof.
  eexists. eexists. split; [reflexivity|]. split; [reflexivity|].
  refine (grid_cells_are_raster_footprints Samples.ext Samples.strip_results
            Samples.strip_metas None Samples.utm _ _ _ eq_refl _).
  - intros m [<- | [<- | [<- | []]]]; reflexivity.
  - right. left. reflexivity.
Defined.

(** ** One cell for each tile *)

Lemma results_by_id (results : list result_entry) (n : nat) :
  map tile_id results = seq 0 n ->
  (forall r, In r results -> nth_error results (tile_id r) = Some r)
  /\ (forall i, (i < n)%nat -> exists r, nth_error results i = Some r /\ tile_id r = i).
Proof.
  intros Hids.
  assert (Hnth : forall p r, nth_error results p = Some r -> tile_id r = p).
  { intros p r Hp.
    assert (H : nth_error (map tile_id results) p = Some (tile_id r))
      by (rewrite nth_error_map, Hp; reflexivity).
    rewrite Hids in H.
    assert (Hlt : (p < n)%nat).
    { pose proof (proj1 (nth_error_Some (seq 0 n) p)) as Hs.
      rewrite length_seq in Hs. apply Hs. congruence. }
    rewrite (nth_error_nth' (seq 0 n) 0%nat) in H by (rewrite length_seq; exact Hlt).
    pose proof (@seq_nth n 0 p 0 Hlt) as Hs. cbn in Hs. congruence. }
  split.
  - intros r Hr. apply In_nth_error in Hr. destruct Hr as [p Hp].
    now rewrite (Hnth p r Hp).
  - intros i Hi.
    assert (Hlen : List.length results = n).
    { rewrite <- (length_map tile_id), Hids. apply length_seq. }
    destruct (nth_error results i) as [r|] eqn:Er.
    + exists r. split; [reflexivity | now apply Hnth].
    + apply nth_error_None in Er. lia.
Qed.

(** The cells of the grid against the tiles. *)
Lemma cells_cover_tiles (ext : externals)
    (results : list result_entry) (metas : list tile_meta)
    (color_map : option (list (string * string))) :
  metas <> [] ->
  NoDup (map Candidates.position metas) ->
  map tile_id results = seq 0 (List.length metas) ->
  match _create_grid_shapefile ext results metas color_map with
  | Ok (Some sf) =>
      Permutation (map cell_tile_id (sf_cells sf)) (seq 0 (List.length metas))
      /\ forall c,
           In c (sf_cells sf) ->
           exists r m,
             nth_error results (cell_tile_id c) = Some r
             /\ nth_error metas (cell_tile_id c) = Some m
             /\ a_best_class (attrs c) = best_class r
             /\ cell_position c = Candidates.position m
  | Ok None => False
  | Raise e => class_colors ext color_map (unique_classes_of results) = Raise e
  end.
Proof.
  intros Hne Hpos Hids.
  pose proof (grid_returns ext results metas color_map Hne) as Hret.
  destruct (_create_grid_shapefile ext results metas color_map) as [[sf|]|e] eqn:E;
    [|exact Hret|exact Hret].
  clear Hret.
  destruct (results_by_id _ _ Hids) as [Hown Hith].
  assert (Hcell : forall c, In c (sf_cells sf) ->
            exists r m,
              In r results /\ tile_id r = cell_tile_id c
              /\ nth_error metas (cell_tile_id c) = Some m
              /\ a_best_class (attrs c) = best_class r
              /\ cell_position c = Candidates.position m).
  { intros c Hc. destruct (in_cells _ _ _ _ _ _ E Hc) as (res & Hlk & Hmk).
    destruct (build_lookup_sound _ _ _ _ Hlk) as (Hres & m & Hm & Hp).
    apply make_cell_inv in Hmk. destruct Hmk as (_ & _ & _ & Hid & Hcl & _).
    exists res, m. rewrite Hid. auto. }
  destruct (grid_inv _ _ _ _ _ E) as (_ & chunks & Hcells & Hall).
  assert (Hshape : forall k chunk,
            match Py.dict_get_by pos_eqb (build_lookup results metas) k with
            | Some res =>
                exists c,
                  make_cell ext metas (sf_class_to_color sf) (sf_cell_width sf)
                            (sf_cell_height sf) (fst k) (snd k) res = Ok c
                  /\ chunk = [c]
            | None => chunk = []
            end ->
            chunk = [] \/ exists c, chunk = [c] /\ cell_position c = k)
    by (intros k chunk; apply grid_chunk_shape).
  split.
  - apply NoDup_Permutation.
    + (* no two cells of one tile *)
      apply (NoDup_map_inv
               (fun i => match nth_error metas i with
                         | Some m => Candidates.position m
                         | None => (0, 0)%Z
                         end)).
      rewrite map_map.
      rewrite (map_ext_in _ cell_position).
      * rewrite Hcells. eapply chunks_nodup; [exact Hshape | exact Hall |].
        apply keys_nodup; apply sorted_positions_spec.
      * intros c Hc. destruct (Hcell c Hc) as (r & m & _ & _ & Hm & _ & Hp).
        now rewrite Hm.
    + apply seq_NoDup.
    + intros i. rewrite in_seq. split.
      * intros Hi. apply in_map_iff in Hi. destruct Hi as (c & <- & Hc).
        destruct (Hcell c Hc) as (r & m & _ & _ & Hm & _).
        assert (cell_tile_id c < List.length metas)%nat
          by (apply nth_error_Some; congruence).
        lia.
      * intros [_ Hi]. cbn in Hi.
        destruct (Hith i Hi) as (r & Hr & Hri).
        destruct (nth_error metas i) as [m|] eqn:Em;
          [|apply nth_error_None in Em; lia].
        assert (Hrin : In r results) by (eapply nth_error_In; eauto).
        assert (Hrm : nth_error metas (tile_id r) = Some m) by now rewrite Hri.
        destruct (build_lookup_complete _ _ _ _ Hrin Hrm) as [r' Hlk].
        destruct (build_lookup_sound _ _ _ _ Hlk) as (Hr' & m' & Hm' & Hp').
        assert (Hsame : tile_id r' = i).
        { apply (proj1 (NoDup_nth_error (map Candidates.position metas)) Hpos).
          - rewrite length_map. apply nth_error_Some. congruence.
          - rewrite !nth_error_map, Hm', Em. cbn. now rewrite Hp'. }
        assert (Hkey : In (Candidates.position m)
                  (flat_map (fun y_pos => map (fun x_pos => (x_pos, y_pos))
                                              (sorted_positions (map tile_x metas)))
                            (sorted_positions (map tile_y metas)))).
        { apply in_keys. cbn. split; apply sorted_positions_spec; apply in_map;
            eapply nth_error_In; eauto. }
        destruct (chunk_of_key _ _ _ _ _ _ Hall Hkey) as (chunk & Hk & Hsub).
        rewrite Hlk in Hk. destruct Hk as (c & Hmk & ->).
        apply in_map_iff. exists c. split.
        -- apply make_cell_inv in Hmk. destruct Hmk as (_ & _ & _ & Hid & _).
           now rewrite Hid.
        -- rewrite Hcells. apply Hsub. now left.
  - intros c Hc. destruct (Hcell c Hc) as (r & m & Hr & Hid & Hm & Hcl & Hp).
    exists r, m. rewrite <- Hid. rewrite (Hown r Hr). rewrite Hid. auto.
Qed.

(** X13 -- one cell for each tile.  When no two tiles have the same
    position and the results are those of the tiles 0, ..., K - 1 in
    this order (K at least one), the grid fails in the table of colours
    only; when it is written it has exactly one cell for each tile: the
    tile identifiers of its cells are a rearrangement of 0, ..., K - 1,
    and each cell carries the class of the result of its tile and the
    position of that tile. *)
Theorem grid_has_one_cell_per_tile (ext : externals)
    (results : list result_entry) (metas : list tile_meta)
    (color_map : option (list (string * string))) :
  metas <> [] ->
  NoDup (map Candidates.position metas) ->
  map tile_id results = seq 0 (List.length metas) ->
  match _create_grid_shapefile ext results metas color_map with
  | Ok (Some sf) =>
      Permutation (map cell_tile_id (sf_cells sf)) (seq 0 (List.length metas))
      /\ forall c,
           In c (sf_cells sf) ->
           exists r m,
             nth_error results (cell_tile_id c) = Some r
             /\ nth_error metas (cell_tile_id c) = Some m
             /\ a_best_class (attrs c) = best_class r
             /\ cell_position c = Candidates.position m
  | Ok None => False
  | Raise e => class_colors ext color_map (unique_classes_of results) = Raise e
  end.
Proof.
  apply cells_cover_tiles.
Qed.

Lemma grid_has_one_cell_per_tile_witness :
  match _create_grid_shapefile Samples.ext Samples.strip_results Samples.strip_metas None with
  | Ok (Some sf) =>
      Permutation (map cell_tile_id (sf_cells sf)) [0; 1; 2]%nat
      /\ forall c,
           In c (sf_cells sf) ->
           exists r m,
             nth_error Samples.strip_results (cell_tile_id c) = Some r
             /\ nth_error Samples.strip_metas (cell_tile_id c) = Some m
             /\ a_best_class (attrs c) = best_class r
             /\ cell_position c = Candidates.position m
  | Ok None => False
  | Raise e =>
      class_colors Samples.ext None (unique_classes_of Samples.strip_results) = Raise e
  end.
Proof.
  refine (grid_has_one_cell_per_tile Samples.ext Samples.strip_results
            Samples.strip_metas None _ _ eq_refl).
  - discriminate.
  - repeat constructor; cbn; intuition discriminate.
Defined.

(** ** The colour of a cell *)

Lemma dict_get_in {V : Type} (d : list (string * V)) (k : string) :
  In k (map fst d) -> exists v, Py.dict_get d k = Some v.
Proof.
  unfold Py.dict_get. induction d as [|[k0 v0] d IH]; cbn; [tauto|].
  intros [-> | H].
  - rewrite String.eqb_refl. eauto.
  - destruct (String.eqb k0 k); eauto.
Qed.

Lemma dict_get_notin {V : Type} (d : list (string * V)) (k : string) :
  ~ In k (map fst d) -> Py.dict_get d k = None.
Proof.
  unfold Py.dict_get. induction d as [|[k0 v0] d IH]; cbn; [reflexivity|].
  intros H. destruct (String.eqb k0 k) eqn:E.
  - apply String.eqb_eq in E. tauto.
  - apply IH. tauto.
Qed.

Lemma map_fst_combine {K V : Type} (keys : list K) :
  forall values : list V,
    List.length keys = List.length values -> map fst (combine keys values) = keys.
Proof.
  induction keys as [|k keys IH]; intros [|v values] H; cbn in *; try discriminate.
  - reflexivity.
  - f_equal. apply IH. now injection H.
Qed.

Lemma length_concat_repeat {A : Type} (l : list A) (k : nat) :
  List.length (List.concat (repeat l k)) = (k * List.length l)%nat.
Proof.
  induction k as [|k IH]; cbn; [reflexivity|]. now rewrite length_app, IH.
Qed.

(** The generated colours are as many as the classes. *)
Lemma generated_colors_keys (ext : externals) (unique_classes : list string) :
  NoDup unique_classes ->
  map fst (_generate_class_colors ext unique_classes) = unique_classes.
Proof.
  intros Hn. unfold _generate_class_colors.
  rewrite GridFacts.dict_zip_nodup by exact Hn.
  apply map_fst_combine.
  destruct (hsv_to_rgb ext) as [hsv|].
  - unfold generate_color_palette. now rewrite length_map, length_seq.
  - rewrite length_firstn, length_concat_repeat. cbn [predefined_colors List.length].
    set (n := List.length unique_classes).
    pose proof (Nat.div_mod n 10 ltac:(lia)).
    pose proof (Nat.mod_upper_bound n 10 ltac:(lia)). lia.
Qed.

Lemma fold_colors_raise {A : Type} (F : result (list (string * rgb)) -> A ->
                                        result (list (string * rgb)))
    (cs : list A) (e : exn) :
  (forall c, F (Raise e) c = Raise e) -> fold_left F cs (Raise e) = Raise e.
Proof.
  intros H. induction cs as [|c cs IH]; cbn; [reflexivity|]. now rewrite H.
Qed.

(** The keys of a table of colours filled from a colour map. *)
Lemma table_keys (ext : externals) (cm : list (string * string))
    (key : string -> string) (cs : list string) :
  forall acc ctc,
    fold_left (table_step ext cm key) cs (Ok acc) = Ok ctc ->
    forall k, In k (map fst ctc) <-> In k (map fst acc) \/ In k cs.
Proof.
  induction cs as [|c cs IH]; intros acc ctc; cbn [fold_left].
  - intros H. injection H as <-. intros k. cbn. tauto.
  - assert (Hstep : exists v, table_step ext cm key (Ok acc) c = Ok (Py.dict_set acc c v)
                    \/ exists e, table_step ext cm key (Ok acc) c = Raise e).
    { unfold table_step. cbn [bind].
      destruct (Py.dict_get cm (key c)) as [[|a s]|].
      - exists grey. now left.
      - destruct (hex_to_rgb ext (String a s)) as [v|e]; cbn [bind].
        + exists v. now left.
        + exists grey. right. now exists e.
      - exists grey. now left. }
    destruct Hstep as [v [-> | [e ->]]].
    + intros H k. rewrite (IH _ _ H k), LoadingFacts.dict_set_keys. cbn. intuition.
    + rewrite fold_colors_raise by reflexivity. discriminate.
Qed.

(** A class for which the colour map has nothing is grey in the table. *)
Lemma table_miss (ext : externals) (cm : list (string * string))
    (key : string -> string) (cs : list string) :
  forall acc ctc,
    fold_left (table_step ext cm key) cs (Ok acc) = Ok ctc ->
    NoDup cs ->
    (forall c, ~ In c cs -> Py.dict_get ctc c = Py.dict_get acc c)
    /\ (forall c, In c cs -> Py.dict_get cm (key c) = None ->
                  Py.dict_get ctc c = Some grey).
Proof.
  induction cs as [|c0 cs IH]; intros acc ctc; cbn [fold_left].
  - intros H _. injection H as <-. split; [reflexivity | intros c []].
  - intros H Hn. inversion Hn as [|? ? Hc0 Hn']; subst.
    destruct (table_step ext cm key (Ok acc) c0) as [acc'|e] eqn:Es;
      [|rewrite fold_colors_raise in H by reflexivity; discriminate].
    destruct (IH _ _ H Hn') as [Hout Hin].
    assert (Hacc' : exists v, acc' = Py.dict_set acc c0 v
                    /\ (Py.dict_get cm (key c0) = None -> v = grey)).
    { unfold table_step in Es. cbn [bind] in Es.
      destruct (Py.dict_get cm (key c0)) as [[|a s]|].
      - injection Es as <-. exists grey. auto.
      - destruct (hex_to_rgb ext (String a s)) as [v|e]; cbn [bind] in Es;
          [|discriminate].
        injection Es as <-. exists v. split; [reflexivity | discriminate].
      - injection Es as <-. exists grey. auto. }
    destruct Hacc' as (v & -> & Hv).
    split.
    + intros c Hc. rewrite Hout by (cbn in Hc; tauto).
      rewrite PrototypeFileFacts.dict_get_set.
      destruct (String.eqb c0 c) eqn:E; [|reflexivity].
      apply String.eqb_eq in E. cbn in Hc. tauto.
    + intros c [<- | Hc] Hmiss.
      * rewrite Hout by exact Hc0. rewrite PrototypeFileFacts.dict_get_set.
        rewrite String.eqb_refl. now rewrite Hv.
      * now apply Hin.
Qed.

(** The table of colours has an entry for each class, and for nothing
    else. *)
Lemma class_colors_keys (ext : externals) (color_map : option (list (string * string)))
    (unique_classes : list string) (class_to_color : list (string * rgb)) :
  NoDup unique_classes ->
  class_colors ext color_map unique_classes = Ok class_to_color ->
  forall k, In k (map fst class_to_color) <-> In k unique_classes.
Proof.
  intros Hn. unfold class_colors.
  assert (Hgen : Ok (_generate_class_colors ext unique_classes) = Ok class_to_color ->
                 forall k, In k (map fst class_to_color) <-> In k unique_classes).
  { intros H. injection H as <-. intros k.
    now rewrite generated_colors_keys. }
  destruct color_map as [[|p cm]|]; [exact Hgen| |exact Hgen].
  intros H k.
  rewrite (table_keys ext (p :: cm) (color_key ext) unique_classes [] _ H k).
  cbn. tauto.
Qed.

(** The text before the first [';'] is not touched by the replacement
    of [';;'] with [';']. *)
Lemma first_segment_replace (s : string) :
  Py.split_first ";" (Py.replace ";;" ";" s) = Py.split_first ";" s.
Proof.
  unfold Py.replace. induction s as [|c s IH]; [reflexivity|].
  cbn [Py.replace_from].
  destruct (String.prefix ";;" (String c s)) eqn:E.
  - cbn [String.prefix] in E.
    destruct (Ascii.ascii_dec ";" c) as [<-|]; [|discriminate].
    reflexivity.
  - cbn [Py.split_first]. destruct (Ascii.eqb c ";"); [reflexivity|].
    f_equal. exact IH.
Qed.

Lemma first_segment_whole (s : string) :
  ~ Py.has_char ";" s -> Py.split_first ";" s = s.
Proof.
  unfold Py.has_char. induction s as [|c s IH]; cbn; [reflexivity|].
  intros H. destruct (Ascii.eqb c ";") eqn:E.
  - apply Ascii.eqb_eq in E. subst c. tauto.
  - f_equal. apply IH. tauto.
Qed.

Lemma dict_get_some_in {V : Type} (d : list (string * V)) (k : string) (v : V) :
  Py.dict_get d k = Some v -> In k (map fst d).
Proof.
  unfold Py.dict_get. induction d as [|[k0 v0] d IH]; cbn; [discriminate|].
  destruct (String.eqb k0 k) eqn:E.
  - apply String.eqb_eq in E. now left.
  - intros H. right. now apply IH.
Qed.

(** The colour of a cell is looked up under the first segment of its
    class. *)
Lemma cell_colour_lookup (ext : externals)
    (results : list result_entry) (metas : list tile_meta)
    (color_map : option (list (string * string))) (sf : shapefile) (c : cell) :
  _create_grid_shapefile ext results metas color_map = Ok (Some sf) ->
  In c (sf_cells sf) ->
  cell_color c
  = match Py.dict_get (sf_class_to_color sf) (first_segment (a_best_class (attrs c))) with
    | Some col => col
    | None => grey
    end
  /\ In (a_best_class (attrs c)) (map best_class results).
Proof.
  intros H Hc.
  destruct (in_cells _ _ _ _ _ _ H Hc) as (res & Hlk & Hmk).
  destruct (build_lookup_sound _ _ _ _ Hlk) as (Hres & _).
  apply make_cell_inv in Hmk.
  destruct Hmk as (_ & _ & _ & _ & Hcl & _ & _ & _ & _ & Hcol).
  rewrite first_segment_replace, <- Hcl in Hcol. split; [exact Hcol|].
  rewrite Hcl. now apply in_map.
Qed.

(** X14 -- the colour of a cell of the grid.  Each cell is drawn in the
    colour that the table of colours has under the text of its class
    before the first [';'], and in grey when the table has nothing
    there.  So the cell of a class without [';'] has the colour of its
    class, and the cell of a hierarchical class is grey unless the text
    before its first [';'] is itself the class of some result. *)
Theorem grid_cell_colour_by_first_segment (ext : externals)
    (results : list result_entry) (metas : list tile_meta)
    (color_map : option (list (string * string))) (sf : shapefile) (c : cell) :
  _create_grid_shapefile ext results metas color_map = Ok (Some sf) ->
  In c (sf_cells sf) ->
  cell_color c
  = match Py.dict_get (sf_class_to_color sf) (first_segment (a_best_class (attrs c))) with
    | Some col => col
    | None => grey
    end
  /\ (~ Py.has_char ";" (a_best_class (attrs c)) ->
      Py.dict_get (sf_class_to_color sf) (a_best_class (attrs c)) = Some (cell_color c))
  /\ (~ In (first_segment (a_best_class (attrs c))) (map best_class results) ->
      cell_color c = grey).
Proof.
  intros H Hc.
  destruct (cell_colour_lookup _ _ _ _ _ _ H Hc) as [Hcol Hcl].
  destruct (GridFacts.grid_colors _ _ _ _ _ H) as [Hcc _].
  destruct (SortFacts.string_sorted_spec (map best_class results)) as (_ & Hn & Hi).
  pose proof (class_colors_keys _ _ _ _ Hn Hcc) as Hkeys.
  split; [exact Hcol|]. split.
  - intros Hplain. unfold first_segment in Hcol.
    rewrite (first_segment_whole _ Hplain) in Hcol.
    destruct (dict_get_in (sf_class_to_color sf) (a_best_class (attrs c))) as [v Hv].
    { apply Hkeys. now apply Hi. }
    rewrite Hv in Hcol. now rewrite Hcol.
  - intros Hno. rewrite dict_get_notin in Hcol; [exact Hcol|].
    intros Hk. apply Hno. apply Hi. now apply Hkeys.
Qed.

Lemma grid_cell_colour_by_first_segment_witness :
  exists sf c,
    _create_grid_shapefile Samples.ext Samples.run_a Samples.three_metas None = Ok (Some sf)
    /\ nth_error (sf_cells sf) 0 = Some c
    /\ a_best_class (attrs c) = "vegetation;seagrass;dense"%string
    /\ cell_color c = grey.
Proof.
  eexists. eexists. split; [reflexivity|]. split; [reflexivity|].
  split; [reflexivity|].
  refine (proj2 (proj2 (grid_cell_colour_by_first_segment Samples.ext Samples.run_a
                          Samples.three_metas None _ _ eq_refl _)) _).
  - left. reflexivity.
  - cbn. intros [H | [H | [H | []]]]; discriminate.
Defined.

(** ** Colour maps and the key of a class *)

Lemma split_first_chars (x : ascii) (s : string) :
  Py.has_char x (Py.split_first ";" s) -> Py.has_char x s /\ x <> ";"%char.
Proof.
  unfold Py.has_char. induction s as [|c s IH]; cbn; [tauto|].
  destruct (Ascii.eqb c ";") eqn:E; cbn; [tauto|].
  apply Ascii.eqb_neq in E.
  intros [<- | H]; [split; [now left | exact E]|].
  destruct (IH H). split; [now right | assumption].
Qed.

(** The key under which the grid looks a class up in a colour map has
    no blank and no [';']. *)
Lemma color_key_chars (ext : externals) (c : string) :
  ~ Py.has_char " " (color_key ext c) /\ ~ Py.has_char ";" (color_key ext c).
Proof.
  unfold color_key. split; intros H; apply split_first_chars in H;
    destruct H as [H Hne]; [|congruence].
  apply NameFacts.replace1_chars in H. destruct H as [H | [_ H]];
    [discriminate | congruence].
Qed.

(** X18 -- names of a colour map that the grid cannot use.  The grid
    looks a class up in the colour map under a key in which every blank
    has been replaced by ['-'] and which ends before the first [';'].
    So when every name of a colour map (of at least one name) has a
    blank or a [';'], no class finds its colour, and every cell of the
    grid is grey. *)
Theorem grid_misses_names_with_blanks (ext : externals)
    (results : list result_entry) (metas : list tile_meta)
    (cm : list (string * string)) (sf : shapefile) (c : cell) :
  cm <> [] ->
  (forall k, In k (map fst cm) -> Py.has_char " " k \/ Py.has_char ";" k) ->
  _create_grid_shapefile ext results metas (Some cm) = Ok (Some sf) ->
  In c (sf_cells sf) ->
  cell_color c = grey.
Proof.
  intros Hne Hblank H Hc.
  destruct (cell_colour_lookup _ _ _ _ _ _ H Hc) as [Hcol _].
  destruct (Py.dict_get (sf_class_to_color sf) (first_segment (a_best_class (attrs c))))
    as [col|] eqn:Eg; [|exact Hcol].
  rewrite Hcol.
  destruct (GridFacts.grid_colors _ _ _ _ _ H) as [Hcc _].
  destruct (SortFacts.string_sorted_spec (map best_class results)) as (_ & Hn & Hi).
  pose proof (class_colors_keys _ _ _ _ Hn Hcc) as Hkeys.
  destruct cm as [|p cm']; [congruence|]. cbn [class_colors] in Hcc.
  destruct (table_miss ext (p :: cm') (color_key ext) _ [] _ Hcc Hn) as [_ Hgrey].
  rewrite Hgrey in Eg.
  - now injection Eg as <-.
  - apply Hkeys. eapply dict_get_some_in. exact Eg.
  - apply dict_get_notin. intros Hk.
    destruct (color_key_chars ext (first_segment (a_best_class (attrs c)))) as [H1 H2].
    destruct (Hblank _ Hk); tauto.
Qed.

Lemma grid_misses_names_with_blanks_witness :
  exists sf c,
    _create_grid_shapefile Samples.ext ColorSamples.reef_run Samples.three_metas
                           (Some ColorSamples.blank_map) = Ok (Some sf)
    /\ nth_error (sf_cells sf) 0 = Some c
    /\ a_best_class (attrs c) = "coral reef"%string
    /\ cell_color c = grey.
Proof.
  eexists. eexists. split; [reflexivity|]. split; [reflexivity|].
  split; [reflexivity|].
  refine (grid_misses_names_with_blanks Samples.ext ColorSamples.reef_run
            Samples.three_metas ColorSamples.blank_map _ _ _ _ eq_refl _).
  - discriminate.
  - intros k [<- | []]. left. unfold Py.has_char. cbn. tauto.
  - left. reflexivity.
Defined.

End GridCellFacts.
(* ================================================================== *)
(** * The polygons of the shapefile of single tiles *)

Module DetailedFacts.

Import Float Classifier Grid Cells Detailed.

Lemma detailed_inv (strip : string -> string) (ext : externals)
    (results : list result_entry) (metas : list tile_meta)
    (color_map : option (list (string * string))) (sf : detailed_shapefile) :
  _create_detailed_shapefile strip ext results metas color_map = Ok sf ->
  detailed_colors strip ext color_map (unique_classes_of results)
  = Ok (d_class_to_color sf)
  /\ d_cells sf
     = flat_map (fun res =>
                   match nth_error metas (tile_id res) with
                   | Some metadata =>
                       [make_polygon ext (d_class_to_color sf) res metadata]
                   | None => []
                   end)
                results.
Proof.
  unfold _create_detailed_shapefile.
  destruct (detailed_colors strip ext color_map (unique_classes_of results))
    as [cc|e]; cbn [bind]; [|discriminate].
  intros H. injection H as <-. split; reflexivity.
Qed.

Lemma in_polygons (strip : string -> string) (ext : externals)
    (results : list result_entry) (metas : list tile_meta)
    (color_map : option (list (string * string))) (sf : detailed_shapefile) (c : cell) :
  _create_detailed_shapefile strip ext results metas color_map = Ok sf ->
  In c (d_cells sf) ->
  exists res m,
    In res results /\ nth_error metas (tile_id res) = Some m
    /\ c = make_polygon ext (d_class_to_color sf) res m.
Proof.
  intros H Hc. apply detailed_inv in H. destruct H as [_ Hcells].
  rewrite Hcells in Hc. apply in_flat_map in Hc. destruct Hc as (res & Hres & Hin).
  destruct (nth_error metas (tile_id res)) as [m|] eqn:Em; [|contradiction].
  destruct Hin as [<- | []]. exists res, m. auto.
Qed.

Lemma make_polygon_attrs (ext : externals) (class_to_color : list (string * rgb))
    (res : result_entry) (m : tile_meta) :
  let c := make_polygon ext class_to_color res m in
  polygon c
  = [ affine_apply (transform m) (IZR (tile_x m)) (IZR (tile_y m));
      affine_apply (transform m) (IZR (tile_x m + tile_width m)) (IZR (tile_y m));
      affine_apply (transform m) (IZR (tile_x m + tile_width m))
                   (IZR (tile_y m + tile_height m));
      affine_apply (transform m) (IZR (tile_x m)) (IZR (tile_y m + tile_height m)) ]
  /\ cell_tile_id c = tile_id res
  /\ a_best_class (attrs c) = best_class res
  /\ cell_position c = Candidates.position m
  /\ a_tile_width (attrs c) = tile_width m
  /\ a_tile_height (attrs c) = tile_height m
  /\ cell_color c
     = match Py.dict_get class_to_color (best_class res) with
       | Some col => col
       | None => grey
       end.
Proof.
  unfold make_polygon.
  destruct (match Py.dict_get class_to_color (best_class res) with
            | Some col => col
            | None => grey
            end) as [[red green] blue].
  cbn. repeat split; reflexivity.
Qed.

(** X15 -- where the polygons of single tiles lie.  When every tile
    carries the transform of its own window in a raster with the
    transform T, and that window starts at the position of the tile, as
    the extractor writes them, the polygon of the tile at the pixel
    (x, y) has the corners T(2x, 2y), T(2x + w, 2y), T(2x + w, 2y + h),
    T(2x, 2y + h), with w and h the width and the height of the tile:
    the position of the tile is counted twice, once in the transform of
    the window and once in the pixel coordinates given to it. *)
Theorem detailed_polygons_count_the_offset_twice (strip : string -> string)
    (ext : externals) (results : list result_entry) (metas : list tile_meta)
    (color_map : option (list (string * string))) (t : Affine)
    (sf : detailed_shapefile) (c : cell) :
  (forall m, In m metas -> written_for t m /\ window_at_tile m) ->
  _create_detailed_shapefile strip ext results metas color_map = Ok sf ->
  In c (d_cells sf) ->
  polygon c = footprint t (2 * a_tile_x (attrs c)) (2 * a_tile_y (attrs c))
                        (a_tile_width (attrs c)) (a_tile_height (attrs c)).
Proof.
  intros Hw H Hc. destruct (in_polygons _ _ _ _ _ _ _ H Hc) as (res & m & _ & Hm & ->).
  destruct (make_polygon_attrs ext (d_class_to_color sf) res m)
    as (-> & _ & _ & Hp & -> & -> & _).
  unfold cell_position, Candidates.position in Hp. injection Hp as -> ->.
  destruct (Hw m (nth_error_In _ _ Hm)) as [Ht [Hx Hy]].
  rewrite Ht. unfold footprint. rewrite !GridCellFacts.affine_window, Hx, Hy.
  repeat (f_equal; try (rewrite ?plus_IZR, ?mult_IZR; ring)).
Qed.

Lemma detailed_polygons_count_the_offset_twice_witness :
  exists sf c,
    _create_detailed_shapefile (fun s => s) Samples.ext Samples.strip_results
                               Samples.strip_metas None = Ok sf
    /\ nth_error (d_cells sf) 1 = Some c
    /\ cell_position c = (2, 0)%Z
    /\ polygon c = footprint Samples.utm 4 0 4 4.
Proof.
  eexists. eexists. split; [reflexivity|]. split; [reflexivity|].
  split; [reflexivity|].
  refine (detailed_polygons_count_the_offset_twice (fun s => s) Samples.ext
            Samples.strip_results Samples.strip_metas None Samples.utm _ _ _ eq_refl _).
  - intros m [<- | [<- | [<- | []]]]; repeat split; reflexivity.
  - right. left. reflexivity.
Defined.

(** ** The colours of the polygons *)

Lemma detailed_colors_keys (strip : string -> string) (ext : externals)
    (color_map : option (list (string * string)))
    (unique_classes : list string) (class_to_color : list (string * rgb)) :
  NoDup unique_classes ->
  detailed_colors strip ext color_map unique_classes = Ok class_to_color ->
  forall k, In k (map fst class_to_color) <-> In k unique_classes.
Proof.
  intros Hn. unfold detailed_colors.
  assert (Hgen : Ok (_generate_class_colors ext unique_classes) = Ok class_to_color ->
                 forall k, In k (map fst class_to_color) <-> In k unique_classes).
  { intros H. injection H as <-. intros k.
    now rewrite GridCellFacts.generated_colors_keys. }
  destruct color_map as [[|p cm]|]; [exact Hgen| |exact Hgen].
  intros H k.
  rewrite (GridCellFacts.table_keys ext (p :: cm) strip unique_classes [] _ H k).
  cbn. tauto.
Qed.

Lemma polygon_ids (ext : externals) (class_to_color : list (string * rgb))
    (metas : list tile_meta) (results : list result_entry) :
  map cell_tile_id
      (flat_map (fun res =>
                   match nth_error metas (tile_id res) with
                   | Some metadata => [make_polygon ext class_to_color res metadata]
                   | None => []
                   end)
                results)
  = filter (fun i => Nat.ltb i (List.length metas)) (map tile_id results).
Proof.
  induction results as [|r results IH]; cbn [flat_map map filter]; [reflexivity|].
  rewrite map_app, IH.
  destruct (nth_error metas (tile_id r)) as [m|] eqn:Em.
  - assert (Hlt : (tile_id r < List.length metas)%nat)
      by (apply nth_error_Some; congruence).
    apply Nat.ltb_lt in Hlt. rewrite Hlt.
    destruct (make_polygon_attrs ext class_to_color r m) as (_ & Hid & _).
    cbn [map app]. now rewrite Hid.
  - apply nth_error_None in Em.
    assert (Hge : Nat.ltb (tile_id r) (List.length metas) = false)
      by (apply Nat.ltb_ge; exact Em).
    now rewrite Hge.
Qed.

(** X16 -- the polygons of single tiles and their colours.  The
    shapefile of single tiles has one polygon for each result whose tile
    exists, in the order of the results, and none for the other results.
    Each polygon has the colour that the table of colours holds under
    the whole name of its class, so that a hierarchical class is drawn
    in its own colour. *)
Theorem detailed_polygons_follow_the_results (strip : string -> string)
    (ext : externals) (results : list result_entry) (metas : list tile_meta)
    (color_map : option (list (string * string))) (sf : detailed_shapefile) :
  _create_detailed_shapefile strip ext results metas color_map = Ok sf ->
  map cell_tile_id (d_cells sf)
  = filter (fun i => Nat.ltb i (List.length metas)) (map tile_id results)
  /\ forall c,
       In c (d_cells sf) ->
       Py.dict_get (d_class_to_color sf) (a_best_class (attrs c))
       = Some (cell_color c).
Proof.
  intros H. split.
  - destruct (detailed_inv _ _ _ _ _ _ H) as [_ ->]. apply polygon_ids.
  - intros c Hc.
    destruct (in_polygons _ _ _ _ _ _ _ H Hc) as (res & m & Hres & _ & ->).
    destruct (make_polygon_attrs ext (d_class_to_color sf) res m)
      as (_ & _ & -> & _ & _ & _ & ->).
    destruct (detailed_inv _ _ _ _ _ _ H) as [Hcc _].
    destruct (SortFacts.string_sorted_spec (map best_class results)) as (_ & Hn & Hi).
    destruct (GridCellFacts.dict_get_in (d_class_to_color sf) (best_class res))
      as [v ->]; [|reflexivity].
    apply (detailed_colors_keys _ _ _ _ _ Hn Hcc). apply Hi. now apply in_map.
Qed.

Lemma detailed_polygons_follow_the_results_witness :
  exists sf,
    _create_detailed_shapefile (fun s => s) Samples.ext Samples.run_a
                               Samples.three_metas None = Ok sf
    /\ map cell_tile_id (d_cells sf) = [0; 1; 2]%nat
    /\ forall c,
         In c (d_cells sf) ->
         Py.dict_get (d_class_to_color sf) (a_best_class (attrs c))
         = Some (cell_color c).
Proof.
  eexists. split; [reflexivity|].
  exact (detailed_polygons_follow_the_results (fun s => s) Samples.ext Samples.run_a
           Samples.three_metas None _ eq_refl).
Defined.

(** ** Colour maps read from a file *)

Lemma load_keys (strip : string -> string) (ext : externals)
    (rows : list (string * string)) :
  forall acc k,
    In k (map fst
            (fold_left
               (fun color_map row =>
                  Py.dict_set color_map (lower ext (strip (fst row))) (strip (snd row)))
               rows acc))
    <-> In k (map fst acc)
        \/ In k (map (fun row => lower ext (strip (fst row))) rows).
Proof.
  induction rows as [|row rows IH]; intros acc k; cbn [fold_left map].
  - cbn. tauto.
  - rewrite IH, LoadingFacts.dict_set_keys. cbn. intuition.
Qed.

(** X17 -- a colour map and the capitals of a class.  The colour map
    read from a file has its names in lower case, and the shapefile of
    single tiles looks a class up under its name as it is, stripped of
    surrounding blanks only.  So with a colour map of at least one row,
    every polygon of a class whose stripped name is not in lower case is
    grey, whatever the rows of the file are.  The lower-casing is
    assumed to leave a lower-cased text unchanged. *)
Theorem detailed_misses_classes_with_capitals (strip : string -> string)
    (ext : externals) (rows : list (string * string))
    (results : list result_entry) (metas : list tile_meta)
    (sf : detailed_shapefile) (c : cell) :
  (forall s, lower ext (lower ext s) = lower ext s) ->
  rows <> [] ->
  _create_detailed_shapefile strip ext results metas
    (ColorMap.load_color_map strip ext (Some rows)) = Ok sf ->
  In c (d_cells sf) ->
  lower ext (strip (a_best_class (attrs c))) <> strip (a_best_class (attrs c)) ->
  cell_color c = grey.
Proof.
  intros Hidem Hrows H Hc Hcap.
  destruct (in_polygons _ _ _ _ _ _ _ H Hc) as (res & m & Hres & _ & Hceq).
  destruct (make_polygon_attrs ext (d_class_to_color sf) res m)
    as (_ & _ & Hcl & _ & _ & _ & Hcol).
  rewrite <- Hceq in Hcl, Hcol. rewrite Hcl in Hcap.
  destruct (detailed_inv _ _ _ _ _ _ H) as [Hcc _].
  destruct (SortFacts.string_sorted_spec (map best_class results)) as (_ & Hn & Hi).
  cbn [ColorMap.load_color_map] in Hcc.
  set (cm := fold_left _ rows []) in Hcc.
  assert (Hkeys : forall k, In k (map fst cm) -> lower ext k = k).
  { intros k Hk. apply load_keys in Hk. destruct Hk as [[] | Hk].
    apply in_map_iff in Hk. destruct Hk as (row & <- & _). apply Hidem. }
  assert (Hmiss : Py.dict_get cm (strip (best_class res)) = None).
  { apply GridCellFacts.dict_get_notin. intros Hk. apply Hcap. now apply Hkeys. }
  assert (Hcm : exists p cm', cm = p :: cm').
  { destruct cm as [|p cm'] eqn:Ecm; [|eauto].
    destruct rows as [|row rows']; [congruence|].
    assert (Hin : In (lower ext (strip (fst row))) (map fst cm)).
    { apply load_keys. right. now left. }
    rewrite Ecm in Hin. destruct Hin. }
  destruct Hcm as (p & cm' & Ecm). rewrite Ecm in Hcc, Hmiss.
  cbn [detailed_colors] in Hcc.
  destruct (GridCellFacts.table_miss ext (p :: cm') strip _ [] _ Hcc Hn) as [_ Hgrey].
  rewrite (Hgrey (best_class res)) in Hcol; [exact Hcol | | exact Hmiss].
  apply Hi. now apply in_map.
Qed.

Lemma lower_char_idempotent (c : ascii) :
  ColorSamples.lower_char (ColorSamples.lower_char c) = ColorSamples.lower_char c.
Proof. destruct c as [[] [] [] [] [] [] [] []]; reflexivity. Qed.

Lemma ascii_lower_idempotent (s : string) :
  ColorSamples.ascii_lower (ColorSamples.ascii_lower s) = ColorSamples.ascii_lower s.
Proof.
  induction s as [|c s IH]; cbn; [reflexivity|].
  now rewrite lower_char_idempotent, IH.
Qed.

Lemma detailed_misses_classes_with_capitals_witness :
  exists sf c,
    _create_detailed_shapefile (fun s => s) ColorSamples.lower_ext ColorSamples.run
      Samples.three_metas
      (ColorMap.load_color_map (fun s => s) ColorSamples.lower_ext (Some ColorSamples.rows))
    = Ok sf
    /\ nth_error (d_cells sf) 0 = Some c
    /\ a_best_class (attrs c) = "Sand"%string
    /\ cell_color c = grey.
Proof.
  eexists. eexists. split; [reflexivity|]. split; [reflexivity|].
  split; [reflexivity|].
  refine (detailed_misses_classes_with_capitals (fun s => s) ColorSamples.lower_ext
            ColorSamples.rows ColorSamples.run Samples.three_metas _ _
            ascii_lower_idempotent _ eq_refl _ _).
  - discriminate.
  - left. reflexivity.
  - discriminate.
Defined.

(** ** The GeoJSON *)

Lemma features_are_polygons (ext : externals) (class_to_color : list (string * rgb))
    (metas : list tile_meta) (results : list result_entry) :
  (forall res, In res results -> In (best_class res) (map fst class_to_color)) ->
  Geojson.features ext class_to_color metas results
  = Geojson.Features
      (flat_map (fun res =>
                   match nth_error metas (tile_id res) with
                   | Some metadata => [make_polygon ext class_to_color res metadata]
                   | None => []
                   end)
                results).
Proof.
  induction results as [|res results IH]; intros Hkeys; cbn [Geojson.features flat_map].
  - reflexivity.
  - rewrite IH by (intros r Hr; apply Hkeys; now right).
    destruct (nth_error metas (tile_id res)) as [m|]; [|reflexivity].
    destruct (GridCellFacts.dict_get_in class_to_color (best_class res)) as [col Hcol].
    { apply Hkeys. now left. }
    unfold Geojson.make_feature, make_polygon. rewrite Hcol.
    destruct col as [[red green] blue]. reflexivity.
Qed.

(** X26 -- the GeoJSON and the shapefile of single tiles.  When
    [colorsys] is there, the GeoJSON never fails on the colour of a
    class: before their reprojection its features are the polygons of
    the shapefile of single tiles written for the same results without
    a colour map, with the same attributes and colours, in the same
    order. *)
Theorem geojson_features_are_the_detailed_polygons (strip : string -> string)
    (ext : externals) (hsv : R -> R -> R -> R * R * R)
    (results : list result_entry) (metas : list tile_meta) :
  hsv_to_rgb ext = Some hsv ->
  exists sf,
    _create_detailed_shapefile strip ext results metas None = Ok sf
    /\ Geojson.create_geojson_from_results ext results metas
       = Geojson.Features (d_cells sf).
Proof.
  intros Hhsv. eexists. split; [reflexivity|].
  unfold Geojson.create_geojson_from_results. rewrite Hhsv.
  cbn [d_cells detailed_colors]. unfold _generate_class_colors.
  rewrite Hhsv.
  apply features_are_polygons.
  intros res Hres.
  destruct (SortFacts.string_sorted_spec (map best_class results)) as (_ & Hn & Hi).
  pose proof (GridCellFacts.generated_colors_keys ext (unique_classes_of results) Hn)
    as Hkeys.
  unfold _generate_class_colors in Hkeys. rewrite Hhsv in Hkeys.
  rewrite Hkeys. apply Hi. now apply in_map.
Qed.

Lemma geojson_features_are_the_detailed_polygons_witness :
  exists sf,
    _create_detailed_shapefile (fun s => s) Samples.ext Samples.run_a
                               Samples.three_metas None = Ok sf
    /\ Geojson.create_geojson_from_results Samples.ext Samples.run_a Samples.three_metas
       = Geojson.Features (d_cells sf).
Proof.
  exact (geojson_features_are_the_detailed_polygons (fun s => s) Samples.ext
           (fun h s v => (h, s, v)) Samples.run_a Samples.three_metas eq_refl).
Defined.

End DetailedFacts.
(* ================================================================== *)
(** * The closest vectors *)

Module UtilsFacts.

Import Float Classifier Utils.

(** ** Slices from the end *)

Lemma slice_from_end {A : Type} (a : list A) (k : Z) :
  (0 < k)%Z -> slice_from a (- k) = skipn (List.length a - Z.to_nat k) a.
Proof.
  intros Hk. unfold slice_from, Py.len.
  replace (- k <? 0)%Z with true by (symmetry; apply Z.ltb_lt; lia).
  f_equal. lia.
Qed.

Lemma slice_from_start {A : Type} (a : list A) (k : Z) :
  (k <= 0)%Z -> slice_from a (- k) = skipn (Z.to_nat (- k)) a.
Proof.
  intros Hk. unfold slice_from, Py.len.
  replace (- k <? 0)%Z with false by (symmetry; apply Z.ltb_ge; lia).
  destruct (Z.le_gt_cases (- k) (Z.of_nat (List.length a))) as [H | H].
  - now rewrite Z.min_l by exact H.
  - rewrite Z.min_r by lia. rewrite Nat2Z.id.
    rewrite !skipn_all2; [reflexivity | lia | lia].
Qed.

(** ** Sorted lists *)

Lemma sorted_app_cross {A : Type} (R : A -> A -> Prop) (l1 l2 : list A) :
  StronglySorted R (l1 ++ l2) ->
  StronglySorted R l1 /\ StronglySorted R l2
  /\ forall a b, In a l1 -> In b l2 -> R a b.
Proof.
  induction l1 as [|x l1 IH]; cbn; intros H.
  - split; [constructor|]. split; [exact H | intros a b []].
  - inversion H as [|? ? Hs Hall]; subst.
    destruct (IH Hs) as (H1 & H2 & Hc).
    rewrite Forall_app in Hall. destruct Hall as [Ha1 Ha2].
    split; [now constructor|]. split; [exact H2|].
    intros a b [<- | Ha] Hb.
    + rewrite Forall_forall in Ha2. now apply Ha2.
    + now apply Hc.
Qed.

Lemma sorted_rev {A : Type} (R : A -> A -> Prop) (l : list A) :
  StronglySorted R l -> StronglySorted (fun x y => R y x) (rev l).
Proof.
  induction 1 as [|x l Hs IH Hall]; cbn; [constructor|].
  assert (G : forall l1 : list A,
            StronglySorted (fun x y => R y x) l1 ->
            Forall (fun y => R x y) (rev l1) ->
            StronglySorted (fun x y => R y x) (l1 ++ [x])).
  { induction l1 as [|z l1 IH1]; cbn; intros H1 H2.
    - repeat constructor.
    - inversion H1 as [|? ? Hs1 Hall1]; subst.
      rewrite Forall_app in H2. destruct H2 as [H2 H3].
      constructor; [now apply IH1|].
      rewrite Forall_app. split; [exact Hall1|].
      inversion H3; subst. now repeat constructor. }
  apply G; [exact IH|]. now rewrite rev_involutive.
Qed.

Lemma sorted_map {A B : Type} (R : B -> B -> Prop) (f : A -> B) (l : list A) :
  StronglySorted (fun x y => R (f x) (f y)) l -> StronglySorted R (map f l).
Proof.
  induction 1 as [|x l Hs IH Hall]; cbn; constructor; [exact IH|].
  rewrite Forall_map. exact Hall.
Qed.

(** ** The matches of a list of indices *)

Lemma map_snd_combine {K V : Type} (keys : list K) :
  forall values : list V,
    List.length keys = List.length values -> map snd (combine keys values) = values.
Proof.
  induction keys as [|k keys IH]; intros [|v values] H; cbn in *; try discriminate.
  - reflexivity.
  - f_equal. apply IH. now injection H.
Qed.

Lemma matches_of_indices (reference_labels : list string) (row : list fnum)
    (top : list nat) :
  (forall i, In i top -> (i < List.length row)%nat) ->
  (List.length row <= List.length reference_labels)%nat ->
  exists ms,
    mapM (fun p =>
            class_name <- getitem reference_labels (snd p) ;;
            Ok (mkMatch (fst p + 1) class_name (nth (snd p) row NaN) (snd p)))
         (combine (seq 0 (List.length top)) top) = Ok ms
    /\ List.length ms = List.length top
    /\ map m_rank ms = seq 1 (List.length ms)
    /\ map m_reference_idx ms = top
    /\ (forall m, In m ms ->
          nth_error row (m_reference_idx m) = Some (m_similarity m)
          /\ nth_error reference_labels (m_reference_idx m) = Some (m_class_name m))
    /\ map m_similarity ms = map (fun i => nth i row NaN) top.
Proof.
  intros Htop Hlab.
  set (g := fun p : nat * nat =>
              mkMatch (fst p + 1) (nth (snd p) reference_labels EmptyString)
                      (nth (snd p) row NaN) (snd p)).
  assert (Hlen : List.length (seq 0 (List.length top)) = List.length top)
    by apply length_seq.
  exists (map g (combine (seq 0 (List.length top)) top)).
  split; [|split; [|split; [|split; [|split]]]].
  - apply ClassifierFacts.mapM_map. intros p Hp.
    assert (Hi : In (snd p) top) by (destruct p; eapply in_combine_r; exact Hp).
    rewrite (ClassifierFacts.getitem_nth reference_labels (snd p) EmptyString)
      by (specialize (Htop _ Hi); lia).
    reflexivity.
  - rewrite length_map, length_combine, Hlen. apply Nat.min_id.
  - rewrite length_map, length_combine, Hlen, Nat.min_id.
    rewrite map_map. cbn [g m_rank].
    rewrite <- (map_map fst (fun i => i + 1)%nat).
    rewrite GridCellFacts.map_fst_combine by exact Hlen.
    rewrite <- seq_shift. apply map_ext. intros i. lia.
  - rewrite map_map. cbn [g m_reference_idx]. now apply map_snd_combine.
  - intros m Hm. apply in_map_iff in Hm. destruct Hm as (p & <- & Hp).
    assert (Hi : In (snd p) top) by (destruct p; eapply in_combine_r; exact Hp).
    specialize (Htop _ Hi). cbn [g m_reference_idx m_similarity m_class_name]. split.
    + apply nth_error_nth'. exact Htop.
    + apply nth_error_nth'. lia.
  - rewrite map_map. cbn [g m_similarity].
    rewrite <- (map_map snd (fun i => nth i row NaN)).
    now rewrite map_snd_combine.
Qed.

Lemma argsort_indices (row : list fnum) (idx : list nat) :
  argsort_of row idx ->
  List.length idx = List.length row
  /\ NoDup idx
  /\ forall i, In i idx <-> (i < List.length row)%nat.
Proof.
  intros [Hp _]. split; [|split].
  - rewrite (Permutation_length Hp). apply length_seq.
  - eapply Permutation_NoDup; [apply Permutation_sym, Hp | apply seq_NoDup].
  - intros i. split; intros H.
    + apply (Permutation_in _ Hp) in H. apply in_seq in H. lia.
    + apply (Permutation_in _ (Permutation_sym Hp)). apply in_seq. lia.
Qed.

Lemma nodup_skipn {A : Type} (d : nat) (l : list A) : NoDup l -> NoDup (skipn d l).
Proof.
  intros H. rewrite <- (firstn_skipn d l) in H. now apply NoDup_app_remove_l in H.
Qed.

Lemma in_skipn {A : Type} (d : nat) (l : list A) (x : A) : In x (skipn d l) -> In x l.
Proof.
  intros H. rewrite <- (firstn_skipn d l). apply in_app_iff. now right.
Qed.

(** The matches of the indices that are left of the sorted ones once the
    first [d] are dropped, in reverse. *)
Lemma matches_of_tail (argsort : list fnum -> list nat)
    (reference_labels : list string) (d : nat) (row : list fnum) :
  argsort_of row (argsort row) ->
  (List.length row <= List.length reference_labels)%nat ->
  exists ms,
    mapM (fun p =>
            class_name <- getitem reference_labels (snd p) ;;
            Ok (mkMatch (fst p + 1) class_name (nth (snd p) row NaN) (snd p)))
         (combine (seq 0 (List.length (rev (skipn d (argsort row)))))
                  (rev (skipn d (argsort row)))) = Ok ms
    /\ best_matches reference_labels (List.length row - d) row ms
    /\ map m_reference_idx ms = rev (skipn d (argsort row)).
Proof.
  intros Hspec Hlab.
  destruct (argsort_indices _ _ Hspec) as (Hlen & Hnd & Hin).
  destruct Hspec as [_ Hsorted].
  set (idx := argsort row) in *.
  assert (Htop : forall i, In i (rev (skipn d idx)) -> (i < List.length row)%nat).
  { intros i Hi. apply in_rev in Hi. apply in_skipn in Hi. now apply Hin. }
  destruct (matches_of_indices reference_labels row _ Htop Hlab)
    as (ms & Hms & Hl & Hr & Hi & Hm & Hs).
  exists ms. split; [exact Hms|]. split; [|exact Hi].
  rewrite <- (firstn_skipn d idx) in Hsorted.
  apply sorted_app_cross in Hsorted. destruct Hsorted as (_ & Hs2 & Hcross).
  unfold best_matches. split; [|split; [|split; [|split; [|split]]]].
  - rewrite Hl, length_rev, length_skipn. lia.
  - exact Hr.
  - rewrite Hi. apply NoDup_rev. now apply nodup_skipn.
  - exact Hm.
  - rewrite Hs. apply sorted_map. apply sorted_rev in Hs2. exact Hs2.
  - intros j m Hj Hnot Hmin. rewrite Hi in Hnot.
    destruct (Hm m Hmin) as [Hsim _].
    assert (Hmi : In (m_reference_idx m) (skipn d idx)).
    { apply in_rev. rewrite <- Hi. now apply in_map. }
    assert (Hjf : In j (firstn d idx)).
    { apply Hin in Hj. rewrite <- (firstn_skipn d idx) in Hj.
      apply in_app_iff in Hj. destruct Hj as [Hj | Hj]; [exact Hj|].
      exfalso. apply Hnot. now apply -> in_rev. }
    pose proof (Hcross _ _ Hjf Hmi) as Hle.
    rewrite (nth_error_nth _ _ NaN Hsim) in Hle. exact Hle.
Qed.

(** The matches of a row for a positive [top_k]. *)
Lemma query_matches_best (argsort : list fnum -> list nat)
    (reference_labels : list string) (top_k : Z) (row : list fnum) :
  argsort_of row (argsort row) ->
  (0 < top_k)%Z ->
  (List.length row <= List.length reference_labels)%nat ->
  exists ms,
    query_matches argsort reference_labels top_k row = Ok ms
    /\ best_matches reference_labels (Z.to_nat top_k) row ms.
Proof.
  intros Hspec Hk Hlab.
  destruct (argsort_indices _ _ Hspec) as (Hlen & _ & _).
  unfold query_matches, top_indices. rewrite slice_from_end by exact Hk.
  destruct (matches_of_tail argsort reference_labels
              (List.length (argsort row) - Z.to_nat top_k) row Hspec Hlab)
    as (ms & Hms & (Hl & Hrest) & _).
  exists ms. split; [exact Hms|]. split; [|exact Hrest].
  rewrite Hl, Hlen. lia.
Qed.

(** The matches of a row when [top_k] is not positive: the best
    references once the [- top_k] least similar ones are left out. *)
Lemma query_matches_all (argsort : list fnum -> list nat)
    (reference_labels : list string) (top_k : Z) (row : list fnum) :
  argsort_of row (argsort row) ->
  (top_k <= 0)%Z ->
  (List.length row <= List.length reference_labels)%nat ->
  exists ms,
    query_matches argsort reference_labels top_k row = Ok ms
    /\ best_matches reference_labels (List.length row - Z.to_nat (- top_k)) row ms
    /\ List.length ms = (List.length row - Z.to_nat (- top_k))%nat
    /\ (top_k = 0%Z ->
        Permutation (map m_reference_idx ms) (seq 0 (List.length row))).
Proof.
  intros Hspec Hk Hlab.
  destruct (argsort_indices _ _ Hspec) as (Hlen & _ & _).
  pose proof (proj1 Hspec) as Hperm.
  unfold query_matches, top_indices. rewrite slice_from_start by exact Hk.
  destruct (matches_of_tail argsort reference_labels (Z.to_nat (- top_k)) row
              Hspec Hlab) as (ms & Hms & Hbest & Hi).
  exists ms. split; [exact Hms|]. split; [exact Hbest|]. split.
  - destruct Hbest as [Hl _]. rewrite Hl. lia.
  - intros ->. rewrite Hi. cbn [Z.opp Z.to_nat skipn].
    eapply perm_trans; [apply Permutation_sym, Permutation_rev | exact Hperm].
Qed.

(** ** The loop over the queries *)

Lemma queries_from (argsort : list fnum -> list nat) (reference_labels : list string)
    (top_k : Z) (P : list fnum -> list match_entry -> Prop) (sims : matrix) :
  (forall row, In row sims ->
     exists ms, query_matches argsort reference_labels top_k row = Ok ms /\ P row ms) ->
  forall s,
  exists results,
    mapM (fun p =>
            matches <- query_matches argsort reference_labels top_k (snd p) ;;
            Ok (mkQuery (fst p) matches))
         (combine (seq s (List.length sims)) sims) = Ok results
    /\ List.length results = List.length sims
    /\ forall i row,
         nth_error sims i = Some row ->
         exists res,
           nth_error results i = Some res
           /\ query_id res = (s + i)%nat /\ P row (matches res).
Proof.
  induction sims as [|row0 sims IH]; intros H s.
  - exists []. split; [reflexivity|]. split; [reflexivity|].
    intros [|i] row; discriminate.
  - destruct (H row0 (or_introl eq_refl)) as (ms & Hms & HP).
    destruct (IH (fun row Hr => H row (or_intror Hr)) (S s)) as (rs & Hrs & Hl & Hn).
    exists (mkQuery s ms :: rs). cbn [List.length seq combine mapM fst snd].
    rewrite Hms. cbn [bind]. rewrite Hrs. cbn [bind].
    split; [reflexivity|]. split; [cbn; now rewrite Hl|].
    intros [|i] row Hr; cbn in Hr.
    + injection Hr as <-. exists (mkQuery s ms). cbn. split; [reflexivity|].
      split; [lia | exact HP].
    + destruct (Hn i row Hr) as (res & Hres & Hid & HPr).
      exists res. cbn. split; [exact Hres|]. split; [lia | exact HPr].
Qed.

(** X19 -- the closest vectors.  When the similarity matrix is computed,
    [np.argsort] orders every row of it and there is a label for every
    reference, a positive [top_k] gives one result for each query, in
    the order of the queries and numbered from 0; the matches of a query
    are [top_k] references (all of them when there are fewer), ranked
    from 1 on, each with its own label and similarity, in descending
    order of similarity, and no reference left out is more similar to
    the query than a match. *)
Theorem closest_vectors_are_the_best_matches (argsort : list fnum -> list nat)
    (cosine_similarity : matrix -> matrix -> result matrix)
    (query_embeddings reference_embeddings : matrix)
    (reference_labels : list string) (top_k : Z) (sims : matrix) :
  cosine_similarity query_embeddings reference_embeddings = Ok sims ->
  (forall row, In row sims ->
     argsort_of row (argsort row)
     /\ (List.length row <= List.length reference_labels)%nat) ->
  (0 < top_k)%Z ->
  exists results,
    find_closest_vectors argsort cosine_similarity query_embeddings
                         reference_embeddings reference_labels top_k = Ok results
    /\ List.length results = List.length sims
    /\ forall i row,
         nth_error sims i = Some row ->
         exists res,
           nth_error results i = Some res
           /\ query_id res = i
           /\ best_matches reference_labels (Z.to_nat top_k) row (matches res).
Proof.
  intros Hsims Hrows Hk. unfold find_closest_vectors. rewrite Hsims. cbn [bind].
  apply (queries_from argsort reference_labels top_k
           (best_matches reference_labels (Z.to_nat top_k)) sims).
  intros row Hrow. destruct (Hrows row Hrow) as [Hs Hl].
  now apply query_matches_best.
Qed.

(** X20 -- a [top_k] that is not positive.  Under the same conditions,
    a [top_k] that is zero or negative gives one result for each query,
    and the matches of a query are the best references once the
    [- top_k] least similar ones are left out: as many as there are
    references less [- top_k], ranked from 1 on, each with its own label
    and similarity, in descending order of similarity, and no reference
    left out is more similar to the query than a match.  With
    [top_k = 0] the matches are all the references, not none. *)
Theorem nonpositive_top_k_keeps_the_references (argsort : list fnum -> list nat)
    (cosine_similarity : matrix -> matrix -> result matrix)
    (query_embeddings reference_embeddings : matrix)
    (reference_labels : list string) (top_k : Z) (sims : matrix) :
  cosine_similarity query_embeddings reference_embeddings = Ok sims ->
  (forall row, In row sims ->
     argsort_of row (argsort row)
     /\ (List.length row <= List.length reference_labels)%nat) ->
  (top_k <= 0)%Z ->
  exists results,
    find_closest_vectors argsort cosine_similarity query_embeddings
                         reference_embeddings reference_labels top_k = Ok results
    /\ List.length results = List.length sims
    /\ forall i row,
         nth_error sims i = Some row ->
         exists res,
           nth_error results i = Some res
           /\ query_id res = i
           /\ best_matches reference_labels
                (List.length row - Z.to_nat (- top_k)) row (matches res)
           /\ List.length (matches res)
              = (List.length row - Z.to_nat (- top_k))%nat
           /\ (top_k = 0%Z ->
               Permutation (map m_reference_idx (matches res))
                           (seq 0 (List.length row))).
Proof.
  intros Hsims Hrows Hk. unfold find_closest_vectors. rewrite Hsims. cbn [bind].
  apply (queries_from argsort reference_labels top_k
           (fun row ms =>
              best_matches reference_labels
                (List.length row - Z.to_nat (- top_k)) row ms
              /\ List.length ms = (List.length row - Z.to_nat (- top_k))%nat
              /\ (top_k = 0%Z ->
                  Permutation (map m_reference_idx ms) (seq 0 (List.length row))))
           sims).
  intros row Hrow. destruct (Hrows row Hrow) as [Hs Hl].
  now apply query_matches_all.
Qed.

(** ** A sorting [argsort] *)

Lemma stable_argsort_spec (row : list fnum) : argsort_of row (stable_argsort row).
Proof.
  unfold argsort_of, stable_argsort. split.
  - apply Permutation_sym. apply SortFacts.sorted_by_perm.
  - apply (SortFacts.sorted_by_sorted nat
             (fun i j => tle (nth i row NaN) (nth j row NaN))).
    + intros a b. destruct (tle (nth a row NaN) (nth b row NaN)) eqn:E; [now left|].
      right. now apply FloatFacts.tle_total.
    + intros a b c. apply FloatFacts.tle_trans.
Qed.

Lemma closest_vectors_are_the_best_matches_witness :
  exists results,
    find_closest_vectors stable_argsort (fun _ _ => Ok [sample_row]) [] []
                         sample_labels 2 = Ok results
    /\ List.length results = 1%nat
    /\ forall i row,
         nth_error [sample_row] i = Some row ->
         exists res,
           nth_error results i = Some res
           /\ query_id res = i
           /\ best_matches sample_labels 2 row (matches res).
Proof.
  refine (closest_vectors_are_the_best_matches stable_argsort
            (fun _ _ => Ok [sample_row]) [] [] sample_labels 2 [sample_row]
            eq_refl _ _).
  - intros row [<- | []]. split; [apply stable_argsort_spec | cbn; lia].
  - lia.
Defined.

Lemma nonpositive_top_k_keeps_the_references_witness :
  exists results,
    find_closest_vectors stable_argsort (fun _ _ => Ok [sample_row]) [] []
                         sample_labels (-1) = Ok results
    /\ List.length results = 1%nat
    /\ forall i row,
         nth_error [sample_row] i = Some row ->
         exists res,
           nth_error results i = Some res
           /\ query_id res = i
           /\ best_matches sample_labels (List.length row - 1) row (matches res)
           /\ List.length (matches res) = (List.length row - 1)%nat
           /\ ((-1)%Z = 0%Z ->
               Permutation (map m_reference_idx (matches res))
                           (seq 0 (List.length row))).
Proof.
  refine (nonpositive_top_k_keeps_the_references stable_argsort
            (fun _ _ => Ok [sample_row]) [] [] sample_labels (-1) [sample_row]
            eq_refl _ _).
  - intros row [<- | []]. split; [apply stable_argsort_spec | cbn; lia].
  - lia.
Defined.

End UtilsFacts.
(* ================================================================== *)
(** * The crops of labelled images *)

Module YoloFacts.

Import Float Yolo.

Local Open Scope Z_scope.

(** ** Truncation and clipping *)

Lemma Int_part_nonneg (r : R) : (0 <= r)%R -> 0 <= Int_part r.
Proof.
  intros Hr. destruct (base_Int_part r) as [_ H].
  assert (Hlt : (IZR (-1) < IZR (Int_part r))%R) by (simpl; lra).
  apply lt_IZR in Hlt. lia.
Qed.

Lemma py_int_nonneg (r : R) : (0 <= r)%R -> 0 <= Grid.py_int r.
Proof.
  intros Hr. unfold Grid.py_int. destruct (Rle_dec 0 r); [|lra].
  now apply Int_part_nonneg.
Qed.

Lemma py_int_below (r : R) (W : Z) : (r <= IZR W)%R -> 0 < Grid.py_int r -> Grid.py_int r <= W.
Proof.
  intros Hr Hpos. unfold Grid.py_int in *. destruct (Rle_dec 0 r) as [H0 | H0].
  - destruct (base_Int_part r) as [H _]. apply le_IZR. lra.
  - pose proof (Int_part_nonneg (- r) ltac:(lra)). lia.
Qed.

Lemma max0_nonneg (v : R) : (0 <= max0 v)%R.
Proof. unfold max0. destruct (Rlt_dec 0 v); lra. Qed.

Lemma min_with_below (W : Z) (v : R) : (min_with W v <= IZR W)%R.
Proof. unfold min_with. destruct (Rlt_dec v (IZR W)); lra. Qed.

(** A box that is kept lies inside the image. *)
Lemma pixel_box_inside (W H : Z) (x_center y_center w h : R) (x1 y1 x2 y2 : Z) :
  pixel_box W H x_center y_center w h = (x1, y1, x2, y2) ->
  x1 < x2 -> y1 < y2 ->
  0 <= x1 /\ x2 <= W /\ 0 <= y1 /\ y2 <= H.
Proof.
  unfold pixel_box. intros E Hx Hy. injection E as <- <- <- <-.
  pose proof (py_int_nonneg _ (max0_nonneg (x_center * IZR W - w * IZR W / 2))) as Hx1.
  pose proof (py_int_nonneg _ (max0_nonneg (y_center * IZR H - h * IZR H / 2))) as Hy1.
  repeat split; try assumption.
  - apply py_int_below; [apply min_with_below | lia].
  - apply py_int_below; [apply min_with_below | lia].
Qed.

(** ** Indices that count from the end *)

Lemma py_getitem_inv {A : Type} (l : list A) (i : Z) (a : A) :
  py_getitem l i = Ok a ->
  - Py.len l <= i < Py.len l
  /\ nth_error l (Z.to_nat (i mod Py.len l)) = Some a.
Proof.
  unfold py_getitem. set (n := Py.len l).
  destruct (i <? 0) eqn:Ei.
  - apply Z.ltb_lt in Ei.
    destruct ((i + n <? 0) || (n <=? i + n)) eqn:Eb; [discriminate|].
    apply orb_false_elim in Eb. destruct Eb as [E1 E2].
    apply Z.ltb_ge in E1. apply Z.leb_gt in E2.
    destruct (nth_error l (Z.to_nat (i + n))) as [a'|] eqn:En; [|discriminate].
    intros H. injection H as <-. split; [lia|].
    replace (i mod n) with (i + n); [exact En|].
    apply (Z.mod_unique_pos i n (-1) (i + n)); lia.
  - apply Z.ltb_ge in Ei.
    destruct ((i <? 0) || (n <=? i)) eqn:Eb; [discriminate|].
    apply orb_false_elim in Eb. destruct Eb as [_ E2]. apply Z.leb_gt in E2.
    destruct (nth_error l (Z.to_nat i)) as [a'|] eqn:En; [|discriminate].
    intros H. injection H as <-. split; [lia|].
    now rewrite Z.mod_small by lia.
Qed.

Lemma py_getitem_returns {A : Type} (l : list A) (i : Z) :
  - Py.len l <= i < Py.len l -> exists a, py_getitem l i = Ok a.
Proof.
  unfold py_getitem, Py.len. intros Hi.
  set (j := if i <? 0 then i + Z.of_nat (List.length l) else i).
  assert (Hj : 0 <= j < Z.of_nat (List.length l)).
  { unfold j. destruct (i <? 0) eqn:E; [apply Z.ltb_lt in E | apply Z.ltb_ge in E]; lia. }
  replace ((j <? 0) || (Z.of_nat (List.length l) <=? j)) with false.
  - destruct (nth_error l (Z.to_nat j)) as [a|] eqn:En; [eauto|].
    apply nth_error_None in En. lia.
  - symmetry. apply orb_false_intro; [apply Z.ltb_ge | apply Z.leb_gt]; lia.
Qed.

(** ** The loops over the lines and over the files *)

Lemma mapM_concat_in {A B : Type} (f : A -> result (list B)) (xs : list A) :
  forall yss y,
    mapM f xs = Ok yss -> In y (List.concat yss) ->
    exists x ys, In x xs /\ f x = Ok ys /\ In y ys.
Proof.
  induction xs as [|x xs IH]; cbn; intros yss y H Hy.
  - injection H as <-. destruct Hy.
  - destruct (f x) as [ys|e] eqn:E; cbn in H; [|discriminate].
    destruct (mapM f xs) as [yss'|e]; cbn in H; [|discriminate].
    injection H as <-. cbn in Hy. apply in_app_iff in Hy. destruct Hy as [Hy | Hy].
    + exists x, ys. auto.
    + destruct (IH _ _ eq_refl Hy) as (x' & ys' & Hx' & Hf & Hin).
      exists x', ys'. auto.
Qed.

Section WithImages.

Variables picture pixels : Type.
Variable size : picture -> Z * Z.
Variable crop : picture -> Z * Z * Z * Z -> pixels.

(** What a line adds. *)
Lemma read_line_inv (class_prompts : list string) (image_path : string)
    (full_image : picture) (i : nat) (line : label_line)
    (out : list (pixels * crop_meta)) (c : pixels) (m : crop_meta) :
  read_line size crop class_prompts image_path full_image i line = Ok out ->
  In (c, m) out ->
  image m = image_path
  /\ object_id m = i
  /\ c = crop full_image (bbox m)
  /\ (let '(x1, y1, x2, y2) := bbox m in
      0 <= x1 < x2 /\ x2 <= fst (size full_image)
      /\ 0 <= y1 < y2 /\ y2 <= snd (size full_image))
  /\ - Py.len class_prompts <= class_id m < Py.len class_prompts
  /\ nth_error class_prompts (Z.to_nat (class_id m mod Py.len class_prompts))
     = Some (class_name m).
Proof.
  unfold read_line. destruct (size full_image) as [W H] eqn:Es.
  destruct line as [[cid numbers]|]; [|intros E; injection E as <-; intros []].
  destruct (Py.len class_prompts <=? cid) eqn:Ec;
    [intros E; injection E as <-; intros []|].
  destruct (py_getitem class_prompts cid) as [name|e] eqn:Eg; cbn [bind]; [|discriminate].
  destruct numbers as [|xc [|yc [|w [|h [|]]]]]; try discriminate.
  destruct (pixel_box W H xc yc w h) as [[[x1 y1] x2] y2] eqn:Eb.
  destruct ((x2 <=? x1) || (y2 <=? y1)) eqn:Ek;
    [intros E; injection E as <-; intros []|].
  apply orb_false_elim in Ek. destruct Ek as [Ex Ey].
  apply Z.leb_gt in Ex, Ey.
  intros E. injection E as <-. intros [Hin | []]. injection Hin as <- <-.
  cbn [image object_id bbox class_id class_name fst snd].
  destruct (pixel_box_inside _ _ _ _ _ _ _ _ _ _ Eb Ex Ey) as (H1 & H2 & H3 & H4).
  destruct (py_getitem_inv _ _ _ Eg) as [Hr Hn].
  repeat split; try assumption; try lia.
Qed.

Lemma collect_inv (label_files : list (label_file picture)) (class_prompts : list string)
    (crops : list pixels) (metadata : list crop_meta) :
  collect_crops_and_metadata size crop label_files class_prompts = Ok (crops, metadata) ->
  exists all,
    crops = map fst all /\ metadata = map snd all
    /\ forall c m,
         In (c, m) all ->
         exists f full_image i line out,
           In f label_files
           /\ lf_image f = Some (image m, full_image)
           /\ nth_error (lf_lines f) i = Some line
           /\ read_line size crop class_prompts (image m) full_image i line = Ok out
           /\ In (c, m) out.
Proof.
  unfold collect_crops_and_metadata.
  destruct (mapM (read_file size crop class_prompts) label_files) as [found|e] eqn:Em;
    cbn [bind]; [|discriminate].
  intros H. injection H as <- <-. exists (List.concat found).
  split; [reflexivity|]. split; [reflexivity|].
  intros c m Hin.
  destruct (mapM_concat_in _ _ _ _ Em Hin) as (f & ys & Hf & Hrf & Hys).
  unfold read_file in Hrf.
  destruct (lf_image f) as [[path full_image]|] eqn:Ei;
    [|injection Hrf as <-; destruct Hys].
  destruct (mapM _ (combine _ (lf_lines f))) as [per_line|e] eqn:El;
    cbn [bind] in Hrf; [|discriminate].
  injection Hrf as <-.
  destruct (mapM_concat_in _ _ _ _ El Hys) as ([i line] & out & Hp & Hrl & Hout).
  cbn [fst snd] in Hrl.
  assert (Himg : image m = path).
  { eapply read_line_inv; eauto. }
  exists f, full_image, i, line, out. rewrite Himg.
  repeat split; try assumption.
  apply In_nth_error in Hp. destruct Hp as [k Hk].
  pose proof Hk as Hk'.
  apply (f_equal (option_map fst)) in Hk. apply (f_equal (option_map snd)) in Hk'.
  rewrite <- !nth_error_map in Hk, Hk'.
  rewrite GridCellFacts.map_fst_combine in Hk by apply length_seq.
  rewrite UtilsFacts.map_snd_combine in Hk' by apply length_seq.
  cbn in Hk, Hk'.
  assert (Hlt : (k < List.length (lf_lines f))%nat)
    by (apply nth_error_Some; congruence).
  rewrite (nth_error_nth' _ 0%nat) in Hk by (rewrite length_seq; exact Hlt).
  pose proof (@seq_nth (List.length (lf_lines f)) 0 k 0 Hlt) as Hs.
  cbn in Hs. rewrite Hs in Hk. injection Hk as <-. exact Hk'.
Qed.

End WithImages.

(** X21 -- the crops lie inside their image.  When the collection
    returns, it returns as many crops as metadata, and the crop and the
    metadata at the same place belong together: the image named by the
    metadata exists among the label files, the crop is cut from it at
    the box of the metadata, and that box is not empty and lies inside
    the image: 0 <= x1 < x2 <= W and 0 <= y1 < y2 <= H for an image of W
    by H pixels. *)
Theorem crops_lie_inside_their_image (picture pixels : Type)
    (size : picture -> Z * Z) (crop : picture -> Z * Z * Z * Z -> pixels)
    (label_files : list (label_file picture))
    (class_prompts : list string) (crops : list pixels) (metadata : list crop_meta) :
  collect_crops_and_metadata size crop label_files class_prompts = Ok (crops, metadata) ->
  List.length crops = List.length metadata
  /\ forall k c m,
       nth_error crops k = Some c -> nth_error metadata k = Some m ->
       exists f full_image,
         In f label_files
         /\ lf_image f = Some (image m, full_image)
         /\ c = crop full_image (bbox m)
         /\ (let '(x1, y1, x2, y2) := bbox m in
             0 <= x1 < x2 /\ x2 <= fst (size full_image)
             /\ 0 <= y1 < y2 /\ y2 <= snd (size full_image)).
Proof.
  intros H. destruct (collect_inv _ _ _ _ _ _ _ _ H) as (all & -> & -> & Hall).
  split; [now rewrite !length_map|].
  intros k c m Hc Hm. rewrite nth_error_map in Hc, Hm.
  destruct (nth_error all k) as [[c' m']|] eqn:Ek; [|discriminate].
  cbn in Hc, Hm. injection Hc as ->. injection Hm as ->.
  destruct (Hall c m (nth_error_In _ _ Ek))
    as (f & pic & i & line & out & Hf & Hi & _ & Hr & Ho).
  exists f, pic. split; [exact Hf|]. split; [exact Hi|].
  destruct (read_line_inv _ _ _ _ _ _ _ _ _ _ _ _ Hr Ho) as (_ & _ & Hcrop & Hbox & _).
  split; assumption.
Qed.

(** X22 -- class identifiers that count from the end.  A label is kept
    only if its class identifier is below the number of prompts, but a
    negative identifier is not refused: every metadata returned has an
    identifier from minus the number of prompts up to the number of
    prompts minus one, and its class name is the prompt at the
    identifier taken modulo the number of prompts, so that the
    identifier -1 names the last prompt. *)
Theorem class_ids_count_from_the_end (picture pixels : Type)
    (size : picture -> Z * Z) (crop : picture -> Z * Z * Z * Z -> pixels)
    (label_files : list (label_file picture))
    (class_prompts : list string) (crops : list pixels) (metadata : list crop_meta)
    (m : crop_meta) :
  collect_crops_and_metadata size crop label_files class_prompts = Ok (crops, metadata) ->
  In m metadata ->
  - Py.len class_prompts <= class_id m < Py.len class_prompts
  /\ nth_error class_prompts (Z.to_nat (class_id m mod Py.len class_prompts))
     = Some (class_name m).
Proof.
  intros H Hm. destruct (collect_inv _ _ _ _ _ _ _ _ H) as (all & _ & -> & Hall).
  apply in_map_iff in Hm. destruct Hm as ([c m'] & <- & Hin). cbn [snd].
  destruct (Hall c m' Hin) as (f & pic & i & line & out & _ & _ & _ & Hr & Ho).
  destruct (read_line_inv _ _ _ _ _ _ _ _ _ _ _ _ Hr Ho) as (_ & _ & _ & _ & Hid & Hname).
  split; assumption.
Qed.

(** ** The sample label files *)

Lemma py_int_IZR (z : Z) (r : R) : 0 <= z -> r = IZR z -> Grid.py_int r = z.
Proof.
  intros Hz ->. unfold Grid.py_int.
  destruct (Rle_dec 0 (IZR z)) as [_ | Hn]; [|exfalso; apply Hn; now apply IZR_le].
  symmetry. apply Int_part_spec. lra.
Qed.

Lemma sample_box_0 : pixel_box 100 50 0.5 0.5 0.2 0.4 = (40, 15, 60, 35).
Proof.
  unfold pixel_box, max0, min_with.
  repeat match goal with
         | |- context [Rlt_dec ?a ?b] => destruct (Rlt_dec a b); try lra
         end.
  repeat f_equal; apply py_int_IZR; try lia; lra.
Qed.

Lemma sample_box_2 : pixel_box 100 50 0.95 0.5 0.2 1 = (85, 0, 100, 50).
Proof.
  unfold pixel_box, max0, min_with.
  repeat match goal with
         | |- context [Rlt_dec ?a ?b] => destruct (Rlt_dec a b); try lra
         end.
  repeat f_equal; apply py_int_IZR; try lia; lra.
Qed.

Lemma sample_collected :
  collect_crops_and_metadata sample_size sample_crop sample_files sample_prompts
  = Ok ([40; 85],
        [ mkCropMeta "a.jpg" 0 0 "sand" (40, 15, 60, 35);
          mkCropMeta "a.jpg" 2 (-1) "rock" (85, 0, 100, 50) ]).
Proof.
  unfold collect_crops_and_metadata, read_file, read_line, sample_files, sample_size.
  cbn -[pixel_box]. rewrite sample_box_0, sample_box_2. reflexivity.
Qed.

Lemma crops_lie_inside_their_image_witness :
  List.length [40; 85] = 2%nat
  /\ forall k c m,
       nth_error [40; 85] k = Some c ->
       nth_error [ mkCropMeta "a.jpg" 0 0 "sand" (40, 15, 60, 35);
                   mkCropMeta "a.jpg" 2 (-1) "rock" (85, 0, 100, 50) ] k = Some m ->
       exists f full_image,
         In f sample_files
         /\ lf_image f = Some (image m, full_image)
         /\ c = sample_crop full_image (bbox m)
         /\ (let '(x1, y1, x2, y2) := bbox m in
             0 <= x1 < x2 /\ x2 <= fst (sample_size full_image)
             /\ 0 <= y1 < y2 /\ y2 <= snd (sample_size full_image)).
Proof.
  exact (crops_lie_inside_their_image (Z * Z) Z sample_size sample_crop sample_files
           sample_prompts _ _ sample_collected).
Defined.

Lemma class_ids_count_from_the_end_witness :
  - Py.len sample_prompts <= -1 < Py.len sample_prompts
  /\ nth_error sample_prompts (Z.to_nat (-1 mod Py.len sample_prompts))
     = Some "rock"%string.
Proof.
  refine (class_ids_count_from_the_end (Z * Z) Z sample_size sample_crop sample_files
            sample_prompts _ _ (mkCropMeta "a.jpg" 2 (-1) "rock" (85, 0, 100, 50))
            sample_collected _).
  right. left. reflexivity.
Defined.

(** ** The batches of crops *)

Lemma mapM_app {A B : Type} (f : A -> result B) (xs ys : list A) :
  mapM f (xs ++ ys)
  = (a <- mapM f xs ;; b <- mapM f ys ;; Ok (a ++ b)).
Proof.
  induction xs as [|x xs IH]; cbn.
  - destruct (mapM f ys); reflexivity.
  - destruct (f x) as [y|e]; cbn; [|reflexivity].
    rewrite IH. destruct (mapM f xs) as [a|e]; cbn; [|reflexivity].
    destruct (mapM f ys); reflexivity.
Qed.

Lemma mapM_combine_map {A B C D : Type} (g : A -> B) (h : B * C -> result D)
    (xs : list A) :
  forall ys : list C,
    mapM h (combine (map g xs) ys)
    = mapM (fun p => h (g (fst p), snd p)) (combine xs ys).
Proof.
  induction xs as [|x xs IH]; intros [|y ys]; cbn; try reflexivity.
  now rewrite IH.
Qed.

Lemma combine_slice {A B : Type} (xs : list A) (ys : list B) (i j : Z) :
  combine (Py.slice xs i j) (Py.slice ys i j) = Py.slice (combine xs ys) i j.
Proof.
  unfold Py.slice. generalize (Z.to_nat (j - i)) as k. generalize (Z.to_nat i) as d.
  intros d. revert xs ys. induction d as [|d IH]; intros xs ys k.
  - cbn [skipn]. now rewrite combine_firstn.
  - destruct xs as [|x xs]; [cbn; now rewrite !firstn_nil|].
    destruct ys as [|y ys].
    + cbn [skipn combine]. rewrite !firstn_nil.
      destruct (firstn k (skipn d xs)); reflexivity.
    + cbn [skipn combine]. apply IH.
Qed.

Section WithModel.

Variables pixels tensor : Type.
Variable model : Embedder.clip pixels tensor.

(** One batch appends the records of its crops. *)
Lemma process_batch_step (crops : list pixels) (metadata : list crop_meta)
    (text_features : matrix) (B : Z) (records : list record) (i : Z) :
  Py.slice crops i (i + B) <> [] ->
  process_crop_batch model crops metadata text_features B (Ok records) i
  = (new <- mapM (fun p => record_of model text_features (fst p) (snd p))
                 (Py.slice (combine crops metadata) i (i + B)) ;;
     Ok (records ++ new)).
Proof.
  intros Hne. unfold process_crop_batch. cbn [bind].
  destruct (Py.slice crops i (i + B)) as [|c cs] eqn:Es; [congruence|].
  cbn [map]. rewrite <- combine_slice, Es.
  change (Embedder.preprocess_tile model c :: map (Embedder.preprocess_tile model) cs)
    with (map (Embedder.preprocess_tile model) (c :: cs)).
  unfold Embedder.encode_batch, normalize_rows_by. rewrite !map_map.
  rewrite (mapM_combine_map
             (fun x => normalize_by (Embedder.features_norm model)
                         (Embedder.encode_image model
                            (Embedder.preprocess_tile model x)))
             (fun p => text <- py_getitem text_features (class_id (snd p)) ;;
                       Ok (mkRecord (snd p) (fst p) text))).
  reflexivity.
Qed.

Lemma fold_raise (crops : list pixels) (metadata : list crop_meta)
    (text_features : matrix) (B : Z) (e : exn) (starts : list Z) :
  fold_left (process_crop_batch model crops metadata text_features B) starts (Raise e)
  = Raise e.
Proof. induction starts as [|i starts IH]; cbn; [reflexivity | exact IH]. Qed.

(** The first [cnt] batches give the records of the first [cnt] times
    [B] crops. *)
Lemma fold_crop_batches (crops : list pixels) (metadata : list crop_meta)
    (text_features : matrix) (B : Z) (cnt : nat) :
  1 <= B ->
  (forall k, (k < cnt)%nat -> Z.of_nat k * B < Py.len crops) ->
  fold_left (process_crop_batch model crops metadata text_features B)
            (map (fun k => 0 + Z.of_nat k * B) (seq 0 cnt)) (Ok [])
  = mapM (fun p => record_of model text_features (fst p) (snd p))
         (firstn (cnt * Z.to_nat B) (combine crops metadata)).
Proof.
  intros HB. induction cnt as [|c IH]; intros Hstart.
  - reflexivity.
  - rewrite seq_S, map_app, fold_left_app. cbn [map fold_left].
    rewrite IH by (intros k Hk; apply Hstart; lia).
    replace (S c * Z.to_nat B)%nat with (c * Z.to_nat B + Z.to_nat B)%nat by lia.
    rewrite <- EmbedderFacts.firstn_chunk, mapM_app.
    destruct (mapM _ (firstn (c * Z.to_nat B) (combine crops metadata)))
      as [records|e]; cbn [bind]; [|reflexivity].
    rewrite process_batch_step.
    + unfold Py.slice.
      replace (Z.to_nat (0 + Z.of_nat (0 + c) * B + B - (0 + Z.of_nat (0 + c) * B)))
        with (Z.to_nat B) by lia.
      replace (Z.to_nat (0 + Z.of_nat (0 + c) * B)) with (c * Z.to_nat B)%nat by nia.
      reflexivity.
    + specialize (Hstart c ltac:(lia)). unfold Py.slice, Py.len in *.
      intros Hnil. apply (f_equal (@List.length pixels)) in Hnil.
      rewrite length_firstn, length_skipn in Hnil. cbn in Hnil. nia.
Qed.

Lemma range_starts_inside (n B : Z) (k : nat) :
  0 <= n -> 1 <= B -> (k < Z.to_nat (Py.range_len 0 n B))%nat -> Z.of_nat k * B < n.
Proof.
  intros Hn HB. unfold Py.range_len.
  replace (0 <? B) with true by (symmetry; apply Z.ltb_lt; lia).
  rewrite Z.sub_0_r.
  pose proof (Z.div_mod (n + B - 1) B ltac:(lia)) as Hdm.
  pose proof (Z.mod_pos_bound (n + B - 1) B ltac:(lia)) as Hb.
  assert (0 <= (n + B - 1) / B) by (apply Z.div_pos; lia).
  rewrite Z.max_r by lia. intros Hk. nia.
Qed.

Lemma process_crops_spec (crops : list pixels) (metadata : list crop_meta)
    (text_features : matrix) (B : Z) :
  1 <= B ->
  process_crops_in_batches model crops metadata text_features B
  = mapM (fun p => record_of model text_features (fst p) (snd p))
         (combine crops metadata).
Proof.
  intros HB. unfold process_crops_in_batches, Py.floordiv, Py.range.
  replace (B =? 0) with false by (symmetry; apply Z.eqb_neq; lia).
  cbn [bind].
  rewrite fold_crop_batches.
  - rewrite firstn_all2; [reflexivity|].
    pose proof (@EmbedderFacts.range_covers (Py.len crops) B
                  ltac:(unfold Py.len; lia) HB) as Hc.
    rewrite length_combine. unfold Py.len in *. lia.
  - exact HB.
  - intros k Hk. apply range_starts_inside; [unfold Py.len; lia | exact HB | exact Hk].
Qed.

End WithModel.

(** X23 -- the records of the crops do not depend on the batches.  For
    every batch size of at least one, the records are those of the
    crops paired with the metadata at the same places, one after the
    other in their order: each record holds the metadata, the embedding
    of the crop divided by its norm (a crop that fails to convert is
    embedded as the placeholder), and the text feature at the class
    identifier of the metadata; the call fails exactly when one of these
    single records fails, with the first such failure.  The batch size
    changes nothing. *)
Theorem crop_records_do_not_depend_on_batches (pixels tensor : Type)
    (model : Embedder.clip pixels tensor)
    (crops : list pixels) (metadata : list crop_meta)
    (text_features : matrix) (batch_size : Z) :
  1 <= batch_size ->
  process_crops_in_batches model crops metadata text_features batch_size
  = mapM (fun p => record_of model text_features (fst p) (snd p))
         (combine crops metadata).
Proof.
  apply process_crops_spec.
Qed.

Lemma crop_records_do_not_depend_on_batches_witness :
  process_crops_in_batches Samples.toy_clip [40; 85; 0]
    [ mkCropMeta "a.jpg" 0 0 "sand" (40, 15, 60, 35);
      mkCropMeta "a.jpg" 2 (-1) "rock" (85, 0, 100, 50);
      mkCropMeta "a.jpg" 3 1 "rock" (0, 0, 10, 10) ]
    sample_text_features 2
  = mapM (fun p => record_of Samples.toy_clip sample_text_features (fst p) (snd p))
         (combine [40; 85; 0]
            [ mkCropMeta "a.jpg" 0 0 "sand" (40, 15, 60, 35);
              mkCropMeta "a.jpg" 2 (-1) "rock" (85, 0, 100, 50);
              mkCropMeta "a.jpg" 3 1 "rock" (0, 0, 10, 10) ]).
Proof.
  apply (crop_records_do_not_depend_on_batches Z Z Samples.toy_clip). lia.
Defined.

Lemma forall2_map {A B C : Type} (R : A -> B -> Prop) (f : A -> C) (g : B -> C)
    (xs : list A) (ys : list B) :
  Forall2 R xs ys -> (forall x y, R x y -> g y = f x) -> map g ys = map f xs.
Proof.
  induction 1 as [|x y xs ys Hxy H IH]; intros Hfg; cbn; [reflexivity|].
  f_equal; [now apply Hfg | now apply IH].
Qed.

(** X24 -- from the labels to the records.  When the collection returns
    and there is one text feature for each prompt, the batches (of a
    size of at least one) do not fail: they return one record for each
    crop, with the metadata of the crops in their order, and the text
    feature of each record is the one of the prompt that gives the
    record its class name, also for a class identifier that counts from
    the end. *)
Theorem records_pair_crops_with_the_text_of_their_class (picture pixels tensor : Type)
    (size : picture -> Z * Z) (crop : picture -> Z * Z * Z * Z -> pixels)
    (model : Embedder.clip pixels tensor)
    (label_files : list (label_file picture)) (class_prompts : list string)
    (crops : list pixels) (metadata : list crop_meta)
    (text_features : matrix) (batch_size : Z) :
  collect_crops_and_metadata size crop label_files class_prompts = Ok (crops, metadata) ->
  List.length text_features = List.length class_prompts ->
  1 <= batch_size ->
  exists records,
    process_crops_in_batches model crops metadata text_features batch_size = Ok records
    /\ map rec_meta records = metadata
    /\ forall r,
         In r records ->
         exists j,
           nth_error class_prompts j = Some (class_name (rec_meta r))
           /\ nth_error text_features j = Some (text_embedding r).
Proof.
  intros Hcol Hlen HB.
  rewrite (process_crops_spec pixels tensor model crops metadata text_features
             batch_size HB).
  assert (Hids : forall m, In m metadata ->
            - Py.len class_prompts <= class_id m < Py.len class_prompts
            /\ nth_error class_prompts (Z.to_nat (class_id m mod Py.len class_prompts))
               = Some (class_name m)).
  { intros m Hm. destruct (collect_inv _ _ _ _ _ _ _ _ Hcol) as (all & _ & -> & Hall).
    apply in_map_iff in Hm. destruct Hm as ([c m'] & <- & Hin). cbn [snd].
    destruct (Hall c m' Hin) as (f & pic & i & line & out & _ & _ & _ & Hr & Ho).
    destruct (read_line_inv _ _ _ _ _ _ _ _ _ _ _ _ Hr Ho)
      as (_ & _ & _ & _ & Hid & Hname).
    split; assumption. }
  assert (Hsame : Py.len text_features = Py.len class_prompts)
    by (unfold Py.len; now rewrite Hlen).
  destruct (GridCellFacts.mapM_total
              (fun p => record_of model text_features (fst p) (snd p))
              (combine crops metadata)) as [records Hrec].
  { intros [c m] Hin. cbn [fst snd]. unfold record_of.
    destruct (py_getitem_returns text_features (class_id m)) as [t ->].
    - rewrite Hsame. apply Hids. eapply in_combine_r. exact Hin.
    - cbn [bind]. eauto. }
  exists records. split; [exact Hrec|].
  pose proof (PrototypeFileFacts.mapM_forall2 _ _ _ Hrec) as Hall.
  assert (Hlens : List.length crops = List.length metadata).
  { destruct (collect_inv _ _ _ _ _ _ _ _ Hcol) as (all & -> & -> & _).
    now rewrite !length_map. }
  split.
  - rewrite (forall2_map _ snd rec_meta _ _ Hall).
    + now apply UtilsFacts.map_snd_combine.
    + intros [c m] r. cbn [fst snd]. unfold record_of.
      destruct (py_getitem text_features (class_id m)); cbn [bind]; [|discriminate].
      intros H. now injection H as <-.
  - intros r Hr.
    destruct (PrototypeFileFacts.forall2_in_r _ _ _ r Hall Hr) as ([c m] & Hin & Hf).
    cbn [fst snd] in Hf. unfold record_of in Hf.
    destruct (py_getitem text_features (class_id m)) as [t|] eqn:Eg; cbn [bind] in Hf;
      [|discriminate].
    injection Hf as <-. cbn [rec_meta text_embedding].
    destruct (py_getitem_inv _ _ _ Eg) as [_ Ht].
    destruct (Hids m (in_combine_r _ _ _ _ Hin)) as [_ Hp].
    exists (Z.to_nat (class_id m mod Py.len class_prompts)).
    split; [exact Hp|]. now rewrite <- Hsame.
Qed.

Lemma records_pair_crops_with_the_text_of_their_class_witness :
  exists records,
    process_crops_in_batches Samples.toy_clip [40; 85]
      [ mkCropMeta "a.jpg" 0 0 "sand" (40, 15, 60, 35);
        mkCropMeta "a.jpg" 2 (-1) "rock" (85, 0, 100, 50) ]
      sample_text_features 1 = Ok records
    /\ map rec_meta records
       = [ mkCropMeta "a.jpg" 0 0 "sand" (40, 15, 60, 35);
           mkCropMeta "a.jpg" 2 (-1) "rock" (85, 0, 100, 50) ]
    /\ forall r,
         In r records ->
         exists j,
           nth_error sample_prompts j = Some (class_name (rec_meta r))
           /\ nth_error sample_text_features j = Some (text_embedding r).
Proof.
  refine (records_pair_crops_with_the_text_of_their_class (Z * Z) Z Z sample_size
            sample_crop Samples.toy_clip sample_files sample_prompts _ _
            sample_text_features 1 sample_collected eq_refl _).
  lia.
Defined.

End YoloFacts.
(* ================================================================== *)
(** * Embeddings that are not numbers, and the failures of the builder *)

Module EdgeFacts.

Import Float Classifier Prototype Builder.

(** ** A tile without a direction *)

Lemma fold_fadd_nan (l : list fnum) : fold_left fadd l NaN = NaN.
Proof. induction l as [|x l IH]; cbn; [reflexivity | exact IH]. Qed.

Lemma dot_nan (u v : vec) :
  Forall (fun x => x = NaN) u -> u <> [] -> v <> [] -> dot u v = NaN.
Proof.
  intros Hu Hne Hv. destruct u as [|x u]; [congruence|]. destruct v as [|y v]; [congruence|].
  inversion Hu as [|? ? Hx _]; subst. unfold dot, fsum. cbn. apply fold_fadd_nan.
Qed.

Lemma normalize_by_nan (vnorm : vec -> fnum) (t : vec) :
  (forall x, In x t -> x = NaN) -> Forall (fun x => x = NaN) (normalize_by vnorm t).
Proof.
  intros H. unfold normalize_by, vscale_div. apply Forall_forall.
  intros y Hy. apply in_map_iff in Hy. destruct Hy as (x & <- & Hx).
  rewrite (H x Hx). reflexivity.
Qed.

(** A vector of zeros for which the norm zero is computed. *)
Lemma normalize_by_zeros (vnorm : vec -> fnum) (t : vec) :
  norm t = Fin 0 -> vnorm t = Fin 0 -> Forall (fun x => x = NaN) (normalize_by vnorm t).
Proof.
  intros H Hv. pose proof (FloatFacts.norm_zero t H) as Hz.
  unfold normalize_by, vscale_div. rewrite Hv. clear H Hv.
  induction Hz as [|x v Hx Hz IH]; cbn; constructor.
  - subst x. unfold fdiv.
    destruct (Req_dec_T 0 0) as [_|Hne]; [reflexivity | now elim Hne].
  - exact IH.
Qed.

Lemma argmax_all_nan (l : list fnum) :
  l <> [] -> (forall x, In x l -> x = NaN) -> argmax l = 0 /\ vmax l = NaN.
Proof.
  intros Hne Hall.
  assert (H0 : argmax l = 0).
  { destruct (argmax l) as [|k] eqn:E; [reflexivity|].
    destruct l as [|a l]; [congruence|].
    assert (Ha : a = NaN) by (apply Hall; now left).
    pose proof (BestClassFacts.argmax_first (a :: l) 0 a eq_refl ltac:(lia)) as Hf.
    rewrite Ha in Hf. destruct (vmax (NaN :: l)); discriminate. }
  split; [exact H0|].
  destruct (ClassifierFacts.argmax_spec l Hne) as (_ & Hn & _).
  rewrite H0 in Hn. destruct l as [|a l]; [congruence|]. cbn [nth_error] in Hn.
  injection Hn as Hn. unfold vmax in *. rewrite <- Hn. apply Hall. now left.
Qed.

(** X27 -- a tile without a direction takes the first class.  A tile
    whose embedding has the norm zero, computed as zero, or has only
    components that are not numbers (what the embedder returns when the
    model gives the zero vector), is not refused: every similarity of
    the tile is not a number, and the tile is recorded with the class of
    the first prototype and a similarity that is not a number, whatever
    the norms of the prototypes are computed to be. *)
Theorem undefined_embedding_takes_the_first_class
    (proto_norm tile_norm : vec -> fnum)
    (query_vectors : list (string * vec)) (tile_embeddings : matrix)
    (tile_metadata : list tile_meta) (d i : nat) (t : vec) :
  query_vectors <> [] -> 0 < d ->
  (forall p, In p query_vectors -> List.length (snd p) = d) ->
  (forall e, In e tile_embeddings -> List.length e = d) ->
  List.length tile_metadata = List.length tile_embeddings ->
  nth_error tile_embeddings i = Some t ->
  (norm t = Fin 0 /\ tile_norm t = Fin 0) \/ (forall x, In x t -> x = NaN) ->
  exists results r,
    classify proto_norm tile_norm query_vectors tile_embeddings tile_metadata
    = Ok results
    /\ nth_error results i = Some r
    /\ query_similarity r = NaN
    /\ nth_error (map fst query_vectors) 0 = Some (best_class r).
Proof.
  intros Hq Hd Hdq Hdt Hlen Ht Hundef.
  assert (Hte : tile_embeddings <> []) by (intros E; rewrite E in Ht; destruct i; discriminate).
  destruct (ClassifierFacts.classify_ok proto_norm tile_norm query_vectors
              tile_embeddings tile_metadata d Hq Hte Hdq Hdt Hlen)
    as (results & Hok & _ & Hres).
  destruct (Hres i t Ht) as (r & meta & Hr & _ & _ & _ & Hbest & Hsim).
  assert (Hnan : Forall (fun x => x = NaN) (normalize_by tile_norm t)).
  { destruct Hundef as [[H0 H0'] | Hn];
      [now apply normalize_by_zeros | now apply normalize_by_nan]. }
  assert (Htd : List.length t = d) by (apply Hdt; eapply nth_error_In; eauto).
  assert (Hrow : forall x, In x (sim_row proto_norm tile_norm query_vectors t) ->
                           x = NaN).
  { intros x Hx. unfold sim_row in Hx. apply in_map_iff in Hx.
    destruct Hx as (p & <- & Hp). unfold cosine. apply dot_nan; [exact Hnan | |].
    - intros E. apply (f_equal (@List.length fnum)) in E.
      rewrite FloatFacts.normalize_by_length in E. cbn in E. lia.
    - intros E. apply (f_equal (@List.length fnum)) in E.
      rewrite FloatFacts.normalize_by_length, (Hdq p Hp) in E. cbn in E. lia. }
  assert (Hrne : sim_row proto_norm tile_norm query_vectors t <> []).
  { unfold sim_row. destruct query_vectors; [congruence | discriminate]. }
  destruct (argmax_all_nan _ Hrne Hrow) as [Ha Hv].
  exists results, r. rewrite Ha in Hbest. rewrite Hv in Hsim. auto.
Qed.

Lemma undefined_embedding_takes_the_first_class_witness :
  exists results r,
    classify norm norm two_classes undefined_embeddings [Samples.meta_at 0 0 2 0 0]
    = Ok results
    /\ nth_error results 0 = Some r
    /\ query_similarity r = NaN
    /\ nth_error (map fst two_classes) 0 = Some (best_class r).
Proof.
  refine (undefined_embedding_takes_the_first_class norm norm two_classes
            undefined_embeddings
            [Samples.meta_at 0 0 2 0 0] 2 0 [NaN; NaN] _ _ _ _ eq_refl eq_refl _).
  - discriminate.
  - lia.
  - intros p [<- | [<- | []]]; reflexivity.
  - intros e [<- | []]. reflexivity.
  - right. intros x [<- | [<- | []]]; reflexivity.
Defined.

(** ** The failures of the builder *)

Lemma np_stack_returns (arrays : list vec) :
  (exists m, np_stack arrays = Ok m) <-> arrays <> [] /\ one_shape arrays = true.
Proof.
  unfold np_stack, one_shape. destruct arrays as [|a rest].
  - split; [intros [m H]; discriminate | intros [H _]; congruence].
  - destruct (forallb (fun b => Nat.eqb (List.length b) (List.length a)) rest); split.
    + intros _. split; [discriminate | reflexivity].
    + eauto.
    + intros [m H]. discriminate.
    + intros [_ H]. discriminate.
Qed.

Lemma aggregate_returns (method : string) (embeddings : matrix) :
  (exists v, aggregate method embeddings = Ok v) <-> known_method method = true.
Proof.
  unfold aggregate, known_method.
  destruct (String.eqb method "mean"); [cbn; split; eauto|].
  destruct (String.eqb method "median"); [cbn; split; eauto|].
  destruct (String.eqb method "centroid"); cbn; split; eauto.
  - intros [v H]. discriminate.
  - discriminate.
Qed.

Lemma step_value_error (method : string) (arrays : list vec) (e : exn) :
  (embeddings <- np_stack arrays ;; aggregate method embeddings) = Raise e ->
  exists msg, e = ValueError msg.
Proof.
  unfold np_stack, aggregate. destruct arrays as [|a rest]; cbn [bind].
  - intros H. injection H as <-. eauto.
  - destruct (forallb (fun b => Nat.eqb (List.length b) (List.length a)) rest);
      cbn [bind].
    + destruct (String.eqb method "mean"); [discriminate|].
      destruct (String.eqb method "median"); [discriminate|].
      destruct (String.eqb method "centroid"); [discriminate|].
      intros H. injection H as <-. eauto.
    + intros H. injection H as <-. eauto.
Qed.

(** X28 -- when the prototype builder returns.  The builder of one
    prototype returns exactly when the class has an embedding in the
    table, the embeddings of the class have one shape and the method is
    one of mean, median and centroid.  The builder of all prototypes
    returns exactly when the table is empty, or the method is one of the
    three and the embeddings of every class have one shape: on an empty
    table it accepts any method and writes no file.  When either of them
    fails, it fails with a [ValueError]; embeddings that are not numbers
    or have the norm zero make neither of them fail. *)
Theorem prototype_builders_return_or_raise_value_errors (df : list row)
    (class_name method : string) :
  ((exists v, create_query_vector df class_name method = Ok v)
   <-> In class_name (map fst df)
       /\ one_shape (class_rows df class_name) = true
       /\ known_method method = true)
  /\ ((exists out, create_query_vectors_auto df method = Ok out)
      <-> df = []
          \/ (known_method method = true
              /\ forall c, In c (map fst df) -> one_shape (class_rows df c) = true))
  /\ (forall e,
        create_query_vector df class_name method = Raise e
        \/ create_query_vectors_auto df method = Raise e ->
        exists msg, e = ValueError msg).
Proof.
  assert (Hne : forall c, class_rows df c <> [] -> In c (map fst df)).
  { intros c H. destruct (class_rows df c) as [|v vs] eqn:E; [congruence|].
    assert (Hv : In v (class_rows df c)) by (rewrite E; now left).
    unfold class_rows in Hv. apply in_map_iff in Hv. destruct Hv as ([c' v'] & _ & Hin).
    apply filter_In in Hin. destruct Hin as [Hin Heq]. cbn in Heq.
    apply String.eqb_eq in Heq. subst c'. apply in_map_iff. exists (c, v'). auto. }
  assert (Hstep : forall c,
            (exists m, (embeddings <- np_stack (class_rows df c) ;;
                        aggregate method embeddings) = Ok m)
            <-> class_rows df c <> [] /\ one_shape (class_rows df c) = true
                /\ known_method method = true).
  { intros c. split.
    - intros [v H]. destruct (np_stack (class_rows df c)) as [m|e] eqn:E;
        cbn [bind] in H; [|discriminate].
      destruct (proj1 (np_stack_returns _) (ex_intro _ m E)) as [Hn Hs].
      split; [exact Hn|]. split; [exact Hs|].
      apply (aggregate_returns method m). eauto.
    - intros (Hn & Hs & Hk).
      destruct (proj2 (np_stack_returns _) (conj Hn Hs)) as [m ->].
      cbn [bind]. now apply aggregate_returns. }
  split; [|split].
  - unfold create_query_vector.
    destruct (class_rows df class_name) as [|v vs] eqn:E.
    + split; [intros [w H]; discriminate|].
      intros [Hin _]. apply PrototypeFileFacts.class_rows_nonempty in Hin. congruence.
    + rewrite <- E. specialize (Hstep class_name). rewrite Hstep. split.
      * intros (Hn & H1 & H2). auto.
      * intros (_ & H1 & H2). split; [rewrite E; discriminate | auto].
  - unfold create_query_vectors_auto.
    destruct (SortFacts.string_sorted_spec (map fst df)) as (_ & _ & Hi). split.
    + intros [out H].
      destruct (mapM _ (Py.sorted (Py.unique (map fst df)))) as [written|e] eqn:Em;
        cbn [bind] in H; [|discriminate].
      destruct df as [|[c0 v0] df'] eqn:Edf; [now left | right]. rewrite <- Edf in *.
      apply PrototypeFileFacts.mapM_forall2 in Em.
      assert (Hall : forall c, In c (map fst df) ->
                one_shape (class_rows df c) = true /\ known_method method = true).
      { intros c Hc. apply Hi in Hc.
        destruct (PrototypeFileFacts.forall2_in_l _ _ _ c Em Hc) as (w & _ & Hw).
        apply Hstep.
        destruct (np_stack (class_rows df c)) as [m|e]; cbn [bind] in *; [|discriminate].
        destruct (aggregate method m) as [q|e]; cbn [bind] in *; [|discriminate].
        eauto. }
      split.
      * apply (Hall c0). rewrite Edf. now left.
      * intros c Hc. now apply Hall.
    + intros Hcase.
      destruct (GridCellFacts.mapM_total
                  (fun class_name0 =>
                     embeddings <- np_stack (class_rows df class_name0) ;;
                     query_vector <- aggregate method embeddings ;;
                     Ok ((output_file class_name0, query_vector),
                         mkInfo class_name0 (output_file class_name0)
                                (List.length (class_rows df class_name0)) method))
                  (Py.sorted (Py.unique (map fst df)))) as [written ->].
      * intros c Hc. apply Hi in Hc.
        destruct Hcase as [-> | [Hk Hs]]; [destruct Hc|].
        destruct (proj2 (Hstep c)) as [m Hm].
        { split; [now apply PrototypeFileFacts.class_rows_nonempty|]. auto. }
        destruct (np_stack (class_rows df c)) as [mm|e]; cbn [bind] in *; [|discriminate].
        rewrite Hm. cbn [bind]. eauto.
      * cbn [bind]. eauto.
  - intros e [H | H].
    + unfold create_query_vector in H.
      destruct (class_rows df class_name) as [|v vs]; [injection H as <-; eauto|].
      eapply step_value_error. exact H.
    + unfold create_query_vectors_auto in H.
      destruct (mapM _ (Py.sorted (Py.unique (map fst df)))) as [written|e'] eqn:Em;
        cbn [bind] in H; [discriminate|].
      injection H as ->.
      apply GridCellFacts.mapM_raises in Em. destruct Em as (c & _ & Hc).
      apply (step_value_error method (class_rows df c)).
      destruct (np_stack (class_rows df c)) as [m|e1]; cbn [bind] in *;
        [|now injection Hc as ->].
      destruct (aggregate method m) as [q|e2]; cbn [bind] in *;
        [discriminate | now injection Hc as ->].
Qed.

End EdgeFacts.
(* ================================================================== *)
(** * A run that writes the grid *)

Module RunGridFacts.

Import Float Classifier Grid Cells Pipeline.

Local Open Scope Z_scope.

(** What the extractor writes into the metadata of its tiles. *)
Lemma extracted_metadata (pixels : Type) (src : Extractor.raster pixels)
    (path : string) (tile_size overlap : Z) (tiles : list (pixels * tile_meta)) :
  0 < tile_size -> overlap < tile_size ->
  Extractor.extract_geotiff_tiles src path tile_size overlap = Ok tiles ->
  NoDup (map Candidates.position (map snd tiles))
  /\ forall t,
       In t tiles ->
       written_for (Extractor.src_transform src) (snd t)
       /\ tile_width (snd t) = tile_size /\ tile_height (snd t) = tile_size.
Proof.
  intros HS HO He.
  destruct (ScanFacts.extract_characterised pixels src path tile_size overlap HS HO)
    as (tiles' & He' & Hin).
  rewrite He in He'. injection He' as <-.
  split.
  - assert (Hs : StronglySorted Candidates.scan_lt (map snd tiles)).
    { destruct (ExtractorFacts.extract_returns pixels src path tile_size overlap
                  ltac:(lia) ltac:(lia)) as (xs & ys & _ & _ & He').
      rewrite He in He'. injection He' as ->. apply ScanFacts.scan_rows_sorted. }
    apply (ScanFacts.sorted_nodup Candidates.scan_lt); [exact Hs|].
    intros a b Ha Hb Hlt Heq. apply in_map_iff in Ha, Hb.
    destruct Ha as (t & <- & Ht), Hb as (u & <- & Hu).
    apply Hin in Ht, Hu.
    destruct Ht as (r & c & _ & _ & _ & ->), Hu as (r' & c' & _ & _ & _ & ->).
    unfold Candidates.scan_lt, Candidates.position, Candidates.tile_at in *. cbn in *.
    injection Heq as Hx Hy. nia.
  - intros t Ht. apply Hin in Ht. destruct Ht as (r & c & _ & _ & Hp & ->).
    apply ScanFacts.passes_spec in Hp; [|exact HS].
    unfold Candidates.tile_at, written_for. cbn. split; [reflexivity|]. lia.
Qed.

(** X25 -- a run that writes the grid draws every tile once, in its
    place.  When the three input paths exist, the prototypes load, the
    table of the reference embeddings loads, the extractor returns K
    tiles (K at least one, for a positive tile size S and an overlap
    below it), the batch size is at least one and the prototypes have
    the dimension of the output of the model, a run that writes the grid
    without a colour file and no GeoJSON file, [geopandas] being there,
    returns its results and a grid which has exactly one cell for each
    tile: the tile identifiers of the cells are a rearrangement of
    0, ..., K - 1, and the cell of a tile carries the class of the
    result of that tile, the position of the tile, and as its corners
    the images of the corners of the tile, S by S pixels, under the
    transform of the raster. *)
Theorem run_draws_every_tile_once_in_its_place (pixels tensor : Type)
    (src : Extractor.raster pixels) (model : Embedder.clip pixels tensor)
    (proto_norm tile_norm : vec -> fnum)
    (geotiff_path : string) (query_vector_path : query_path)
    (content : option (list Prototype.row))
    (tile_size overlap batch_size : Z) (strip : string -> string) (ext : externals)
    (query_vectors : list (string * vec)) (reference : matrix * list string)
    (tiles : list (pixels * tile_meta)) (d : nat) :
  load_query_vectors query_vector_path = Ok query_vectors ->
  load_embeddings content = Ok reference ->
  0 < tile_size -> overlap < tile_size ->
  Extractor.extract_geotiff_tiles src geotiff_path tile_size overlap = Ok tiles ->
  tiles <> [] -> 1 <= batch_size ->
  (forall q, In q query_vectors -> List.length (snd q) = d) ->
  (forall t, List.length (Embedder.encode_image model t) = d) ->
  exists results sf,
    run_process (Some src) geotiff_path (Some query_vector_path) (Some content)
                model proto_norm tile_norm tile_size overlap batch_size
                true false true true strip ext None
    = Ok (mkRun results (WrittenGrid (Some sf)) None)
    /\ Permutation (map cell_tile_id (sf_cells sf)) (seq 0 (List.length tiles))
    /\ forall c,
         In c (sf_cells sf) ->
         exists t r,
           nth_error tiles (cell_tile_id c) = Some t
           /\ nth_error results (cell_tile_id c) = Some r
           /\ a_best_class (attrs c) = best_class r
           /\ cell_position c = Candidates.position (snd t)
           /\ polygon c
              = footprint (Extractor.src_transform src) (tile_x (snd t)) (tile_y (snd t))
                          tile_size tile_size.
Proof.
  intros Hq Hr HS HO Ht Hne HB Hdq Hdm.
  destruct (extracted_metadata pixels src geotiff_path tile_size overlap tiles HS HO Ht)
    as [Hpos Hmeta].
  destruct (PipelineFacts.run_process_classifies pixels tensor src model proto_norm
              tile_norm geotiff_path query_vector_path content tile_size overlap
              batch_size true strip ext None query_vectors reference tiles d
              true false true Hq Hr Ht Hne HB Hdq Hdm)
    as (results & Hok & Hlen & Hids & Hrun).
  rewrite Hrun. unfold create_shapefile_from_results.
  cbn [negb ColorMap.load_color_map].
  assert (Hmne : map snd tiles <> []).
  { destruct tiles; [congruence | discriminate]. }
  assert (Hids' : map tile_id results = seq 0 (List.length (map snd tiles)))
    by now rewrite length_map.
  pose proof (GridCellFacts.cells_cover_tiles ext results (map snd tiles) None
                Hmne Hpos Hids') as Hgrid.
  destruct (_create_grid_shapefile ext results (map snd tiles) None)
    as [[sf|]|e] eqn:Eg; [|contradiction|cbn in Hgrid; discriminate].
  destruct Hgrid as [Hperm Hcells]. rewrite length_map in Hperm.
  cbn [bind]. exists results, sf. split; [reflexivity|]. split; [exact Hperm|].
  intros c Hc. destruct (Hcells c Hc) as (r & m & Hri & Hm & Hcl & Hp).
  rewrite nth_error_map in Hm.
  destruct (nth_error tiles (cell_tile_id c)) as [t|] eqn:Etile; [|discriminate].
  cbn in Hm. injection Hm as <-.
  exists t, r. repeat split; try assumption; try reflexivity.
  assert (Hw : forall m, In m (map snd tiles) ->
               written_for (Extractor.src_transform src) m).
  { intros m Hm. apply in_map_iff in Hm. destruct Hm as (u & <- & Hu).
    now apply Hmeta. }
  rewrite (GridCellFacts.cell_footprint ext results (map snd tiles) None
             (Extractor.src_transform src) sf c Hw Eg Hc).
  unfold cell_position, Candidates.position in Hp. injection Hp as -> ->.
  destruct (GridCellFacts.grid_inv _ _ _ _ _ Eg) as [Hsize _].
  destruct (GridFacts.grid_cell_size_is_min_tile_size (map snd tiles) Hmne)
    as (w & h & Hwh & (mw & Hmw & Hw1) & (mh & Hmh & Hh1) & _).
  rewrite Hwh in Hsize. injection Hsize as <- <-.
  apply in_map_iff in Hmw, Hmh.
  destruct Hmw as (u & <- & Hu), Hmh as (v & <- & Hv).
  destruct (Hmeta u Hu) as (_ & Hwu & _), (Hmeta v Hv) as (_ & _ & Hhv).
  now rewrite <- Hw1, <- Hh1, Hwu, Hhv.
Qed.

Lemma run_draws_every_tile_once_in_its_place_witness :
  exists results sf,
    run_process (Some Samples.strip) "reef.tif"
      (Some (QFile "query_sand.npy" (Some [Fin 1%R; Fin 0%R])))
      (Some (Some Samples.query_table))
      Samples.toy_clip norm norm 4 2 2 true false true true (fun s => s)
      Samples.ext None
    = Ok (mkRun results (WrittenGrid (Some sf)) None)
    /\ Permutation (map cell_tile_id (sf_cells sf)) [0; 1; 2]%nat.
Proof.
  destruct (run_draws_every_tile_once_in_its_place Z Z Samples.strip Samples.toy_clip
              norm norm
              "reef.tif" (QFile "query_sand.npy" (Some [Fin 1%R; Fin 0%R]))
              (Some Samples.query_table)
              4 2 2 (fun s => s) Samples.ext _ _ _ 2%nat eq_refl eq_refl
              ltac:(lia) ltac:(lia) eq_refl
              ltac:(discriminate) ltac:(lia)
              ltac:(intros q [<- | []]; reflexivity)
              ltac:(intros t; reflexivity))
    as (results & sf & Hrun & Hperm & _).
  exists results, sf. split; [exact Hrun | exact Hperm].
Defined.

End RunGridFacts.
